(** * MovieMate backend: catalogue controller and Movie model

    A shallow embedding of [controllers/movieController.js] (the request
    handlers), of [models/Movie.js] (schema validators, the [toJSON]
    transform and the [pre('save')] hook) and of the parts of the JavaScript
    runtime, of Mongoose and of the MongoDB query language that these
    handlers exercise.

    Conventions of the model
    - strings are sequences of 8-bit characters ([string]), the bytes of the
      text; case mapping and the character classes are the ASCII ones, so
      the model is exact on ASCII text, and a statement that depends on the
      case of letters says so;
    - integers produced by [parseInt] are exact ([Z]) and [NaN] is explicit:
      they are the numbers of JavaScript below 2^53, and a statement on page
      numbers stays far below that bound; ratings are exact rationals ([Q])
      where JavaScript has doubles;
    - the collection is a list of documents in insertion order, object
      identifiers are natural numbers, and the clock is a parameter;
    - a handler is a function from the collection and the request to the
      new collection and the response; an error that reaches the error
      middleware is a [Raise], and [respond] is what the middleware answers;
    - what lies outside the modelled fragment is not decided by the model
      but taken from its environment, the class [Service]: the verdict of
      the two regular-expression engines on a pattern outside the fragment,
      and the way the storage service reads an offset or a length that is
      not a 32-bit integer. A statement holds for every such environment;
    - among documents whose sort keys tie the storage service fixes no
      order; the model keeps the insertion order, and no statement depends
      on the order among ties. *)

From Stdlib Require Import ZArith QArith Qround List String Ascii Bool Lia Arith.
From Stdlib Require Import Permutation.
Import ListNotations.

(* ================================================================== *)
(** * JavaScript primitives *)
(* ================================================================== *)

Module JS.

Local Open Scope Z_scope.

(** Numbers that hold the result of [parseInt]: an integer or [NaN]. *)
Inductive num : Type :=
| NaN : num
| Int : Z -> num.

(** Numbers that hold the result of [parseFloat]. *)
Inductive float : Type :=
| FNaN : float
| FInf : bool -> float          (* [true] is the negative infinity *)
| Fin : Q -> float.

Definition code (c : ascii) : Z := Z.of_nat (nat_of_ascii c).

Definition chr (n : Z) : ascii := ascii_of_nat (Z.to_nat n).

(** White space of [String.prototype.trim], of [parseInt] and of the
    regular-expression class [\s], restricted to 8-bit characters. *)
Definition isSpace (c : ascii) : bool :=
  let n := code c in ((9 <=? n) && (n <=? 13)) || (n =? 32).

Definition isDigit (c : ascii) : bool :=
  let n := code c in (48 <=? n) && (n <=? 57).

Definition isUpper (c : ascii) : bool :=
  let n := code c in (65 <=? n) && (n <=? 90).

Definition isLower (c : ascii) : bool :=
  let n := code c in (97 <=? n) && (n <=? 122).

Definition isLetter (c : ascii) : bool := isUpper c || isLower c.

(** The class [\w]: letters, digits and the underscore. *)
Definition isWordChar (c : ascii) : bool :=
  isLetter c || isDigit c || (code c =? 95).

Definition toLowerChar (c : ascii) : ascii :=
  if isUpper c then chr (code c + 32) else c.

Definition toUpperChar (c : ascii) : ascii :=
  if isLower c then chr (code c - 32) else c.

Fixpoint toLowerCase (s : string) : string :=
  match s with
  | EmptyString => EmptyString
  | String c r => String (toLowerChar c) (toLowerCase r)
  end.

Fixpoint toUpperCase (s : string) : string :=
  match s with
  | EmptyString => EmptyString
  | String c r => String (toUpperChar c) (toUpperCase r)
  end.

(** Truthiness of a string: every string but the empty one. *)
Definition truthy (s : string) : bool :=
  match s with EmptyString => false | _ => true end.

Fixpoint trimStart (s : string) : string :=
  match s with
  | String c r => if isSpace c then trimStart r else s
  | EmptyString => EmptyString
  end.

Fixpoint rev_string (s acc : string) : string :=
  match s with
  | EmptyString => acc
  | String c r => rev_string r (String c acc)
  end.

Definition trimEnd (s : string) : string :=
  rev_string (trimStart (rev_string s EmptyString)) EmptyString.

Definition trim (s : string) : string := trimEnd (trimStart s).

(** ** [parseInt(s)] with no radix argument *)

Definition digitValue (radix : Z) (c : ascii) : option Z :=
  let n := code c in
  let v := if isDigit c then Some (n - 48)
           else if isLower c then Some (n - 87)
           else if isUpper c then Some (n - 55)
           else None in
  match v with
  | Some d => if d <? radix then Some d else None
  | None => None
  end.

(** The longest prefix of digits in the radix, accumulated from the left;
    [None] while no digit was read. *)
Fixpoint readDigits (radix : Z) (acc : option Z) (s : string) : option Z :=
  match s with
  | EmptyString => acc
  | String c r =>
      match digitValue radix c with
      | Some d =>
          readDigits radix
            (Some (match acc with Some a => a * radix + d | None => d end)) r
      | None => acc
      end
  end.

Definition stripSign (s : string) : bool * string :=
  match s with
  | String "-" r => (true, r)
  | String "+" r => (false, r)
  | _ => (false, s)
  end.

Definition stripHexPrefix (s : string) : Z * string :=
  match s with
  | String "0" (String "x" r) => (16, r)
  | String "0" (String "X" r) => (16, r)
  | _ => (10, s)
  end.

Definition parseInt (s : string) : num :=
  let '(neg, s1) := stripSign (trimStart s) in
  let '(radix, s2) := stripHexPrefix s1 in
  match readDigits radix None s2 with
  | None => NaN
  | Some v => Int (if neg then - v else v)
  end.

(** [Number.MAX_SAFE_INTEGER]: up to this magnitude the integers of
    JavaScript are the integers. *)
Definition maxSafe : Z := 9007199254740991.

(** [a < b]: false as soon as one side is [NaN]. *)
Definition lt (a b : num) : bool :=
  match a, b with
  | Int x, Int y => x <? y
  | _, _ => false
  end.

(** A string of ASCII characters. *)
Definition isAscii (c : ascii) : bool := code c <? 128.

Fixpoint asciiText (s : string) : bool :=
  match s with
  | EmptyString => true
  | String c r => isAscii c && asciiText r
  end.

(** [Math.max] and [Math.min] on two arguments: [NaN] is contagious. *)
Definition max (a b : num) : num :=
  match a, b with
  | Int x, Int y => Int (Z.max x y)
  | _, _ => NaN
  end.

Definition min (a b : num) : num :=
  match a, b with
  | Int x, Int y => Int (Z.min x y)
  | _, _ => NaN
  end.

Definition add (a b : num) : num :=
  match a, b with
  | Int x, Int y => Int (x + y)
  | _, _ => NaN
  end.

Definition sub (a b : num) : num :=
  match a, b with
  | Int x, Int y => Int (x - y)
  | _, _ => NaN
  end.

Definition mul (a b : num) : num :=
  match a, b with
  | Int x, Int y => Int (x * y)
  | _, _ => NaN
  end.

(** ** [parseFloat(s)] *)

Fixpoint spanDigits (s : string) : list Z * string :=
  match s with
  | String c r =>
      if isDigit c
      then let '(ds, rest) := spanDigits r in ((code c - 48) :: ds, rest)
      else ([], s)
  | EmptyString => ([], EmptyString)
  end.

Definition digitsValue (ds : list Z) : Z :=
  fold_left (fun a d => a * 10 + d) ds 0.

(** The exponent part [e[+-]ddd], read only when it is complete. *)
Definition readExponent (s : string) : Z :=
  match s with
  | String e r =>
      if (code e =? 101) || (code e =? 69) then
        let '(neg, r1) := stripSign r in
        match spanDigits r1 with
        | ([], _) => 0
        | (ds, _) => if neg then - digitsValue ds else digitsValue ds
        end
      else 0
  | EmptyString => 0
  end.

Definition pow10 (e : Z) : Q :=
  if 0 <=? e then inject_Z (10 ^ e) else Qinv (inject_Z (10 ^ (- e))).

Fixpoint isPrefix (p s : string) : bool :=
  match p, s with
  | EmptyString, _ => true
  | String a p', String b s' => Ascii.eqb a b && isPrefix p' s'
  | _, _ => false
  end.

Definition parseFloat (s : string) : float :=
  let '(neg, s1) := stripSign (trimStart s) in
  if isPrefix "Infinity" s1 then FInf neg
  else
    let '(ip, s2) := spanDigits s1 in
    let '(fp, s3) :=
      match s2 with
      | String "." r => spanDigits r
      | _ => ([], s2)
      end in
    match ip, fp with
    | [], [] => FNaN
    | _, _ =>
        let mant := digitsValue (ip ++ fp) in
        let e := readExponent s3 - Z.of_nat (List.length fp) in
        let v := Qmult (inject_Z mant) (pow10 e) in
        Fin (if neg then Qopp v else v)
    end.

(** [Math.round(x)]: the integer nearest to [x], ties towards +infinity. *)
Definition round (x : Q) : Z := Qfloor (Qplus x (1 # 2)).

End JS.

(* ================================================================== *)
(** * Regular expressions of the storage service *)
(* ================================================================== *)

(** The handlers hand patterns to the regular-expression engine of the
    storage service, either as [$regex] strings or through [new RegExp].
    The engine is modelled on the fragment made of literal characters, [.],
    the anchors [^] and [$], alternation, groups, the quantifiers [*], [+]
    and [?] (also lazy), and a backslash before a punctuation character.
    A pattern that uses anything else (classes, counted repetition, named
    escapes, [(?...)] groups, possessive quantifiers) is reported as
    [Unmodelled], and what the engines do with it is taken from the
    environment of the model. *)

Module Regex.

Inductive regex : Type :=
| Eps : regex
| Chr : ascii -> regex
| Any : regex
| Bol : regex
| Eol : regex
| Cat : regex -> regex -> regex
| Alt : regex -> regex -> regex
| Star : regex -> regex.

Inductive compiled : Type :=
| Parsed : regex -> compiled
| Malformed : compiled          (* the engine rejects the pattern *)
| Unmodelled : compiled.        (* outside the modelled fragment *)

(** ** Parsing *)

(** What stands immediately to the left of the reading position. *)
Inductive left_ctx : Type :=
| AtStart        (* start of the pattern or of an alternative *)
| AtGroupOpen    (* just after an opening parenthesis *)
| AfterItem      (* a character, a dot or a closed group *)
| AfterAnchor
| AfterQuant
| AfterLazy.

Record frame : Type := mkFrame {
  alts : list regex;     (* finished alternatives, most recent first *)
  items : list regex     (* items of the open alternative, most recent first *)
}.

Record pstate : Type := mkPState {
  parents : list frame;
  cur : frame;
  ctx : left_ctx;
  escaped : bool
}.

Inductive step_result : Type :=
| Next : pstate -> step_result
| Reject : step_result
| Beyond : step_result.

Fixpoint mkCat (l : list regex) : regex :=
  match l with
  | [] => Eps
  | r :: rs => Cat r (mkCat rs)
  end.

Fixpoint mkAlt (r : regex) (l : list regex) : regex :=
  match l with
  | [] => r
  | r' :: rs => Alt r (mkAlt r' rs)
  end.

Definition closeFrame (f : frame) : regex :=
  match rev (mkCat (rev (items f)) :: alts f) with
  | [] => Eps
  | r :: rs => mkAlt r rs
  end.

Definition pushItem (st : pstate) (r : regex) (c : left_ctx) : pstate :=
  mkPState (parents st) (mkFrame (alts (cur st)) (r :: items (cur st))) c false.

Definition isPunct (c : ascii) : bool :=
  let n := JS.code c in
  ((33 <=? n) && (n <=? 47) || (58 <=? n) && (n <=? 64) ||
   (91 <=? n) && (n <=? 96) || (123 <=? n) && (n <=? 126))%Z.

(** Characters with a meaning of their own in a pattern. *)
Definition isMeta (c : ascii) : bool :=
  match c with
  | "\"%char | "^"%char | "$"%char | "."%char | "|"%char | "?"%char
  | "*"%char | "+"%char | "("%char | ")"%char | "["%char | "]"%char
  | "{"%char | "}"%char => true
  | _ => false
  end.

Definition quantify (q : ascii) (r : regex) : regex :=
  match q with
  | "*"%char => Star r
  | "+"%char => Cat r (Star r)
  | _ => Alt r Eps
  end.

Definition stepQuant (st : pstate) (q : ascii) : step_result :=
  match ctx st with
  | AtStart => Reject
  | AfterItem =>
      match items (cur st) with
      | r :: rs =>
          Next (mkPState (parents st)
                  (mkFrame (alts (cur st)) (quantify q r :: rs))
                  AfterQuant false)
      | [] => Reject
      end
  | AfterQuant =>
      match q with
      | "?"%char => Next (mkPState (parents st) (cur st) AfterLazy false)
      | _ => Beyond
      end
  | AtGroupOpen | AfterAnchor | AfterLazy => Beyond
  end.

Definition step (st : pstate) (c : ascii) : step_result :=
  if escaped st then
    if isPunct c then Next (pushItem st (Chr c) AfterItem) else Beyond
  else
    match c with
    | "\"%char => Next (mkPState (parents st) (cur st) (ctx st) true)
    | "."%char => Next (pushItem st Any AfterItem)
    | "^"%char => Next (pushItem st Bol AfterAnchor)
    | "$"%char => Next (pushItem st Eol AfterAnchor)
    | "*"%char | "+"%char | "?"%char => stepQuant st c
    | "|"%char =>
        Next (mkPState (parents st)
                (mkFrame (mkCat (rev (items (cur st))) :: alts (cur st)) [])
                AtStart false)
    | "("%char =>
        Next (mkPState (cur st :: parents st) (mkFrame [] []) AtGroupOpen false)
    | ")"%char =>
        match parents st with
        | p :: ps =>
            Next (mkPState ps
                    (mkFrame (alts p) (closeFrame (cur st) :: items p))
                    AfterItem false)
        | [] => Reject
        end
    | "["%char | "]"%char | "{"%char | "}"%char => Beyond
    | _ => Next (pushItem st (Chr c) AfterItem)
    end.

Fixpoint run (st : pstate) (s : string) : step_result :=
  match s with
  | EmptyString => Next st
  | String c r =>
      match step st c with
      | Next st' => run st' r
      | other => other
      end
  end.

Definition initial : pstate := mkPState [] (mkFrame [] []) AtStart false.

Definition finish (res : step_result) : compiled :=
  match res with
  | Next st =>
      if escaped st then Malformed
      else match parents st with
           | [] => Parsed (closeFrame (cur st))
           | _ :: _ => Malformed
           end
  | Reject => Malformed
  | Beyond => Unmodelled
  end.

Definition compile (pattern : string) : compiled := finish (run initial pattern).

(** ** Matching *)

Definition eqChar (ci : bool) (a b : ascii) : bool :=
  if ci then Ascii.eqb (JS.toLowerChar a) (JS.toLowerChar b) else Ascii.eqb a b.

Definition isLF (c : ascii) : bool := (JS.code c =? 10)%Z.

(** [$] holds at the end of the subject and before a final line feed. *)
Definition atEnd (s : string) : bool :=
  match s with
  | EmptyString => true
  | String c EmptyString => isLF c
  | _ => false
  end.

(** The loop of a star over a matcher [ma] of its body: stop here, or match
    the body once and go on. An iteration has to consume a character, so the
    length of the subject is enough fuel. *)
Fixpoint starLoop (ma : (bool -> string -> bool) -> bool -> string -> bool)
    (k : bool -> string -> bool) (n : nat) (b : bool) (t : string)
    {struct n} : bool :=
  k b t ||
  match n with
  | O => false
  | S n' =>
      ma (fun b' t' => (String.length t' <? String.length t)%nat
                       && starLoop ma k n' b' t') b t
  end.

(** Backtracking matcher in continuation-passing style. [bol] tells whether
    the position is the start of the subject. *)
Fixpoint matchK (ci : bool) (r : regex) (k : bool -> string -> bool)
    (bol : bool) (s : string) {struct r} : bool :=
  match r with
  | Eps => k bol s
  | Chr c =>
      match s with
      | String d s' => eqChar ci c d && k false s'
      | EmptyString => false
      end
  | Any =>
      match s with
      | String d s' => negb (isLF d) && k false s'
      | EmptyString => false
      end
  | Bol => bol && k bol s
  | Eol => atEnd s && k bol s
  | Cat a b => matchK ci a (matchK ci b k) bol s
  | Alt a b => matchK ci a k bol s || matchK ci b k bol s
  | Star a => starLoop (matchK ci a) k (String.length s) bol s
  end.

Definition accept (_ : bool) (_ : string) : bool := true.

(** Unanchored search: a match may start at any position. *)
Fixpoint searchFrom (ci : bool) (r : regex) (bol : bool) (s : string) : bool :=
  matchK ci r accept bol s ||
  match s with
  | String _ s' => searchFrom ci r false s'
  | EmptyString => false
  end.

Definition test (ci : bool) (r : regex) (s : string) : bool :=
  searchFrom ci r true s.

(** ** Vocabulary for literal patterns *)

(** A string without a character that has a meaning in a pattern. *)
Fixpoint plain (s : string) : bool :=
  match s with
  | EmptyString => true
  | String c r => negb (isMeta c) && plain r
  end.

Fixpoint literal (s : string) : list regex :=
  match s with
  | EmptyString => []
  | String c r => Chr c :: literal r
  end.

Fixpoint pushAll (st : pstate) (s : string) : pstate :=
  match s with
  | EmptyString => st
  | String c r => pushAll (pushItem st (Chr c) AfterItem) r
  end.

(** Removes the prefix [t] of [s], compared without regard to case. *)
Fixpoint stripCI (t s : string) : option string :=
  match t with
  | EmptyString => Some s
  | String a t' =>
      match s with
      | String b s' => if eqChar true a b then stripCI t' s' else None
      | EmptyString => None
      end
  end.




(** [x] is [t] without regard to case. *)
Definition sameCI (t x : string) : Prop :=
  JS.toLowerCase x = JS.toLowerCase t.

Definition lineFeed : string := String "010"%char EmptyString.

(** [x] is [t] without regard to case, possibly followed by one line
    feed. *)
Definition sameLineCI (t x : string) : Prop :=
  exists mid tail : string,
    x = (mid ++ tail)%string /\ sameCI t mid
    /\ (tail = EmptyString \/ tail = lineFeed).

(** Whether the position after the literal [t] is still the start. *)
Definition afterLiteral (t : string) (bol : bool) : bool :=
  match t with EmptyString => bol | _ => false end.

(** The pattern of an update without a title. *)
Definition anyTitle : regex :=
  Cat Bol (Cat (Star Any) (Cat Eol Eps)).

Fixpoint noLineFeed (s : string) : bool :=
  match s with
  | EmptyString => true
  | String c r => negb (isLF c) && noLineFeed r
  end.

End Regex.

(* ================================================================== *)
(** * Errors raised while a request is handled *)
(* ================================================================== *)

Inductive error : Type :=
| SyntaxError        (* [new RegExp] rejects its pattern *)
| StorageError       (* the storage service rejects the query *)
| ValidationError    (* a schema validator fails *)
| CastError.         (* Mongoose cannot cast a value of the filter *)

Inductive result (A : Type) : Type :=
| Ok : A -> result A
| Raise : error -> result A.

Arguments Ok {A} _.
Arguments Raise {A} _.

Definition bind {A B : Type} (r : result A) (f : A -> result B) : result B :=
  match r with
  | Ok a => f a
  | Raise e => Raise e
  end.

Notation "x <- c1 ;; c2" := (bind c1 (fun x => c2))
  (at level 61, c1 at next level, right associativity).

(* ================================================================== *)
(** * What the model takes from its environment *)
(* ================================================================== *)

(** The handlers hand patterns to two regular-expression engines and
    numbers to the cursor of the storage service. Inside the fragment of
    [Regex], and for 32-bit integers, the model computes what they do.
    Outside, it asks this class; the statements hold for every instance. *)
Class Service : Type := {
  (** Whether [new RegExp(p, 'i')] accepts a pattern that lies outside the
      fragment. *)
  accepts : string -> bool;
  (** The storage service on a pattern that lies outside the fragment, with
      the option [i]: [None] when the service rejects the pattern, else the
      subjects in which the pattern matches somewhere. *)
  matches : string -> option (string -> bool);
  (** The storage service on an offset that is [NaN] or not a 32-bit
      integer: [None] when it rejects the cursor, else the offset that it
      takes. *)
  readsSkip : JS.num -> option nat;
  (** The same for a length, zero being no limit. *)
  readsLimit : JS.num -> option nat
}.

(* ================================================================== *)
(** * The Movie collection *)
(* ================================================================== *)

Module Model.

Inductive lifecycle : Type := Active | Inactive | Pending | Deleted.

Definition lifecycle_eqb (a b : lifecycle) : bool :=
  match a, b with
  | Active, Active | Inactive, Inactive | Pending, Pending
  | Deleted, Deleted => true
  | _, _ => false
  end.

(** A document of the collection. The fields of the schema that no handler
    below reads ([poster], [released], [rated], [countries], [languages],
    [awards], [metacritic], [boxOffice], [tomatoes], [watchlistCount]) are
    left out. The schema has no path [deletedAt]: an update that sends one
    drops it, so no document has it. *)
Record movie : Type := mkMovie {
  _id : nat;
  title : string;
  plot : option string;
  genres : list string;
  year : option Z;
  runtime : option Z;
  director : option string;
  cast : list string;
  imdb_rating : option Q;
  imdb_votes : option Z;
  favorites : Z;
  viewCount : Z;
  source : string;
  status : lifecycle;
  createdAt : Z;
  updatedAt : Z
}.

Definition collection : Type := list movie.

(** ** Query objects *)

Inductive status_cond : Type :=
| StatusIs : lifecycle -> status_cond            (* [status: s] *)
| StatusNot : lifecycle -> status_cond.          (* [status: {$ne: s}] *)

Inductive year_cond : Type :=
| YearIs : JS.num -> year_cond                   (* [year: n] *)
| YearAbsent : year_cond                         (* [year: undefined] *)
| YearBetween : JS.num -> JS.num -> year_cond.   (* [year: {$gte, $lte}] *)

Record rating_cond : Type := mkRating {
  rating_gte : option JS.float;
  rating_lte : option JS.float
}.

(** A [RegExp] object that [new RegExp(p, 'i')] returned: a pattern of the
    fragment, compiled, or a pattern outside it, known by its source. *)
Inductive regexp : Type :=
| Compiled : Regex.regex -> regexp
| Source : string -> regexp.

(** A pattern reaches the storage service as source text ([$regex: s],
    [$options: 'i']) or as a [RegExp] object that JavaScript accepted. *)
Inductive pattern : Type :=
| SourceText : string -> pattern
| RegExpObject : regexp -> pattern.

(** The subjects in which a pattern matches somewhere. *)
Definition matcher : Type := string -> bool.

(** The [$or] group of the detail view. A director that is [undefined]
    reaches the storage service as [null]. *)
Record related_cond : Type := mkRelated {
  rel_genres : list string;           (* [genres: {$in: movie.genres}] *)
  rel_director : option string        (* [director: movie.director] *)
}.

(** The keys a handler may put in a query object; an absent key is [None].
    A key whose value is [undefined] is not absent: it reaches the storage
    service as [null], which selects the documents without the field. *)
Record query : Type := mkQuery {
  q_status : option status_cond;
  q_search : option string;           (* the [$or] group of the listing *)
  q_title : option pattern;
  q_genres : option pattern;
  q_year : option year_cond;
  q_rating : option rating_cond;
  q_source : option string;
  q_id_ne : option nat;               (* [_id: {$ne: id}] *)
  q_updatedAt_gte : option Z;
  q_related : option related_cond
}.

Definition emptyQuery : query :=
  mkQuery None None None None None None None None None None.

Definition activeOnly : query :=
  mkQuery (Some (StatusIs Active)) None None None None None None None None None.

(** ** Casting of a filter *)

(** Mongoose casts the numbers of a filter before it sends the query, and
    refuses [NaN] for a path of type [Number]. *)
Definition castsYear (c : year_cond) : bool :=
  match c with
  | YearIs JS.NaN => false
  | YearBetween JS.NaN _ => false
  | YearBetween _ JS.NaN => false
  | _ => true
  end.

Definition castsFloat (b : JS.float) : bool :=
  match b with
  | JS.FNaN => false
  | _ => true
  end.

Definition castsBound (o : option JS.float) : bool :=
  match o with
  | Some b => castsFloat b
  | None => true
  end.

Definition castsRating (c : rating_cond) : bool :=
  castsBound (rating_gte c) && castsBound (rating_lte c).

Definition casts (q : query) : bool :=
  match q_year q with Some c => castsYear c | None => true end &&
  match q_rating q with Some c => castsRating c | None => true end.

(** ** Evaluation of a query on a document *)

Definition evalStatus (c : status_cond) (m : movie) : bool :=
  match c with
  | StatusIs s => lifecycle_eqb (status m) s
  | StatusNot s => negb (lifecycle_eqb (status m) s)
  end.

(** A document without a year is selected by [year: null] only. *)
Definition evalYear (c : year_cond) (m : movie) : bool :=
  match year m with
  | None =>
      match c with
      | YearAbsent => true
      | _ => false
      end
  | Some y =>
      match c with
      | YearIs (JS.Int n) => (y =? n)%Z
      | YearBetween (JS.Int lo) (JS.Int hi) => ((lo <=? y) && (y <=? hi))%Z
      | _ => false
      end
  end.

Definition geFloat (r : Q) (b : JS.float) : bool :=
  match b with
  | JS.Fin q => Qle_bool q r
  | JS.FInf neg => neg
  | JS.FNaN => false
  end.

Definition leFloat (r : Q) (b : JS.float) : bool :=
  match b with
  | JS.Fin q => Qle_bool r q
  | JS.FInf neg => negb neg
  | JS.FNaN => false
  end.

Definition evalRating (c : rating_cond) (m : movie) : bool :=
  match imdb_rating m with
  | None => false
  | Some r =>
      match rating_gte c with Some b => geFloat r b | None => true end &&
      match rating_lte c with Some b => leFloat r b | None => true end
  end.

(** A director that is [null] in the query selects the documents without
    a director, and only those. *)
Definition evalRelated (c : related_cond) (m : movie) : bool :=
  existsb (fun g => existsb (String.eqb g) (rel_genres c)) (genres m) ||
  match rel_director c with
  | Some d => match director m with Some d' => String.eqb d d' | None => false end
  | None => match director m with Some _ => false | None => true end
  end.

Definition testOpt (r : matcher) (o : option string) : bool :=
  match o with Some s => r s | None => false end.


(** The [$or] group of the listing: title, plot, director, some cast entry
    or some genre entry matches. The first matcher is for the three strings,
    the second one for the entries of the two arrays. *)
Definition evalSearch (rr : matcher * matcher) (m : movie) : bool :=
  fst rr (title m) || testOpt (fst rr) (plot m) || testOpt (fst rr) (director m)
  || existsb (snd rr) (cast m)
  || existsb (snd rr) (genres m).

Definition optCond {A : Type} (o : option A) (f : A -> bool) : bool :=
  match o with Some a => f a | None => true end.

Definition optPrepare {A B : Type} (o : option A) (f : A -> result B)
  : result (option B) :=
  match o with
  | Some a => r <- f a ;; Ok (Some r)
  | None => Ok None
  end.

Section ModelQueries.

Context {svc : Service}.

(** The storage service compiles source text itself and rejects the query
    when the pattern is malformed. *)
Definition prepareSource (s : string) : result matcher :=
  match Regex.compile s with
  | Regex.Parsed r => Ok (Regex.test true r)
  | Regex.Malformed => Raise StorageError
  | Regex.Unmodelled =>
      match matches s with
      | Some f => Ok f
      | None => Raise StorageError
      end
  end.

(** A [RegExp] object is sent with its source and its flag, and the storage
    service compiles it as well. *)
Definition prepare (p : pattern) : result matcher :=
  match p with
  | SourceText s => prepareSource s
  | RegExpObject (Compiled r) => Ok (Regex.test true r)
  | RegExpObject (Source s) =>
      match matches s with
      | Some f => Ok f
      | None => Raise StorageError
      end
  end.

(** The patterns of the [$or] group of the listing. Mongoose casts the
    pattern of an [$elemMatch] on [cast] or on [genres] as it casts an entry
    of these arrays, through the setter [trim] of the schema; the pattern
    on [title], [plot] and [director] is sent as it is. *)
Definition prepareSearch (s : string) : result (matcher * matcher) :=
  r <- prepareSource s ;;
  r' <- prepareSource (JS.trim s) ;;
  Ok (r, r').

(** A query becomes a predicate on documents once Mongoose has cast it and
    the storage service has compiled its patterns. *)
Definition evalQuery (q : query) : result (movie -> bool) :=
  if casts q then
    rs <- optPrepare (q_search q) prepareSearch ;;
    rt <- optPrepare (q_title q) prepare ;;
    rg <- optPrepare (q_genres q) prepare ;;
    Ok (fun m =>
          optCond (q_status q) (fun c => evalStatus c m)
          && optCond rs (fun rr => evalSearch rr m)
          && optCond rt (fun r => r (title m))
          && optCond rg (fun r => existsb r (genres m))
          && optCond (q_year q) (fun c => evalYear c m)
          && optCond (q_rating q) (fun c => evalRating c m)
          && optCond (q_source q) (fun s => String.eqb (source m) s)
          && optCond (q_id_ne q) (fun i => negb (Nat.eqb (_id m) i))
          && optCond (q_updatedAt_gte q) (fun t => (t <=? updatedAt m)%Z)
          && optCond (q_related q) (fun c => evalRelated c m))
  else Raise CastError.

End ModelQueries.

(** ** Ordering *)

Inductive sort_key : Type :=
| ByTitle | ByYear | ByRating | ByVotes | ByViews | ByFavorites
| ByCreated | ByRuntime.

(** A sort specification: keys in priority order, [true] for descending. *)
Definition sort_spec : Type := list (sort_key * bool).

(** A missing value sorts before every present one. *)
Definition compareOpt {A : Type} (cmp : A -> A -> comparison)
    (a b : option A) : comparison :=
  match a, b with
  | None, None => Eq
  | None, Some _ => Lt
  | Some _, None => Gt
  | Some x, Some y => cmp x y
  end.

Definition compareKey (k : sort_key) (a b : movie) : comparison :=
  match k with
  | ByTitle => String.compare (title a) (title b)
  | ByYear => compareOpt Z.compare (year a) (year b)
  | ByRating => compareOpt Qcompare (imdb_rating a) (imdb_rating b)
  | ByVotes => compareOpt Z.compare (imdb_votes a) (imdb_votes b)
  | ByViews => Z.compare (viewCount a) (viewCount b)
  | ByFavorites => Z.compare (favorites a) (favorites b)
  | ByCreated => Z.compare (createdAt a) (createdAt b)
  | ByRuntime => compareOpt Z.compare (runtime a) (runtime b)
  end.

Fixpoint compareSpec (sp : sort_spec) (a b : movie) : comparison :=
  match sp with
  | [] => Eq
  | (k, desc) :: rest =>
      match (if desc then compareKey k b a else compareKey k a b) with
      | Eq => compareSpec rest a b
      | c => c
      end
  end.

Fixpoint insertSorted (sp : sort_spec) (x : movie) (l : list movie) : list movie :=
  match l with
  | [] => [x]
  | y :: r =>
      match compareSpec sp x y with
      | Gt => y :: insertSorted sp x r
      | _ => x :: l
      end
  end.

Definition sortBy (sp : sort_spec) (l : list movie) : list movie :=
  fold_right (insertSorted sp) [] l.

(** ** Cursor modifiers *)

Definition int32Max : Z := 2147483647.

(** A number that is a 32-bit integer. *)
Definition small (n : JS.num) : option Z :=
  match n with
  | JS.Int z => if (Z.abs z <=? int32Max)%Z then Some z else None
  | JS.NaN => None
  end.

Section ModelCursor.

Context {svc : Service}.

(** [.skip(n)]: a negative offset is rejected. *)
Definition skip (n : JS.num) (l : list movie) : result (list movie) :=
  match small n with
  | Some z => if (0 <=? z)%Z then Ok (skipn (Z.to_nat z) l) else Raise StorageError
  | None =>
      match readsSkip n with
      | Some k => Ok (skipn k l)
      | None => Raise StorageError
      end
  end.

(** [.limit(n)]: zero means no limit, and a negative number bounds the
    result by its absolute value. *)
Definition limit (n : JS.num) (l : list movie) : result (list movie) :=
  match small n with
  | Some z => Ok (if (z =? 0)%Z then l else firstn (Z.abs_nat z) l)
  | None =>
      match readsLimit n with
      | Some k => Ok (if (k =? 0)%nat then l else firstn k l)
      | None => Raise StorageError
      end
  end.

(** ** Collection operations *)

Definition find (db : collection) (q : query) : result (list movie) :=
  p <- evalQuery q ;; Ok (filter p db).

Definition countDocuments (db : collection) (q : query) : result Z :=
  l <- find db q ;; Ok (Z.of_nat (List.length l)).

Definition findOne (db : collection) (q : query) : result (option movie) :=
  l <- find db q ;; Ok (hd_error l).

End ModelCursor.

Definition findById (db : collection) (id : nat) : option movie :=
  List.find (fun m => Nat.eqb (_id m) id) db.

(** Replaces the document that carries the identifier of [m]. *)
Fixpoint replaceDoc (db : collection) (m : movie) : collection :=
  match db with
  | [] => []
  | x :: r => if Nat.eqb (_id x) (_id m) then m :: r else x :: replaceDoc r m
  end.

(** A rating with at most one decimal place. *)
Definition oneDecimal (r : Q) : Prop :=
  exists k : Z, Qeq r (Qdiv (inject_Z k) 10).

(** Identifiers are unique in a collection. *)
Definition uniqueIds (db : collection) : Prop := NoDup (map _id db).

(** A fresh object identifier. *)
Definition freshId (db : collection) : nat :=
  S (fold_right Nat.max 0%nat (map _id db)).

End Model.

(* ================================================================== *)
(** * The Movie schema: setters, validators, hooks *)
(* ================================================================== *)

Module Schema.

Import Model.

(** The clock of a request and the bound on [year] that the schema computes
    when the process starts ([new Date().getFullYear() + 5]). *)
Record env : Type := mkEnv {
  now : Z;
  maxYear : Z
}.

Definition genreEnum : list string :=
  ["Action"; "Adventure"; "Animation"; "Biography"; "Comedy";
   "Crime"; "Documentary"; "Drama"; "Family"; "Fantasy";
   "History"; "Horror"; "Music"; "Musical"; "Mystery";
   "Romance"; "Sci-Fi"; "Sport"; "Thriller"; "War"; "Western"]%string.

Definition sourceEnum : list string :=
  ["mflix"; "omdb"; "tmdb"; "user"; "admin"]%string.

Definition member (s : string) (l : list string) : bool :=
  existsb (String.eqb s) l.

Definition lengthZ (s : string) : Z := Z.of_nat (String.length s).

Definition Qwithin (lo hi r : Q) : bool := Qle_bool lo r && Qle_bool r hi.

(** ** Validators, one per path *)

Definition validTitle (t : string) : bool :=
  JS.truthy t && (1 <=? lengthZ t)%Z && (lengthZ t <=? 200)%Z.

Definition validPlot (p : string) : bool := (lengthZ p <=? 2000)%Z.

Definition validGenres (g : list string) : bool :=
  forallb (fun x => member x genreEnum) g.

Definition validYear (e : env) (y : Z) : bool :=
  ((1800 <=? y) && (y <=? maxYear e))%Z.

Definition validRuntime (r : Z) : bool := ((1 <=? r) && (r <=? 1000))%Z.

Definition validDirector (d : string) : bool := (lengthZ d <=? 100)%Z.

Definition validCast (c : list string) : bool :=
  forallb (fun x => (lengthZ x <=? 100)%Z) c.

Definition validRating (r : Q) : bool := Qwithin 0 10 r.

Definition validCount (n : Z) : bool := (0 <=? n)%Z.

Definition validSource (s : string) : bool := member s sourceEnum.

Definition optValid {A : Type} (f : A -> bool) (o : option A) : bool :=
  match o with Some a => f a | None => true end.

(** Validation of a whole document, as [save] runs it on a new document. *)
Definition validate (e : env) (m : movie) : bool :=
  validTitle (title m)
  && optValid validPlot (plot m)
  && validGenres (genres m)
  && optValid (validYear e) (year m)
  && optValid validRuntime (runtime m)
  && optValid validDirector (director m)
  && validCast (cast m)
  && optValid validRating (imdb_rating m)
  && optValid validCount (imdb_votes m)
  && validCount (favorites m)
  && validCount (viewCount m)
  && validSource (source m).

(** ** The [pre('save')] hook *)

(** The callback of the hook:
    [txt.charAt(0).toUpperCase() + txt.substr(1).toLowerCase()]. *)
Definition capitalizeToken (txt : string) : string :=
  match txt with
  | EmptyString => EmptyString
  | String c r => String (JS.toUpperChar c) (JS.toLowerCase r)
  end.

(** The longest prefix without white space ([\S*]) and what follows it. *)
Fixpoint spanNonSpace (s : string) : string * string :=
  match s with
  | EmptyString => (EmptyString, EmptyString)
  | String c r =>
      if JS.isSpace c then (EmptyString, s)
      else let '(tok, rest) := spanNonSpace r in (String c tok, rest)
  end.

(** [s.replace(/\w\S*/g, f)]: from the left, each match starts at a word
    character and extends to the next white space; the text between matches
    is copied. Each round consumes a character, so the length of the
    subject is enough fuel. *)
Fixpoint replaceTokens (fuel : nat) (f : string -> string) (s : string) : string :=
  match fuel with
  | O => s
  | S n =>
      match s with
      | EmptyString => EmptyString
      | String c r =>
          if JS.isWordChar c
          then let '(tok, rest) := spanNonSpace s in
               (f tok ++ replaceTokens n f rest)%string
          else String c (replaceTokens n f r)
      end
  end.

Definition capitalize (s : string) : string :=
  replaceTokens (String.length s) capitalizeToken s.

(** The rewriting as a single pass: in each run of characters that are not
    white space, what precedes the first word character is kept, that
    character is uppercased and what follows it is lowercased. [inToken]
    tells whether the pass is after the first word character of a run. *)
Fixpoint capitalizeRuns (inToken : bool) (s : string) : string :=
  match s with
  | EmptyString => EmptyString
  | String c r =>
      if JS.isSpace c then String c (capitalizeRuns false r)
      else if inToken then String (JS.toLowerChar c) (capitalizeRuns true r)
      else if JS.isWordChar c
           then String (JS.toUpperChar c) (capitalizeRuns true r)
           else String c (capitalizeRuns false r)
  end.

(** The wording of the specification, read character by character: the
    first character of each word delimited by white space is uppercased and
    the others are lowercased. [start] tells whether a word starts here. *)
Fixpoint capitalizeSpecFirstChar (start : bool) (s : string) : string :=
  match s with
  | EmptyString => EmptyString
  | String c r =>
      if JS.isSpace c then String c (capitalizeSpecFirstChar true r)
      else String (if start then JS.toUpperChar c else JS.toLowerChar c)
             (capitalizeSpecFirstChar false r)
  end.

(** The wording of the specification, read letter by letter: the first
    letter of each word delimited by white space is uppercased and the
    other letters are lowercased. [pending] tells whether the word has had
    no letter yet. *)
Fixpoint capitalizeSpecFirstLetter (pending : bool) (s : string) : string :=
  match s with
  | EmptyString => EmptyString
  | String c r =>
      if JS.isSpace c then String c (capitalizeSpecFirstLetter true r)
      else if JS.isLetter c
           then String (if pending then JS.toUpperChar c else JS.toLowerChar c)
                  (capitalizeSpecFirstLetter false r)
           else String c (capitalizeSpecFirstLetter pending r)
  end.

Definition withNames (m : movie) (t : string) (d : option string) : movie :=
  mkMovie (_id m) t (plot m) (genres m) (year m) (runtime m) d (cast m)
    (imdb_rating m) (imdb_votes m) (favorites m) (viewCount m) (source m)
    (status m) (createdAt m) (updatedAt m).

(** Title and director are rewritten when they are truthy. (The hook also
    derives [released], a field the model leaves out.) *)
Definition preSave (m : movie) : movie :=
  withNames m
    (if JS.truthy (title m) then capitalize (title m) else title m)
    (match director m with
     | Some d => if JS.truthy d then Some (capitalize d) else Some d
     | None => None
     end).

(** ** The [toJSON] transform *)

(** [Math.round(r * 10) / 10] *)
Definition roundRating (r : Q) : Q :=
  Qdiv (inject_Z (JS.round (Qmult r 10))) 10.

Definition withRating (m : movie) (r : option Q) : movie :=
  mkMovie (_id m) (title m) (plot m) (genres m) (year m) (runtime m)
    (director m) (cast m) r (imdb_votes m) (favorites m) (viewCount m)
    (source m) (status m) (createdAt m) (updatedAt m).

(** Applied when a Mongoose document is serialised; the renaming of [_id]
    into [id] is not represented. A rating of zero is falsy and is kept. *)
Definition toJSON (m : movie) : movie :=
  match imdb_rating m with
  | Some r => if Qeq_bool r 0 then m else withRating m (Some (roundRating r))
  | None => m
  end.

(** ** Request bodies *)

(** The keys of a request body that the model follows; [None] is an absent
    key. *)
Record fields : Type := mkFields {
  b_title : option string;
  b_plot : option string;
  b_genres : option (list string);
  b_year : option Z;
  b_runtime : option Z;
  b_director : option string;
  b_cast : option (list string);
  b_rating : option Q;
  b_votes : option Z;
  b_status : option lifecycle
}.

Definition noFields : fields :=
  mkFields None None None None None None None None None None.

Definition orElse {A : Type} (o : option A) (d : A) : A :=
  match o with Some a => a | None => d end.

Definition orKeep {A : Type} (o old : option A) : option A :=
  match o with Some a => Some a | None => old end.

(** [new Movie({...body, source})]: casting applies the [trim] setters and
    the defaults of the schema. A missing title is the empty title; both
    fail [required]. *)
Definition newMovie (db : collection) (b : fields) (src : string) : movie :=
  mkMovie (freshId db)
    (JS.trim (orElse (b_title b) EmptyString))
    (option_map JS.trim (b_plot b))
    (map JS.trim (orElse (b_genres b) []))
    (b_year b) (b_runtime b)
    (option_map JS.trim (b_director b))
    (map JS.trim (orElse (b_cast b) []))
    (b_rating b) (b_votes b) 0%Z 0%Z src
    (orElse (b_status b) Active) 0%Z 0%Z.

Definition withTimes (m : movie) (created updated : Z) : movie :=
  mkMovie (_id m) (title m) (plot m) (genres m) (year m) (runtime m)
    (director m) (cast m) (imdb_rating m) (imdb_votes m) (favorites m)
    (viewCount m) (source m) (status m) created updated.

(** [doc.save()] on a new document: validation, then the hook, then the
    insertion with both timestamps. *)
Definition save (e : env) (db : collection) (m : movie)
  : result (collection * movie) :=
  if validate e m
  then let m' := withTimes (preSave m) (now e) (now e) in Ok (db ++ [m'], m')
  else Raise ValidationError.

Definition withViews (m : movie) (v : Z) : movie :=
  mkMovie (_id m) (title m) (plot m) (genres m) (year m) (runtime m)
    (director m) (cast m) (imdb_rating m) (imdb_votes m) (favorites m)
    v (source m) (status m) (createdAt m) (updatedAt m).

(** [doc.save()] on a document that was loaded and then changed in
    memory. The validators of every loaded path run first; when one fails,
    no hook runs and nothing is written. Otherwise the [timestamps] option
    stamps [updatedAt] if a path was modified, the hook of the schema runs,
    and the document is written. *)
Definition saveLoaded (e : env) (db : collection) (modified : bool) (m : movie)
  : result (collection * movie) :=
  if validate e m
  then let m1 := if modified then withTimes m (createdAt m) (now e) else m in
       let m2 := preSave m1 in
       Ok (replaceDoc db m2, m2)
  else Raise ValidationError.

(** [movie.incrementView()] with its failure swallowed by the caller:
    the document in memory always counts the view, and the stored one is
    rewritten when the document validates. *)
Definition incrementView (e : env) (db : collection) (m : movie)
  : collection * movie :=
  let m1 := withViews m (viewCount m + 1)%Z in
  match saveLoaded e db true m1 with
  | Ok saved => saved
  | Raise _ => (db, m1)
  end.

(** ** [findByIdAndUpdate] *)

(** The update validators of the paths that the body sets
    ([runValidators: true]), after the [trim] setters. *)
Definition validateUpdate (e : env) (b : fields) : bool :=
  optValid (fun t => validTitle (JS.trim t)) (b_title b)
  && optValid (fun p => validPlot (JS.trim p)) (b_plot b)
  && optValid (fun g => validGenres (map JS.trim g)) (b_genres b)
  && optValid (validYear e) (b_year b)
  && optValid validRuntime (b_runtime b)
  && optValid (fun d => validDirector (JS.trim d)) (b_director b)
  && optValid (fun c => validCast (map JS.trim c)) (b_cast b)
  && optValid validRating (b_rating b)
  && optValid validCount (b_votes b).

(** The body has a key [imdb] when it gives a rating or a number of
    votes (an [imdb] object without either is not represented). *)
Definition hasImdb (b : fields) : bool :=
  match b_rating b, b_votes b with
  | None, None => false
  | _, _ => true
  end.

(** [$set] of the keys of the body and of [updatedAt]. The object [imdb]
    is set as a whole: a key of it that the body does not give is dropped
    from the document. *)
Definition applyFields (e : env) (b : fields) (m : movie) : movie :=
  mkMovie (_id m)
    (match b_title b with Some t => JS.trim t | None => title m end)
    (orKeep (option_map JS.trim (b_plot b)) (plot m))
    (match b_genres b with Some g => map JS.trim g | None => genres m end)
    (orKeep (b_year b) (year m))
    (orKeep (b_runtime b) (runtime m))
    (orKeep (option_map JS.trim (b_director b)) (director m))
    (match b_cast b with Some c => map JS.trim c | None => cast m end)
    (if hasImdb b then b_rating b else imdb_rating m)
    (if hasImdb b then b_votes b else imdb_votes m)
    (favorites m) (viewCount m) (source m)
    (orElse (b_status b) (status m))
    (createdAt m) (now e).

(** [$set] of [status: 'deleted']; the key [deletedAt] of the update is no
    path of the schema and is dropped, and the [timestamps] option of the
    schema stamps [updatedAt]. *)
Definition markDeleted (e : env) (m : movie) : movie :=
  mkMovie (_id m) (title m) (plot m) (genres m) (year m) (runtime m)
    (director m) (cast m) (imdb_rating m) (imdb_votes m) (favorites m)
    (viewCount m) (source m) Deleted (createdAt m) (now e).

(** [Model.findByIdAndUpdate(id, update, {new: true})]: the document found
    by identifier is rewritten whatever its status, and the new version is
    returned; no hook of [save] runs. *)
Definition findByIdAndUpdate (db : collection) (id : nat)
    (update : movie -> movie) : collection * option movie :=
  match findById db id with
  | Some m => let m' := update m in (replaceDoc db m', Some m')
  | None => (db, None)
  end.

End Schema.

(* ================================================================== *)
(** * The controller *)
(* ================================================================== *)

Module Controller.

Import Model Schema.

(** ** Responses *)

Record pagination : Type := mkPagination {
  currentPage : JS.num;
  totalPages : JS.num;
  totalMovies : Z;
  hasNext : bool;
  hasPrev : bool;
  pageLimit : JS.num
}.

(** An entry of the suggestion list ([display], which repeats title and
    year as text, is left out). *)
Record suggestion : Type := mkSuggestion {
  s_id : nat;
  s_title : string;
  s_year : option Z;
  s_director : option string
}.

(** The [data] (or, for a failure, the [details]) of the envelope. The
    projections of [select] only drop fields and are not represented; the
    [metadata] of the listing carries no record and is left out. *)
Inductive payload : Type :=
| Listing : list movie -> pagination -> payload
| Detail : movie -> list movie -> payload
| Suggestions : list suggestion -> payload
| Trending : list movie -> Z -> payload
| Stored : movie -> payload
| DeletedSummary : nat -> string -> option Z -> payload
| Exported : bool -> list movie -> payload        (* [true] for CSV rows *)
| NotFound : nat -> payload
| Duplicate : option string -> option Z -> payload
| Failure : error -> payload.       (* the answer of the error middleware *)

Record response : Type := mkResponse {
  code : Z;
  body : payload
}.

(** A handler maps the collection and a request to the new collection and
    the response, unless an error reaches the error middleware. *)
Definition handler : Type := result (collection * response).

(** The status that [errorHandler] gives to an error: 400 for the names
    [ValidationError] and [CastError]; the two other errors have neither
    the code 11000 nor a [statusCode], and get the default 500. *)
Definition statusOf (e : error) : Z :=
  match e with
  | ValidationError | CastError => 400%Z
  | SyntaxError | StorageError => 500%Z
  end.

(** What the client receives: the response of the handler, or the answer
    of the error middleware, which carries no record. *)
Definition respond (h : handler) : response :=
  match h with
  | Ok (_, r) => r
  | Raise e => mkResponse (statusOf e) (Failure e)
  end.

(** ** Helpers shared by the handlers *)

Section ControllerHandlers.

Context {svc : Service}.

(** [new RegExp(pattern, 'i')] *)
Definition newRegExp (p : string) : result regexp :=
  match Regex.compile p with
  | Regex.Parsed r => Ok (Compiled r)
  | Regex.Malformed => Raise SyntaxError
  | Regex.Unmodelled => if accepts p then Ok (Source p) else Raise SyntaxError
  end.

(** A string in a template literal; [undefined] prints as its name. *)
Definition interpolate (o : option string) : string :=
  orElse o "undefined"%string.

(** [Math.ceil(total / limit)] for a positive limit. *)
Definition ceilDiv (total lim : Z) : Z := (- ((- total) / lim))%Z.

(** The cursor chain [find(q).sort(s).skip(k).limit(n)]. *)
Definition findPage (db : collection) (q : query) (sp : sort_spec)
    (sk : option JS.num) (lim : option JS.num) : result (list movie) :=
  l <- find db q ;;
  l1 <- match sk with Some k => skip k (sortBy sp l) | None => Ok (sortBy sp l) end ;;
  match lim with Some n => limit n l1 | None => Ok l1 end.

Definition withSearch (q : query) (s : string) : query :=
  mkQuery (q_status q) (Some s) (q_title q) (q_genres q) (q_year q)
    (q_rating q) (q_source q) (q_id_ne q) (q_updatedAt_gte q) (q_related q).

Definition withGenres (q : query) (p : pattern) : query :=
  mkQuery (q_status q) (q_search q) (q_title q) (Some p) (q_year q)
    (q_rating q) (q_source q) (q_id_ne q) (q_updatedAt_gte q) (q_related q).

Definition withYear (q : query) (c : year_cond) : query :=
  mkQuery (q_status q) (q_search q) (q_title q) (q_genres q) (Some c)
    (q_rating q) (q_source q) (q_id_ne q) (q_updatedAt_gte q) (q_related q).

Definition withRatingCond (q : query) (c : rating_cond) : query :=
  mkQuery (q_status q) (q_search q) (q_title q) (q_genres q) (q_year q)
    (Some c) (q_source q) (q_id_ne q) (q_updatedAt_gte q) (q_related q).

Definition withSource (q : query) (s : string) : query :=
  mkQuery (q_status q) (q_search q) (q_title q) (q_genres q) (q_year q)
    (q_rating q) (Some s) (q_id_ne q) (q_updatedAt_gte q) (q_related q).

(** ** [getAllMovies] *)

(** [req.query] of the listing; an absent parameter takes its default. *)
Record listParams : Type := mkListParams {
  p_page : option string;
  p_limit : option string;
  p_search : option string;
  p_genre : option string;
  p_year : option string;
  p_decade : option string;
  p_minRating : option string;
  p_maxRating : option string;
  p_sortBy : option string;
  p_source : option string
}.

Definition defaultParams : listParams :=
  mkListParams None None None None None None None None None None.

(** [Math.max(1, parseInt(page))] *)
Definition resolvePage (page : option string) : JS.num :=
  JS.max (JS.Int 1) (JS.parseInt (orElse page "1"%string)).

(** [Math.min(50, Math.max(1, parseInt(limit)))] *)
Definition resolveLimit (lim : option string) : JS.num :=
  JS.min (JS.Int 50) (JS.max (JS.Int 1) (JS.parseInt (orElse lim "12"%string))).

(** [(pageNum - 1) * limitNum] *)
Definition resolveSkip (pageNum limitNum : JS.num) : JS.num :=
  JS.mul (JS.sub pageNum (JS.Int 1)) limitNum.

(** The filter compiler: the query object is built key by key, in the order
    of the source, a later assignment replacing an earlier one. *)
Definition compileFilter (p : listParams) : result query :=
  let search := orElse (p_search p) EmptyString in
  let genre := orElse (p_genre p) EmptyString in
  let year := orElse (p_year p) EmptyString in
  let decade := orElse (p_decade p) EmptyString in
  let minRating := orElse (p_minRating p) EmptyString in
  let maxRating := orElse (p_maxRating p) EmptyString in
  let source := orElse (p_source p) EmptyString in
  let q0 := activeOnly in
  let q1 := if JS.truthy (JS.trim search) then withSearch q0 search else q0 in
  q2 <- (if JS.truthy genre
         then r <- newRegExp genre ;; Ok (withGenres q1 (RegExpObject r))
         else Ok q1) ;;
  let q3 := if JS.truthy year then withYear q2 (YearIs (JS.parseInt year)) else q2 in
  let q4 := if JS.truthy decade
            then let decadeStart := JS.parseInt decade in
                 let decadeEnd := JS.add decadeStart (JS.Int 9) in
                 withYear q3 (YearBetween decadeStart decadeEnd)
            else q3 in
  let q5 := if JS.truthy minRating || JS.truthy maxRating
            then withRatingCond q4
                   (mkRating
                      (if JS.truthy minRating then Some (JS.parseFloat minRating) else None)
                      (if JS.truthy maxRating then Some (JS.parseFloat maxRating) else None))
            else q4 in
  let q6 := if JS.truthy source then withSource q5 source else q5 in
  Ok q6.

Definition listSort (sortBy : string) : sort_spec :=
  if String.eqb sortBy "year" then [(ByYear, true); (ByTitle, false)]
  else if String.eqb sortBy "rating"
       then [(ByRating, true); (ByVotes, true); (ByTitle, false)]
  else if String.eqb sortBy "popularity"
       then [(ByViews, true); (ByFavorites, true); (ByTitle, false)]
  else if String.eqb sortBy "latest" then [(ByCreated, true)]
  else if String.eqb sortBy "runtime" then [(ByRuntime, true); (ByTitle, false)]
  else [(ByTitle, false)].

(** [Math.ceil(totalMovies / limitNum)]; the limit of a handler is at
    least 1, or [NaN]. *)
Definition pagesOf (total : Z) (limitNum : JS.num) : JS.num :=
  match limitNum with
  | JS.Int l => JS.Int (ceilDiv total l)
  | JS.NaN => JS.NaN
  end.

(** The pagination block. *)
Definition paginate (pageNum limitNum : JS.num) (total : Z) : pagination :=
  let pages := pagesOf total limitNum in
  mkPagination pageNum pages total (JS.lt pageNum pages)
    (JS.lt (JS.Int 1) pageNum) limitNum.

Definition getAllMovies (db : collection) (p : listParams) : handler :=
  let pageNum := resolvePage (p_page p) in
  let limitNum := resolveLimit (p_limit p) in
  let sk := resolveSkip pageNum limitNum in
  q <- compileFilter p ;;
  let sortOptions := listSort (orElse (p_sortBy p) "title"%string) in
  movies <- findPage db q sortOptions (Some sk) (Some limitNum) ;;
  total <- countDocuments db q ;;
  Ok (db, mkResponse 200 (Listing movies (paginate pageNum limitNum total))).

(** ** [getMovieById] *)

(** The values of [genres] and of [director] are cast as the paths are,
    through the setter [trim] of the schema. *)
Definition relatedQuery (id : nat) (m : movie) : query :=
  mkQuery (Some (StatusIs Active)) None None None None None None (Some id) None
    (Some (mkRelated (map JS.trim (genres m)) (option_map JS.trim (director m)))).

Definition getMovieById (e : env) (db : collection) (id : nat) : handler :=
  match findById db id with
  | None => Ok (db, mkResponse 404 (NotFound id))
  | Some movie =>
      if lifecycle_eqb (status movie) Deleted
      then Ok (db, mkResponse 404 (NotFound id))
      else
        let '(db1, movie1) := incrementView e db movie in
        relatedMovies <- findPage db (relatedQuery id movie) [] None (Some (JS.Int 6)) ;;
        Ok (db1, mkResponse 200 (Detail (toJSON movie1) relatedMovies))
  end.

(** ** [createMovie] *)

(** The key [year] is always there; its value is [undefined] when the body
    has no year. *)
Definition duplicateQuery (re : regexp) (y : option Z) (other : option nat)
  : query :=
  mkQuery (Some (StatusNot Deleted)) None (Some (RegExpObject re)) None
    (Some (match y with Some n => YearIs (JS.Int n) | None => YearAbsent end))
    None None other None None.

Definition anchored (t : string) : string := ("^" ++ t ++ "$")%string.

Definition createMovie (e : env) (db : collection) (b : fields) : handler :=
  re <- newRegExp (anchored (interpolate (b_title b))) ;;
  existingMovie <- findOne db (duplicateQuery re (b_year b) None) ;;
  match existingMovie with
  | Some _ => Ok (db, mkResponse 409 (Duplicate (b_title b) (b_year b)))
  | None =>
      saved <- save e db (newMovie db b "user") ;;
      let '(db1, savedMovie) := saved in
      Ok (db1, mkResponse 201 (Stored (toJSON savedMovie)))
  end.

(** ** [updateMovie] *)

Definition truthyTitle (b : fields) : bool :=
  match b_title b with Some t => JS.truthy t | None => false end.

Definition truthyYear (b : fields) : bool :=
  match b_year b with Some y => negb (y =? 0)%Z | None => false end.

(** [updateData.title || '.*'] *)
Definition titleOrAny (b : fields) : string :=
  if truthyTitle b then orElse (b_title b) EmptyString else ".*"%string.

Definition updateConflict (db : collection) (id : nat) (b : fields)
  : result (option movie) :=
  if truthyTitle b || truthyYear b
  then re <- newRegExp (anchored (titleOrAny b)) ;;
       findOne db (duplicateQuery re (b_year b) (Some id))
  else Ok None.

Definition updateMovie (e : env) (db : collection) (id : nat) (b : fields)
  : handler :=
  existingMovie <- updateConflict db id b ;;
  match existingMovie with
  | Some _ => Ok (db, mkResponse 409 (Duplicate (b_title b) (b_year b)))
  | None =>
      if validateUpdate e b then
        let '(db1, movie) := findByIdAndUpdate db id (applyFields e b) in
        match movie with
        | None => Ok (db1, mkResponse 404 (NotFound id))
        | Some m =>
            if lifecycle_eqb (status m) Deleted
            then Ok (db1, mkResponse 404 (NotFound id))
            else Ok (db1, mkResponse 200 (Stored (toJSON m)))
        end
      else Raise ValidationError
  end.

(** ** [deleteMovie] *)

Definition deleteMovie (e : env) (db : collection) (id : nat) : handler :=
  let '(db1, movie) := findByIdAndUpdate db id (markDeleted e) in
  match movie with
  | None => Ok (db1, mkResponse 404 (NotFound id))
  | Some m => Ok (db1, mkResponse 200 (DeletedSummary (_id m) (title m) (year m)))
  end.

(** ** [getSearchSuggestions] *)

Definition suggestionQuery (q : string) : query :=
  mkQuery (Some (StatusIs Active)) None (Some (SourceText q)) None None None
    None None None None.

Definition formatSuggestion (m : movie) : suggestion :=
  mkSuggestion (_id m) (title m) (year m) (director m).

Definition getSearchSuggestions (db : collection) (q : option string) : handler :=
  let qs := orElse q EmptyString in
  if negb (JS.truthy qs) || (String.length qs <? 2)%nat
  then Ok (db, mkResponse 200 (Suggestions []))
  else
    suggestions <- findPage db (suggestionQuery qs)
                     [(ByViews, true); (ByTitle, false)] None (Some (JS.Int 10)) ;;
    Ok (db, mkResponse 200 (Suggestions (map formatSuggestion suggestions))).

(** ** [getTrendingMovies] *)

Definition day : Z := (24 * 60 * 60 * 1000)%Z.

Definition trendingQuery (e : env) (period : string) : query :=
  mkQuery (Some (StatusIs Active)) None None None None None None None
    (if String.eqb period "day" then Some (now e - day)%Z
     else if String.eqb period "week" then Some (now e - 7 * day)%Z
     else if String.eqb period "month" then Some (now e - 30 * day)%Z
     else None)
    None.

Definition getTrendingMovies (e : env) (db : collection)
    (period lim : option string) : handler :=
  let period := orElse period "week"%string in
  trendingMovies <- findPage db (trendingQuery e period)
                      [(ByViews, true); (ByFavorites, true); (ByRating, true)]
                      None (Some (JS.parseInt (orElse lim "10"%string))) ;;
  Ok (db, mkResponse 200
            (Trending trendingMovies (Z.of_nat (List.length trendingMovies)))).

(** ** [getMoviesByGenre] *)

Definition genreSort (sortBy : string) : sort_spec :=
  if String.eqb sortBy "year" then [(ByYear, true); (ByTitle, false)]
  else if String.eqb sortBy "rating" then [(ByRating, true); (ByVotes, true)]
  else if String.eqb sortBy "popularity" then [(ByViews, true); (ByFavorites, true)]
  else if String.eqb sortBy "alphabetical" then [(ByTitle, false)]
  else [(ByRating, true); (ByVotes, true)].

Definition getMoviesByGenre (db : collection) (genre : string)
    (page lim sortBy : option string) : handler :=
  let pageNum := resolvePage page in
  let limitNum := resolveLimit lim in
  let sk := resolveSkip pageNum limitNum in
  let sortOptions := genreSort (orElse sortBy "rating"%string) in
  r <- newRegExp genre ;;
  let q := withGenres activeOnly (RegExpObject r) in
  movies <- findPage db q sortOptions (Some sk) (Some limitNum) ;;
  total <- countDocuments db q ;;
  Ok (db, mkResponse 200 (Listing movies (paginate pageNum limitNum total))).

(** ** [exportMovies] *)

Definition exportMovies (db : collection) (format includeDeleted : option string)
  : handler :=
  let q := if String.eqb (orElse includeDeleted "false"%string) "true"
           then emptyQuery else activeOnly in
  movies <- findPage db q [(ByTitle, false)] None None ;;
  Ok (db, mkResponse 200
            (Exported (String.eqb (orElse format "json"%string) "csv") movies)).

End ControllerHandlers.

(** The year of the request agrees with the record: the same year, or no
    year on either side. *)
Definition yearAgrees (y : option Z) (m : movie) : Prop := year m = y.

(** The predicate of the duplicate check. *)
Definition dupMatch (re : Regex.regex) (y : option Z) (other : option nat)
    (m : movie) : bool :=
  negb (lifecycle_eqb (status m) Deleted)
  && Regex.test true re (title m)
  && match y with
     | Some n => match year m with Some k => (k =? n)%Z | None => false end
     | None => match year m with Some _ => false | None => true end
     end
  && match other with
     | Some i => negb (Nat.eqb (_id m) i)
     | None => true
     end.



(** The records that a response carries. *)
Definition records (r : response) : list nat :=
  match body r with
  | Listing l _ => map _id l
  | Detail m rel => _id m :: map _id rel
  | Suggestions l => map s_id l
  | Trending l _ => map _id l
  | Stored m => [_id m]
  | Exported _ l => map _id l
  | DeletedSummary _ _ _ | NotFound _ | Duplicate _ _ | Failure _ => []
  end.

End Controller.

(* ================================================================== *)
(** * Sample data *)
(* ================================================================== *)

Module Samples.

Import Model Schema.

Local Open Scope string_scope.

Definition env0 : env := mkEnv 1700000000000 2030.

(** An environment that refuses whatever lies outside the fragment: both
    engines reject such a pattern, and the storage service rejects such an
    offset or length. *)
#[global] Instance strict : Service := {|
  accepts := fun _ => false;
  matches := fun _ => None;
  readsSkip := fun _ => None;
  readsLimit := fun _ => None
|}.

Definition jaws : movie :=
  mkMovie 1 "Jaws" (Some "A shark hunts swimmers.") ["Thriller"; "Adventure"]
    (Some 1975%Z) (Some 124%Z) (Some "Steven Spielberg")
    ["Roy Scheider"; "Robert Shaw"] (Some (7666 # 1000)) (Some 600000%Z)
    3 40 "user" Active 1600000000000 1600000000000.

(** A document that was soft-deleted earlier. *)
Definition gone : movie :=
  mkMovie 2 "Alien" (Some "A crew meets a stowaway.") ["Horror"; "Sci-Fi"]
    (Some 1979%Z) (Some 117%Z) (Some "Ridley Scott")
    ["Sigourney Weaver"] (Some (85 # 10)) (Some 900000%Z)
    5 90 "user" Deleted 1600000000000 1650000000000.

Definition heat : movie :=
  mkMovie 3 "Heat" None ["Crime"; "Thriller"] (Some 1995%Z) (Some 170%Z)
    (Some "Michael Mann") ["Al Pacino"; "Robert De Niro"] (Some (83 # 10))
    (Some 700000%Z) 8 120 "user" Active 1610000000000 1610000000000.

Definition db0 : collection := [jaws; gone; heat].

(** The listing of [db0] for a request without parameters. *)
Definition listing0 : Controller.response :=
  Controller.mkResponse 200
    (Controller.Listing [heat; jaws]
       (Controller.mkPagination (JS.Int 1) (JS.Int 1) 2 false false (JS.Int 12))).

(** The first scenario of the specification: a decade and a year. *)
Definition decadeAndYear : Controller.listParams :=
  Controller.mkListParams None None None None (Some "1985") (Some "1990")
    None None None None.

(** A request for page 3 of the listing with 500 items a page. *)
Definition bigPage : Controller.listParams :=
  Controller.mkListParams (Some "3") (Some "500") None None None None
    None None None None.

(** An update that only rewrites the plot. *)
Definition plotOnly : fields :=
  mkFields None (Some "Edited.") None None None None None None None None.

(** [db0] after that update reached the soft-deleted record. *)
Definition db0_edited : collection :=
  [jaws;
   mkMovie 2 "Alien" (Some "Edited.") ["Horror"; "Sci-Fi"]
     (Some 1979%Z) (Some 117%Z) (Some "Ridley Scott")
     ["Sigourney Weaver"] (Some (85 # 10)) (Some 900000%Z)
     5 90 "user" Deleted 1600000000000 1700000000000;
   heat].

(** [db0] after the soft-deleted record was deleted once more. *)
Definition db0_redeleted : collection :=
  [jaws;
   mkMovie 2 "Alien" (Some "A crew meets a stowaway.") ["Horror"; "Sci-Fi"]
     (Some 1979%Z) (Some 117%Z) (Some "Ridley Scott")
     ["Sigourney Weaver"] (Some (85 # 10)) (Some 900000%Z)
     5 90 "user" Deleted 1600000000000 1700000000000;
   heat].



(** A record whose title ends with a question mark. *)
Definition what : movie :=
  mkMovie 4 "What?" None ["Comedy"] (Some 1999%Z) (Some 90%Z) None []
    None None 0 0 "user" Active 1620000000000 1620000000000.

Definition dbWhat : collection := [jaws; what].

(** A create request with the title and the year of [what], and one with
    the title and the year of [jaws] in lower case. *)
Definition whatAgain : fields :=
  mkFields (Some "What?") None None (Some 1999%Z) None None None None None None.

Definition jawsAgain : fields :=
  mkFields (Some "jaws") (Some "Another plot.") None (Some 1975%Z) None
    (Some "someone else") None None None None.

(** A create request that no validator accepts: the year is too early. *)
Definition tooEarly : fields :=
  mkFields (Some "Old") None None (Some 1500%Z) None None None None None None.

(** Updates that carry a title alone or a year alone. *)
Definition titleWhat : fields :=
  mkFields (Some "What?") None None None None None None None None None.

Definition titleHeat : fields :=
  mkFields (Some "heat") None None None None None None None None None.

Definition year1995 : fields :=
  mkFields None None None (Some 1995%Z) None None None None None None.

Definition heat2000 : fields :=
  mkFields (Some "heat") None None (Some 2000%Z) None None None None None None.

(** A document about to be saved, with title and director in mixed case. *)
Definition godfather : movie :=
  mkMovie 5 "the GODFATHER" None ["Crime"; "Drama"] (Some 1972%Z) (Some 175%Z)
    (Some "francis ford COPPOLA") ["Marlon Brando"] (Some (92 # 10))
    (Some 1800000%Z) 0 0 "user" Active 0 0.

Definition godfatherSaved : movie :=
  mkMovie 5 "The Godfather" None ["Crime"; "Drama"] (Some 1972%Z) (Some 175%Z)
    (Some "Francis Ford Coppola") ["Marlon Brando"] (Some (92 # 10))
    (Some 1800000%Z) 0 0 "user" Active 1700000000000 1700000000000.

(** A record whose title runs over two lines. *)
Definition twoLines : movie :=
  mkMovie 6 ("Two" ++ String "010"%char "Lines") None ["Drama"] (Some 1995%Z)
    (Some 95%Z) None [] None None 0 0 "user" Active 1630000000000
    1630000000000.

Definition dbLines : collection := [jaws; twoLines].


(** A record that has the title of [heat] and no year. *)
Definition announced : movie :=
  mkMovie 7 "Heat" None ["Crime"] None None None [] None None 0 0 "user"
    Active 1640000000000 1640000000000.

Definition dbAnnounced : collection := [jaws; heat; announced].

(** [db0] after its first record was renamed to the title of the third. *)
Definition db0_renamed : collection :=
  [mkMovie 1 "heat" (Some "A shark hunts swimmers.") ["Thriller"; "Adventure"]
     (Some 1975%Z) (Some 124%Z) (Some "Steven Spielberg")
     ["Roy Scheider"; "Robert Shaw"] (Some (7666 # 1000)) (Some 600000%Z)
     3 40 "user" Active 1600000000000 1700000000000;
   gone; heat].





(** A search for the name of an actor, followed by a space. *)
Definition searchPacino : Controller.listParams :=
  Controller.mkListParams None None (Some "pacino ") None None None
    None None None None.

End Samples.

(* ================================================================== *)
(** * Favourites *)
(* ================================================================== *)

Module Engagement.

Import Model Schema Controller.

Definition withFavorites (m : movie) (f : Z) : movie :=
  mkMovie (_id m) (title m) (plot m) (genres m) (year m) (runtime m)
    (director m) (cast m) (imdb_rating m) (imdb_votes m) f (viewCount m)
    (source m) (status m) (createdAt m) (updatedAt m).

(** [this.save()] after the counter was set to [f]: the document is
    modified when [f] is not the value that it had. *)
Definition saveFavorites (e : env) (db : collection) (m : movie) (f : Z)
  : result (collection * movie) :=
  saveLoaded e db (negb (f =? favorites m)%Z) (withFavorites m f).

(** [this.favorites = (this.favorites || 0) + 1; return this.save()] *)
Definition addToFavoritesMethod (e : env) (db : collection) (m : movie)
  : result (collection * movie) :=
  saveFavorites e db m (favorites m + 1)%Z.

(** [this.favorites = Math.max((this.favorites || 0) - 1, 0);
    return this.save()] *)
Definition removeFromFavoritesMethod (e : env) (db : collection) (m : movie)
  : result (collection * movie) :=
  saveFavorites e db m (Z.max (favorites m - 1) 0).

(** The [data] of the two favourite handlers, or the [details] of their
    failure. *)
Inductive engagement : Type :=
| FavoriteCount : nat -> Z -> engagement      (* [{movieId, favorites}] *)
| NoSuchMovie : nat -> engagement.

Record reply : Type := mkReply {
  replyCode : Z;
  replyBody : engagement
}.

Definition favoriteHandler
    (method : env -> collection -> movie -> result (collection * movie))
    (e : env) (db : collection) (id : nat) : result (collection * reply) :=
  match findById db id with
  | None => Ok (db, mkReply 404 (NoSuchMovie id))
  | Some movie =>
      if lifecycle_eqb (status movie) Deleted
      then Ok (db, mkReply 404 (NoSuchMovie id))
      else
        saved <- method e db movie ;;
        let '(db1, movie1) := saved in
        Ok (db1, mkReply 200 (FavoriteCount id (favorites movie1)))
  end.

Definition addToFavorites : env -> collection -> nat -> result (collection * reply) :=
  favoriteHandler addToFavoritesMethod.

Definition removeFromFavorites : env -> collection -> nat -> result (collection * reply) :=
  favoriteHandler removeFromFavoritesMethod.

End Engagement.

(* ================================================================== *)
(** * Bulk import *)
(* ================================================================== *)

Module BulkImport.

Import Model Schema Controller.

(** [results] of the import; an entry of [errorDetails] holds the title of
    the candidate and the error that was caught. *)
Record results : Type := mkResults {
  imported : Z;
  skipped : Z;
  errors : Z;
  errorDetails : list (option string * error)
}.

Inductive import_body : Type :=
| Completed : results -> import_body
| InvalidData : import_body         (* neither the sample source nor an array *)
| NoData : import_body.             (* the import data is empty *)

Record import_reply : Type := mkImportReply {
  importCode : Z;
  importBody : import_body
}.

Definition withStatusField (b : fields) (s : lifecycle) : fields :=
  mkFields (b_title b) (b_plot b) (b_genres b) (b_year b) (b_runtime b)
    (b_director b) (b_cast b) (b_rating b) (b_votes b) (Some s).

Definition withSourceTag (m : movie) (src : string) : movie :=
  mkMovie (_id m) (title m) (plot m) (genres m) (year m) (runtime m)
    (director m) (cast m) (imdb_rating m) (imdb_votes m) (favorites m)
    (viewCount m) src (status m) (createdAt m) (updatedAt m).

Section ImportLoop.

Context {svc : Service}.

(** The body of the [try] block for one candidate: [None] when the candidate
    is skipped, the new collection when it is imported. Of a candidate the
    model follows the keys of [fields]. *)
Definition tryImport (e : env) (db : collection) (src : string)
    (overwrite : bool) (movieData : fields) : result (option collection) :=
  re <- newRegExp (anchored (interpolate (b_title movieData))) ;;
  existingMovie <- findOne db (duplicateQuery re (b_year movieData) None) ;;
  match existingMovie with
  | Some existing =>
      if overwrite
      then
        (* [findByIdAndUpdate(existing._id, {...movieData, source, updatedAt})],
           without validators *)
        Ok (Some (fst (findByIdAndUpdate db (_id existing)
                         (fun m => withSourceTag (applyFields e movieData m) src))))
      else Ok None
  | None =>
      saved <- save e db (newMovie db (withStatusField movieData Active) src) ;;
      Ok (Some (fst saved))
  end.

Definition bump (r : results) (di ds de : Z)
    (detail : list (option string * error)) : results :=
  mkResults (imported r + di)%Z (skipped r + ds)%Z (errors r + de)%Z
    (errorDetails r ++ detail).

(** One round of the loop: the [catch] block counts the error of the
    candidate, whatever it is, and the loop goes on. *)
Definition importOne (e : env) (src : string) (overwrite : bool)
    (acc : collection * results) (movieData : fields)
  : result (collection * results) :=
  let '(db, r) := acc in
  match tryImport e db src overwrite movieData with
  | Ok None => Ok (db, bump r 0 1 0 [])
  | Ok (Some db1) => Ok (db1, bump r 1 0 0 [])
  | Raise err => Ok (db, bump r 0 0 1 [(b_title movieData, err)])
  end.

Fixpoint importAll (e : env) (src : string) (overwrite : bool)
    (acc : collection * results) (data : list fields)
  : result (collection * results) :=
  match data with
  | [] => Ok acc
  | movieData :: rest =>
      acc1 <- importOne e src overwrite acc movieData ;;
      importAll e src overwrite acc1 rest
  end.

Definition noResults : results := mkResults 0 0 0 [].

(** [source] and [overwrite] default to ['sample'] and [false]; [movies] is
    the array of the body when there is one, and [sampleData] is what
    [SampleMovie.find({})] returns. *)
Definition bulkImportMovies (e : env) (db : collection)
    (source : option string) (overwrite : bool)
    (movies : option (list fields)) (sampleData : list fields)
  : result (collection * import_reply) :=
  let src := orElse source "sample"%string in
  let importData :=
    if String.eqb src "sample" then Some sampleData else movies in
  match importData with
  | None => Ok (db, mkImportReply 400 InvalidData)
  | Some [] => Ok (db, mkImportReply 400 NoData)
  | Some data =>
      done <- importAll e src overwrite (db, noResults) data ;;
      let '(db1, r) := done in
      Ok (db1, mkImportReply 200 (Completed r))
  end.

End ImportLoop.

(** The candidates that were counted, and the results whose counters are
    not negative and count the error details. *)
Definition tally (r : results) : Z := (imported r + skipped r + errors r)%Z.

Definition wellCounted (r : results) : Prop :=
  (0 <= imported r)%Z /\ (0 <= skipped r)%Z /\ (0 <= errors r)%Z /\
  Z.of_nat (List.length (errorDetails r)) = errors r.

(** The import data of a request. *)
Definition importData (source : option string) (movies : option (list fields))
    (sampleData : list fields) : option (list fields) :=
  if String.eqb (orElse source "sample"%string) "sample"
  then Some sampleData else movies.

End BulkImport.

(* ================================================================== *)
(** * The CSV rows of the export *)
(* ================================================================== *)

Module Csv.

Definition quote : ascii := "034"%char.

(** The global [replace] of the callback: every double quote is doubled. *)
Fixpoint doubleQuotes (s : string) : string :=
  match s with
  | EmptyString => EmptyString
  | String c r =>
      if Ascii.eqb c quote then String quote (String quote (doubleQuotes r))
      else String c (doubleQuotes r)
  end.

(** The callback of [row.map], applied to [String(field)]. *)
Definition quoteField (s : string) : string :=
  String quote (doubleQuotes s ++ String quote EmptyString).

(** [array.join(sep)] *)
Fixpoint join (sep : string) (l : list string) : string :=
  match l with
  | [] => EmptyString
  | [x] => x
  | x :: r => (x ++ sep ++ join sep r)%string
  end.

(** [row.map(quoteField).join(',')] *)
Definition csvRow (row : list string) : string :=
  join "," (map quoteField row).

(** What follows the first field of a row: nothing, or a comma and the
    other fields. *)
Definition rowTail (rest : list string) : string :=
  match rest with
  | [] => EmptyString
  | _ :: _ => ("," ++ csvRow rest)%string
  end.

Definition endsField (t : string) : Prop :=
  t = EmptyString \/ exists r, t = String ","%char r.

End Csv.

(* ================================================================== *)
(** * The error middleware *)
(* ================================================================== *)

Module ErrorMiddleware.

(** The properties of a thrown value that [errorHandler] reads. *)
Record js_error : Type := mkJsError {
  err_name : string;
  err_message : string;
  err_code : option Z;
  err_statusCode : option Z;
  err_errors : list (string * string)       (* [path] and [message] *)
}.

Inductive error_body : Type :=
| ValidationBody : list (string * string) -> error_body  (* [errors] *)
| MessageBody : string -> error_body.                     (* [message] *)

Definition truthyNumber (o : option Z) : bool :=
  match o with Some z => negb (z =? 0)%Z | None => false end.

Definition errorHandler (err : js_error) : Z * error_body :=
  if String.eqb (err_name err) "ValidationError"
  then (400%Z, ValidationBody (err_errors err))
  else if String.eqb (err_name err) "CastError"
  then (400%Z, MessageBody "Invalid ID format")
  else if match err_code err with Some c => (c =? 11000)%Z | None => false end
  then (409%Z, MessageBody "Duplicate resource")
  else (if truthyNumber (err_statusCode err)
        then Schema.orElse (err_statusCode err) 500%Z else 500%Z,
        MessageBody (if JS.truthy (err_message err) then err_message err
                     else "Internal Server Error")).

(** [createError(message, statusCode = 500)] *)
Definition createError (message : string) (statusCode : option Z) : js_error :=
  mkJsError "Error" message None (Some (Schema.orElse statusCode 500%Z)) [].

End ErrorMiddleware.

(* ================================================================== *)
(** * Vocabulary of further statements *)
(* ================================================================== *)

Module Pages.

Import Model Controller.

(** A record has a genre of a given one, or its director, or has no
    director as the given one has none. The genres and the director of the
    given record are compared after [trim]. *)
Definition relatedTo (m y : movie) : Prop :=
  (exists g, In g (genres y) /\ In g (map JS.trim (genres m)))
  \/ (director m = None /\ director y = None)
  \/ (exists d, director m = Some d /\ director y = Some (JS.trim d)).

End Pages.

(* ================================================================== *)
(** * The decade distribution of the statistics *)
(* ================================================================== *)

Module Stats.

Import Model Schema.

Local Open Scope Z_scope.

(** A group of the [$group] stage: [_id], [count], and the accumulator of
    [$avg], which is the sum and the number of the ratings present. *)
Record group : Type := mkGroup {
  g_id : Z;
  g_count : Z;
  g_sum : Q;
  g_rated : Z
}.

(** [{$subtract: ['$year', {$mod: ['$year', 10]}]}] *)
Definition decadeOf (y : Z) : Z := y - Z.rem y 10.

Definition accumulate (g : group) (r : option Q) : group :=
  mkGroup (g_id g) (g_count g + 1)
    (match r with Some q => Qplus (g_sum g) q | None => g_sum g end)
    (match r with Some _ => g_rated g + 1 | None => g_rated g end).

Fixpoint addToGroups (k : Z) (r : option Q) (gs : list group) : list group :=
  match gs with
  | [] => [accumulate (mkGroup k 0 0 0) r]
  | g :: rest =>
      if g_id g =? k then accumulate g r :: rest
      else g :: addToGroups k r rest
  end.

Definition groupByDecade (docs : list movie) : list group :=
  fold_right
    (fun m gs =>
       match year m with
       | Some y => addToGroups (decadeOf y) (imdb_rating m) gs
       | None => gs
       end)
    [] docs.

(** [{$sort: {_id: -1}}] *)
Fixpoint insertGroup (g : group) (l : list group) : list group :=
  match l with
  | [] => [g]
  | h :: t => if g_id h <? g_id g then g :: l else h :: insertGroup g t
  end.

Definition sortGroups (l : list group) : list group :=
  fold_right insertGroup [] l.

(** [{$match: {status: 'active', year: {$exists: true}}}] *)
Definition matched (m : movie) : bool :=
  lifecycle_eqb (status m) Active &&
  match year m with Some _ => true | None => false end.

(** The aggregation pipeline of the years, limited to ten groups. *)
Definition yearStats (db : collection) : list group :=
  firstn 10 (sortGroups (groupByDecade (filter matched db))).

(** [$avg] is [null] when no rating was present. *)
Definition average (g : group) : option Q :=
  if g_rated g =? 0 then None
  else Some (Qdiv (g_sum g) (inject_Z (g_rated g))).

(** An item of [yearDistribution]; [decade] is printed with the suffix
    [s]. *)
Record decadeEntry : Type := mkDecadeEntry {
  decade : Z;
  count : Z;
  averageRating : Q
}.

(** [Math.round((item.averageRating || 0) * 10) / 10] *)
Definition yearDistribution (db : collection) : list decadeEntry :=
  map (fun item =>
         mkDecadeEntry (g_id item) (g_count item)
           (roundRating (orElse (average item) 0%Q)))
    (yearStats db).

(** The count of the group of a key, zero when there is none. *)
Definition countFor (k : Z) (gs : list group) : Z :=
  match List.find (fun g => g_id g =? k) gs with
  | Some g => g_count g
  | None => 0
  end.

(** The record is active and its year falls in the decade. *)
Definition inDecade (d : Z) (m : movie) : bool :=
  lifecycle_eqb (status m) Active &&
  match year m with Some y => decadeOf y =? d | None => false end.

End Stats.

(* ================================================================== *)
(** * The search of the model *)
(* ================================================================== *)

Module Statics.

Import Model Schema Controller.

(** The [options] of [searchMovies]; an absent key takes its default. *)
Record searchOptions : Type := mkSearchOptions {
  o_page : option Z;
  o_limit : option Z;
  o_sortBy : option string;
  o_genre : option string;
  o_year : option string;
  o_minRating : option string;
  o_maxRating : option string;
  o_decade : option string
}.

(** The query object of the model, whose text group has no genre entry:
    the text is the pattern of [title], [plot] and [director] as source
    text, and the pattern of [cast] as a [RegExp] object. *)
Record modelQuery : Type := mkModelQuery {
  mq_base : query;
  mq_text : option (string * regexp)
}.

(** The [$or] group of the model: title, plot, director or some cast
    entry. The first matcher is for the three strings, the second one for
    the cast. *)
Definition evalText (rr : matcher * matcher) (m : movie) : bool :=
  fst rr (title m) || testOpt (fst rr) (plot m) || testOpt (fst rr) (director m)
  || existsb (snd rr) (cast m).

Section StaticSearch.

Context {svc : Service}.

Definition prepareText (t : string * regexp) : result (matcher * matcher) :=
  r <- prepareSource (fst t) ;;
  r' <- prepare (RegExpObject (snd t)) ;;
  Ok (r, r').

Definition searchQuery (text : option string) (o : searchOptions)
  : result modelQuery :=
  let query := orElse text EmptyString in
  let genre := orElse (o_genre o) EmptyString in
  let year := orElse (o_year o) EmptyString in
  let decade := orElse (o_decade o) EmptyString in
  let minRating := orElse (o_minRating o) EmptyString in
  let maxRating := orElse (o_maxRating o) EmptyString in
  let q0 := activeOnly in
  txt <- (if JS.truthy query
          then r <- newRegExp query ;; Ok (Some (query, r)) else Ok None) ;;
  q1 <- (if JS.truthy genre
         then r <- newRegExp genre ;; Ok (withGenres q0 (RegExpObject r))
         else Ok q0) ;;
  let q2 := if JS.truthy year then withYear q1 (YearIs (JS.parseInt year)) else q1 in
  let q3 := if JS.truthy decade
            then let decadeStart := JS.parseInt decade in
                 let decadeEnd := JS.add decadeStart (JS.Int 9) in
                 withYear q2 (YearBetween decadeStart decadeEnd)
            else q2 in
  let q4 := if JS.truthy minRating || JS.truthy maxRating
            then withRatingCond q3
                   (mkRating
                      (if JS.truthy minRating then Some (JS.parseFloat minRating) else None)
                      (if JS.truthy maxRating then Some (JS.parseFloat maxRating) else None))
            else q3 in
  Ok (mkModelQuery q4 txt).

Definition modelSort (sortBy : string) : sort_spec :=
  if String.eqb sortBy "year" then [(ByYear, true)]
  else if String.eqb sortBy "rating" then [(ByRating, true)]
  else if String.eqb sortBy "popularity" then [(ByViews, true); (ByFavorites, true)]
  else if String.eqb sortBy "latest" then [(ByCreated, true)]
  else if String.eqb sortBy "runtime" then [(ByRuntime, true)]
  else [(ByTitle, false)].

Definition selects (f : movie -> bool) (tx : option (matcher * matcher))
    (m : movie) : bool :=
  f m && optCond tx (fun rr => evalText rr m).

(** [Movie.searchMovies(query, options)] with numeric [page] and [limit]:
    the page and the limit are used as they come. *)
Definition searchMovies (db : collection) (text : option string)
    (o : searchOptions) : result (list movie) :=
  let page := orElse (o_page o) 1%Z in
  let lim := orElse (o_limit o) 12%Z in
  let sk := ((page - 1) * lim)%Z in
  mq <- searchQuery text o ;;
  f <- evalQuery (mq_base mq) ;;
  tx <- optPrepare (mq_text mq) prepareText ;;
  l1 <- skip (JS.Int sk)
          (sortBy (modelSort (orElse (o_sortBy o) "title"%string))
             (filter (selects f tx) db)) ;;
  limit (JS.Int lim) l1.

End StaticSearch.

(** The request of the listing with the parameters of a model search. *)
Definition asListParams (text : option string) (o : searchOptions) : listParams :=
  mkListParams None None text (o_genre o) (o_year o) (o_decade o)
    (o_minRating o) (o_maxRating o) (o_sortBy o) None.

End Statics.

(* ================================================================== *)
(** * Further sample requests *)
(* ================================================================== *)

Module Fixtures.

Import Model Schema Controller.

Local Open Scope string_scope.

(** A create request for a film that [Samples.db0] does not have. *)
Definition ran : fields :=
  mkFields (Some "Ran") None (Some ["Drama"]) (Some 1985%Z) (Some 162%Z)
    (Some "Akira Kurosawa") None None None None.

(** The collection and the answer of a handler that returned. *)
Definition outcome (h : handler) : collection * response :=
  match h with
  | Ok x => x
  | Raise e => ([], mkResponse (statusOf e) (Failure e))
  end.

(** [Samples.db0] after that creation, and the answer. *)
Definition ranCreated : collection * response :=
  outcome (createMovie Samples.env0 Samples.db0 ran).

(** An update that only sets the status. *)
Definition reactivate : fields :=
  mkFields None None None None None None None None None (Some Active).

(** A batch with a new film, a film whose year no validator accepts, and a
    film that is stored already. *)
Definition batch : list fields := [ran; Samples.tooEarly; Samples.jawsAgain].

(** The collection and the counters of an import that completed. *)
Definition completed (x : result (collection * BulkImport.import_reply))
  : collection * BulkImport.results :=
  match x with
  | Ok (db, BulkImport.mkImportReply _ (BulkImport.Completed r)) => (db, r)
  | _ => ([], BulkImport.noResults)
  end.

Definition batchImported : collection * BulkImport.results :=
  completed (BulkImport.bulkImportMovies Samples.env0 Samples.db0
               (Some "user") false (Some batch) []).

(** A row whose fields hold a comma, a quote and nothing. *)
Definition row : list string := ["a,b"; String Csv.quote "q"; ""].

(** A search of the model without options. *)
Definition noOptions : Statics.searchOptions :=
  Statics.mkSearchOptions None None None None None None None None.

(** The entry of the nineties in the statistics of [Samples.db0]. *)
Definition nineties : Stats.decadeEntry :=
  Stats.mkDecadeEntry 1990 1 (83 # 10).

End Fixtures.

(* ================================================================== *)
(** * Sanity checks of the primitives *)
(* ================================================================== *)

Example parseInt_plain : JS.parseInt "500" = JS.Int 500.
Proof. reflexivity. Qed.

Example parseInt_junk : JS.parseInt "abc" = JS.NaN.
Proof. reflexivity. Qed.

Example parseInt_prefix : JS.parseInt "  -12px" = JS.Int (-12).
Proof. reflexivity. Qed.

Example parseInt_hex : JS.parseInt "0x1F" = JS.Int 31.
Proof. reflexivity. Qed.

Example trim_both : JS.trim "  a b  " = "a b"%string.
Proof. reflexivity. Qed.

Example compile_open_paren : Regex.compile "(" = Regex.Malformed.
Proof. reflexivity. Qed.

Example compile_lone_star : Regex.compile "*" = Regex.Malformed.
Proof. reflexivity. Qed.

Example compile_class : Regex.compile "[ab]" = Regex.Unmodelled.
Proof. reflexivity. Qed.

Example test_dot :
  match Regex.compile "a.c" with
  | Regex.Parsed r => Regex.test true r "xxABCxx"
  | _ => false
  end = true.
Proof. reflexivity. Qed.

Example test_anchored :
  match Regex.compile "^the (god|grand)father+$" with
  | Regex.Parsed r =>
      Regex.test true r "The GodFatherrr" && negb (Regex.test true r "The GodFathe")
      && negb (Regex.test true r "xThe Godfather")
  | _ => false
  end = true.
Proof. reflexivity. Qed.

Example test_star_empty :
  match Regex.compile "^(a*)*b$" with
  | Regex.Parsed r => Regex.test true r "aaab" && negb (Regex.test true r "aaac")
  | _ => false
  end = true.
Proof. reflexivity. Qed.

Example capitalize_godfather :
  Schema.capitalize "the GODFATHER" = "The Godfather"%string.
Proof. reflexivity. Qed.

Example roundRating_7666 : Schema.roundRating (7666 # 1000) = (77 # 10).
Proof. reflexivity. Qed.

(** A year that is no number is refused when the filter is cast, and the
    error middleware answers 400. *)
Example listing_year_not_a_number :
  Controller.respond
    (Controller.getAllMovies Samples.db0
       (Controller.mkListParams None None None None (Some "abc"%string) None
          None None None None))
  = Controller.mkResponse 400 (Controller.Failure CastError).
Proof. reflexivity. Qed.

(** The pattern for the cast entries is trimmed: a search word with a
    space after it finds the record by a name that ends its cast entry. *)
Example search_trailing_space :
  Controller.records
    (Controller.respond (Controller.getAllMovies Samples.db0 Samples.searchPacino))
  = [3%nat].
Proof. reflexivity. Qed.

(** An update to a title alone asks for records without a year. *)
Example update_title_alone :
  Controller.updateConflict Samples.db0 1 Samples.titleHeat = Ok None /\
  Controller.updateConflict Samples.dbAnnounced 1 Samples.titleHeat
  = Ok (Some Samples.announced).
Proof. split; reflexivity. Qed.

Lemma bind_Ok {A B : Type} (c : result A) (f : A -> result B) (b : B) :
  bind c f = Ok b -> exists a, c = Ok a /\ f a = Ok b.
Proof.
  destruct c as [a|e]; simpl; [|discriminate]. intros H. exists a; auto.
Qed.

(* ================================================================== *)
(** * Properties of the collection operations *)
(* ================================================================== *)

Section CollectionFacts.

Import Model.

Context {svc : Service}.

Lemma insertSorted_In (sp : sort_spec) (x y : movie) (l : list movie) :
  In y (insertSorted sp x l) <-> y = x \/ In y l.
Proof.
  induction l as [|z r IH]; simpl.
  - intuition auto.
  - destruct (compareSpec sp x z); simpl; rewrite ?IH; intuition auto.
Qed.

Lemma sortBy_In (sp : sort_spec) (y : movie) (l : list movie) :
  In y (sortBy sp l) <-> In y l.
Proof.
  induction l as [|x r IH]; simpl.
  - tauto.
  - rewrite insertSorted_In, IH. intuition auto.
Qed.

Lemma insertSorted_length (sp : sort_spec) (x : movie) (l : list movie) :
  List.length (insertSorted sp x l) = S (List.length l).
Proof.
  induction l as [|z r IH]; simpl; auto.
  destruct (compareSpec sp x z); simpl; auto.
Qed.

Lemma sortBy_length (sp : sort_spec) (l : list movie) :
  List.length (sortBy sp l) = List.length l.
Proof.
  induction l as [|x r IH]; simpl; auto.
  rewrite insertSorted_length; auto.
Qed.



Lemma skipn_In {A : Type} (k : nat) (l : list A) (y : A) :
  In y (skipn k l) -> In y l.
Proof.
  revert l. induction k as [|k IH]; intros l; simpl; auto.
  destruct l; simpl; auto.
Qed.

Lemma firstn_In {A : Type} (k : nat) (l : list A) (y : A) :
  In y (firstn k l) -> In y l.
Proof.
  revert l. induction k as [|k IH]; intros l; simpl; [tauto|].
  destruct l; simpl; auto. intros [->|H]; auto.
Qed.

Lemma skip_In (n : JS.num) (l l' : list movie) (y : movie) :
  skip n l = Ok l' -> In y l' -> In y l.
Proof.
  unfold skip. destruct (small n) as [z|].
  - destruct (0 <=? z)%Z; try discriminate.
    intros H; injection H as <-. apply skipn_In.
  - destruct (readsSkip n) as [k|]; try discriminate.
    intros H; injection H as <-. apply skipn_In.
Qed.

Lemma limit_In (n : JS.num) (l l' : list movie) (y : movie) :
  limit n l = Ok l' -> In y l' -> In y l.
Proof.
  unfold limit. destruct (small n) as [z|].
  - intros H; injection H as <-.
    destruct (z =? 0)%Z; auto. apply firstn_In.
  - destruct (readsLimit n) as [k|]; try discriminate.
    intros H; injection H as <-.
    destruct (k =? 0)%nat; auto. apply firstn_In.
Qed.

Lemma small_Int (z : Z) :
  (Z.abs z <= int32Max)%Z -> small (JS.Int z) = Some z.
Proof.
  intros H. unfold small.
  destruct (Z.abs z <=? int32Max)%Z eqn:E; [reflexivity|].
  apply Z.leb_gt in E. lia.
Qed.

(** A length that is a positive 32-bit integer bounds the result. *)
Lemma limit_Int (z : Z) (l : list movie) :
  (1 <= z <= int32Max)%Z -> limit (JS.Int z) l = Ok (firstn (Z.to_nat z) l).
Proof.
  intros Hz. unfold limit. rewrite small_Int by lia.
  destruct (z =? 0)%Z eqn:E; [apply Z.eqb_eq in E; lia|].
  rewrite Zabs2Nat.abs_nat_nonneg by lia. reflexivity.
Qed.

(** An offset that is a 32-bit integer and not negative is taken as it
    is. *)
Lemma skip_Int (z : Z) (l : list movie) :
  (0 <= z <= int32Max)%Z -> skip (JS.Int z) l = Ok (skipn (Z.to_nat z) l).
Proof.
  intros Hz. unfold skip. rewrite small_Int by lia.
  destruct (0 <=? z)%Z eqn:E; [reflexivity|]. apply Z.leb_gt in E. lia.
Qed.


Lemma find_In (db : collection) (q : query) (l : list movie) (y : movie) :
  find db q = Ok l -> In y l ->
  In y db /\ exists f, evalQuery q = Ok f /\ f y = true.
Proof.
  unfold find. destruct (evalQuery q) as [f|e] eqn:E; simpl; try discriminate.
  intros H; injection H as <-. rewrite filter_In.
  intros [H1 H2]; split; auto. exists f; auto.
Qed.

Lemma findPage_In (db : collection) (q : query) (sp : sort_spec)
    (sk lim : option JS.num) (l : list movie) (y : movie) :
  Controller.findPage db q sp sk lim = Ok l -> In y l ->
  In y db /\ exists f, evalQuery q = Ok f /\ f y = true.
Proof.
  unfold Controller.findPage.
  destruct (find db q) as [l0|e] eqn:E; simpl; try discriminate.
  intros H Hy. apply (find_In db q l0 y E).
  apply (sortBy_In sp).
  destruct sk as [k|]; simpl in H.
  - destruct (skip k (sortBy sp l0)) as [l1|e] eqn:E1; simpl in H; try discriminate.
    apply (skip_In _ _ _ _ E1).
    destruct lim as [n|]; [apply (limit_In _ _ _ _ H Hy)|injection H as <-; auto].
  - destruct lim as [n|]; [apply (limit_In _ _ _ _ H Hy)|injection H as <-; auto].
Qed.

(** What a query evaluates to, once it is cast and its patterns are
    prepared. *)
Lemma evalQuery_inv (q : query) (f : movie -> bool) :
  evalQuery q = Ok f ->
  casts q = true /\
  exists rs rt rg,
    optPrepare (q_search q) prepareSearch = Ok rs /\
    optPrepare (q_title q) prepare = Ok rt /\
    optPrepare (q_genres q) prepare = Ok rg /\
    forall m,
      f m = optCond (q_status q) (fun c => evalStatus c m)
            && optCond rs (fun rr => evalSearch rr m)
            && optCond rt (fun r => r (title m))
            && optCond rg (fun r => existsb r (genres m))
            && optCond (q_year q) (fun c => evalYear c m)
            && optCond (q_rating q) (fun c => evalRating c m)
            && optCond (q_source q) (fun s => String.eqb (source m) s)
            && optCond (q_id_ne q) (fun i => negb (Nat.eqb (_id m) i))
            && optCond (q_updatedAt_gte q) (fun t => (t <=? updatedAt m)%Z)
            && optCond (q_related q) (fun c => evalRelated c m).
Proof.
  unfold evalQuery. destruct (casts q); [|discriminate]. intros H.
  split; [reflexivity|].
  apply bind_Ok in H. destruct H as [rs [H1 H]].
  apply bind_Ok in H. destruct H as [rt [H2 H]].
  apply bind_Ok in H. destruct H as [rg [H3 H]].
  injection H as <-. exists rs, rt, rg. auto.
Qed.

(** A query that carries [status: 'active'] only selects active documents. *)
Lemma evalQuery_active (q : query) (f : movie -> bool) (m : movie) :
  q_status q = Some (StatusIs Active) -> evalQuery q = Ok f -> f m = true ->
  status m = Active.
Proof.
  intros Hs Hf Hm. apply evalQuery_inv in Hf.
  destruct Hf as [_ [rs [rt [rg [_ [_ [_ H]]]]]]]. rewrite H, Hs in Hm.
  rewrite !andb_true_iff in Hm. repeat (apply proj1 in Hm).
  cbn [optCond evalStatus] in Hm.
  destruct (status m); simpl in Hm; congruence.
Qed.

(** A query without a pattern and without a number is accepted. *)
Lemma evalQuery_plain (q : query) :
  q_search q = None -> q_title q = None -> q_genres q = None ->
  casts q = true ->
  exists f, evalQuery q = Ok f /\
    forall m,
      f m = optCond (q_status q) (fun c => evalStatus c m)
            && optCond (q_year q) (fun c => evalYear c m)
            && optCond (q_rating q) (fun c => evalRating c m)
            && optCond (q_source q) (fun s => String.eqb (source m) s)
            && optCond (q_id_ne q) (fun i => negb (Nat.eqb (_id m) i))
            && optCond (q_updatedAt_gte q) (fun t => (t <=? updatedAt m)%Z)
            && optCond (q_related q) (fun c => evalRelated c m).
Proof.
  intros H1 H2 H3 Hc. unfold evalQuery. rewrite Hc, H1, H2, H3.
  cbn [optPrepare bind]. eexists. split; [reflexivity|].
  intros m. cbn [optCond]. rewrite !andb_true_r. reflexivity.
Qed.

Lemma findById_Some (db : collection) (id : nat) (m : movie) :
  findById db id = Some m -> In m db /\ _id m = id.
Proof.
  unfold findById. intros H. apply find_some in H.
  destruct H as [H1 H2]. apply Nat.eqb_eq in H2. auto.
Qed.

Lemma uniqueIds_eq (db : collection) (a b : movie) :
  uniqueIds db -> In a db -> In b db -> _id a = _id b -> a = b.
Proof.
  unfold uniqueIds. induction db as [|x r IH]; simpl; [tauto|].
  intros Hn Ha Hb E. inversion Hn as [|? ? Hx Hr]; subst.
  destruct Ha as [->|Ha], Hb as [->|Hb]; auto.
  - exfalso. apply Hx. rewrite E. apply in_map; auto.
  - exfalso. apply Hx. rewrite <- E. apply in_map; auto.
Qed.

End CollectionFacts.

(* ================================================================== *)
(** * Read paths and soft deletion *)
(* ================================================================== *)

Section ReadPaths.

Import Model Schema Controller.

Context {svc : Service}.

Lemma compileFilter_status (p : listParams) (q : query) :
  compileFilter p = Ok q -> q_status q = Some (StatusIs Active).
Proof.
  unfold compileFilter.
  destruct (JS.truthy (orElse (p_genre p) EmptyString)); simpl.
  - destruct (newRegExp _) as [r|e]; simpl; try discriminate.
    intros H; injection H as <-.
    repeat match goal with |- context [if ?b then _ else _] => destruct b end;
      reflexivity.
  - intros H; injection H as <-.
    repeat match goal with |- context [if ?b then _ else _] => destruct b end;
      reflexivity.
Qed.

(** Every document that an active-only cursor yields is a stored document
    other than a given soft-deleted one. *)
Lemma active_page_excludes (db : collection) (m : movie) (q : query)
    (sp : sort_spec) (sk lim : option JS.num) (l : list movie) :
  uniqueIds db -> In m db -> status m = Deleted ->
  q_status q = Some (StatusIs Active) ->
  findPage db q sp sk lim = Ok l -> ~ In (_id m) (map _id l).
Proof.
  intros Hu Hm Hd Hq Hl Hin.
  apply in_map_iff in Hin. destruct Hin as [y [Hid Hy]].
  destruct (findPage_In db q sp sk lim l y Hl Hy) as [Hdb [f [Hf Hfy]]].
  pose proof (evalQuery_active q f y Hq Hf Hfy) as Hact.
  assert (y = m) by (apply (uniqueIds_eq db); auto).
  subst y. congruence.
Qed.

Lemma incrementView_id (e : env) (db : collection) (m : movie) :
  _id (snd (incrementView e db m)) = _id m.
Proof.
  unfold incrementView, saveLoaded.
  destruct (validate e _); reflexivity.
Qed.

Lemma toJSON_id (m : movie) : _id (toJSON m) = _id m.
Proof.
  unfold toJSON. destruct (imdb_rating m) as [r|]; auto.
  destruct (Qeq_bool r 0); auto.
Qed.

Lemma getAllMovies_excludes (db : collection) (m : movie) (p : listParams)
    (db' : collection) (r : response) :
  uniqueIds db -> In m db -> status m = Deleted ->
  getAllMovies db p = Ok (db', r) -> ~ In (_id m) (records r).
Proof.
  intros Hu Hm Hd. unfold getAllMovies.
  destruct (compileFilter p) as [q|] eqn:Eq; simpl; try discriminate.
  destruct (findPage db q _ _ _) as [l|] eqn:El; simpl; try discriminate.
  destruct (countDocuments db q) as [t|]; simpl; try discriminate.
  intros H; injection H as <- <-. simpl.
  apply (active_page_excludes db m q _ _ _ l Hu Hm Hd
           (compileFilter_status p q Eq) El).
Qed.

Lemma getMovieById_excludes (e : env) (db : collection) (m : movie) (id : nat)
    (db' : collection) (r : response) :
  uniqueIds db -> In m db -> status m = Deleted ->
  getMovieById e db id = Ok (db', r) -> ~ In (_id m) (records r).
Proof.
  intros Hu Hm Hd. unfold getMovieById.
  destruct (findById db id) as [mv|] eqn:Ef.
  2:{ intros H; injection H as <- <-; simpl; tauto. }
  destruct (lifecycle_eqb (status mv) Deleted) eqn:Es.
  { intros H; injection H as <- <-; simpl; tauto. }
  pose proof (incrementView_id e db mv) as Hid.
  destruct (incrementView e db mv) as [db1 mv1]; simpl in Hid.
  destruct (findPage db _ _ _ _) as [rel|] eqn:El; simpl; try discriminate.
  intros H; injection H as <- <-. simpl.
  rewrite toJSON_id, Hid. intros [Heq|Hin].
  - destruct (findById_Some db id mv Ef) as [Hmv _].
    assert (mv = m) by (apply (uniqueIds_eq db); auto).
    subst mv. rewrite Hd in Es. discriminate.
  - revert Hin.
    eapply active_page_excludes; [exact Hu|exact Hm|exact Hd| |exact El]; reflexivity.
Qed.

Lemma getSearchSuggestions_excludes (db : collection) (m : movie)
    (q : option string) (db' : collection) (r : response) :
  uniqueIds db -> In m db -> status m = Deleted ->
  getSearchSuggestions db q = Ok (db', r) -> ~ In (_id m) (records r).
Proof.
  intros Hu Hm Hd. unfold getSearchSuggestions.
  destruct (negb _ || _).
  { intros H; injection H as <- <-; simpl; tauto. }
  destruct (findPage db _ _ _ _) as [l|] eqn:El; simpl; try discriminate.
  intros H; injection H as <- <-. unfold records. cbn [body].
  rewrite map_map. cbn [formatSuggestion s_id].
  eapply active_page_excludes; [exact Hu|exact Hm|exact Hd| |exact El]; reflexivity.
Qed.

Lemma getTrendingMovies_excludes (e : env) (db : collection) (m : movie)
    (period lim : option string) (db' : collection) (r : response) :
  uniqueIds db -> In m db -> status m = Deleted ->
  getTrendingMovies e db period lim = Ok (db', r) -> ~ In (_id m) (records r).
Proof.
  intros Hu Hm Hd. unfold getTrendingMovies.
  destruct (findPage db _ _ _ _) as [l|] eqn:El; simpl; try discriminate.
  intros H; injection H as <- <-. simpl.
  eapply active_page_excludes; [exact Hu|exact Hm|exact Hd| |exact El]; reflexivity.
Qed.

Lemma getMoviesByGenre_excludes (db : collection) (m : movie) (genre : string)
    (page lim sortBy : option string) (db' : collection) (r : response) :
  uniqueIds db -> In m db -> status m = Deleted ->
  getMoviesByGenre db genre page lim sortBy = Ok (db', r) ->
  ~ In (_id m) (records r).
Proof.
  intros Hu Hm Hd. unfold getMoviesByGenre. intros H.
  apply bind_Ok in H. destruct H as [re [_ H]].
  apply bind_Ok in H. destruct H as [l [El H]].
  apply bind_Ok in H. destruct H as [t [_ H]].
  injection H as <- <-. simpl.
  eapply active_page_excludes; [exact Hu|exact Hm|exact Hd| |exact El]; reflexivity.
Qed.

(** What holds of every response of a handler holds of what the client
    receives, since the answer of the error middleware has no record. *)
Lemma respond_excludes (h : handler) (i : nat) :
  (forall db' r, h = Ok (db', r) -> ~ In i (records r)) ->
  ~ In i (records (respond h)).
Proof.
  intros H. destruct h as [[db' r]|e]; simpl.
  - exact (H db' r eq_refl).
  - tauto.
Qed.

(** C1. A record whose status is [deleted] is in nothing that the client
    receives from the listing, from the detail view, from the search
    suggestions, from the trending list or from the by-genre list,
    whatever the filter, search, sort and paging parameters of the request
    are, and whatever the regular-expression engines and the store do with
    a pattern or a number outside the modelled fragment. *)
Theorem deleted_never_returned (db : collection) (m : movie) :
  uniqueIds db -> In m db -> status m = Deleted ->
  (forall p, ~ In (_id m) (records (respond (getAllMovies db p)))) /\
  (forall e id, ~ In (_id m) (records (respond (getMovieById e db id)))) /\
  (forall q, ~ In (_id m) (records (respond (getSearchSuggestions db q)))) /\
  (forall e period lim,
      ~ In (_id m) (records (respond (getTrendingMovies e db period lim)))) /\
  (forall genre page lim sortBy,
      ~ In (_id m)
          (records (respond (getMoviesByGenre db genre page lim sortBy)))).
Proof.
  intros Hu Hm Hd. repeat split; intros; apply respond_excludes; intros.
  - eapply getAllMovies_excludes; eauto.
  - eapply getMovieById_excludes; eauto.
  - eapply getSearchSuggestions_excludes; eauto.
  - eapply getTrendingMovies_excludes; eauto.
  - eapply getMoviesByGenre_excludes; eauto.
Qed.

End ReadPaths.

(** The sample collection has unique identifiers and a soft-deleted
    record, which the plain listing leaves out. *)
Lemma deleted_never_returned_witness :
  Model.uniqueIds Samples.db0 /\ In Samples.gone Samples.db0 /\
  Model.status Samples.gone = Model.Deleted /\
  ~ In (Model._id Samples.gone)
      (Controller.records
         (Controller.respond
            (Controller.getAllMovies Samples.db0 Controller.defaultParams))).
Proof.
  assert (Hu : Model.uniqueIds Samples.db0).
  { unfold Model.uniqueIds; simpl.
    repeat constructor; simpl; intuition discriminate. }
  assert (Hm : In Samples.gone Samples.db0) by (simpl; auto).
  assert (Hd : Model.status Samples.gone = Model.Deleted) by reflexivity.
  repeat split; auto.
  apply (proj1 (deleted_never_returned Samples.db0 Samples.gone Hu Hm Hd)
           Controller.defaultParams).
Defined.

(* ================================================================== *)
(** * The filter compiler and the page resolver *)
(* ================================================================== *)

Section Listing.

Import Model Schema Controller.

Context {svc : Service}.

Local Open Scope Z_scope.

Lemma evalQuery_year (q : query) (f : movie -> bool) (m : movie) :
  evalQuery q = Ok f -> f m = true ->
  optCond (q_year q) (fun c => evalYear c m) = true.
Proof.
  intros H Hm. apply evalQuery_inv in H.
  destruct H as [_ [rs [rt [rg [_ [_ [_ H]]]]]]]. rewrite H in Hm.
  rewrite !andb_true_iff in Hm. tauto.
Qed.

Lemma compileFilter_year (p : listParams) (q : query) :
  compileFilter p = Ok q ->
  q_year q =
    if JS.truthy (orElse (p_decade p) EmptyString)
    then Some (YearBetween (JS.parseInt (orElse (p_decade p) EmptyString))
                 (JS.add (JS.parseInt (orElse (p_decade p) EmptyString))
                    (JS.Int 9)))
    else if JS.truthy (orElse (p_year p) EmptyString)
         then Some (YearIs (JS.parseInt (orElse (p_year p) EmptyString)))
         else None.
Proof.
  unfold compileFilter. intros H.
  apply bind_Ok in H. destruct H as [q2 [H2 H]].
  injection H as <-.
  assert (Hq2 : q_year q2 = None).
  { destruct (JS.truthy (orElse (p_genre p) EmptyString)).
    - apply bind_Ok in H2. destruct H2 as [r [_ H2]]. injection H2 as <-.
      destruct (JS.truthy (JS.trim _)); reflexivity.
    - injection H2 as <-. destruct (JS.truthy (JS.trim _)); reflexivity. }
  destruct (JS.truthy (orElse (p_decade p) EmptyString));
    destruct (JS.truthy (orElse (p_year p) EmptyString));
    destruct (JS.truthy (orElse (p_minRating p) EmptyString) ||
              JS.truthy (orElse (p_maxRating p) EmptyString));
    destruct (JS.truthy (orElse (p_source p) EmptyString));
    simpl; auto.
Qed.

(** The compiler fails only when [new RegExp] rejects the genre. *)
Lemma compileFilter_Raise (p : listParams) (e : error) :
  compileFilter p = Raise e ->
  JS.truthy (orElse (p_genre p) EmptyString) = true /\
  newRegExp (orElse (p_genre p) EmptyString) = Raise e.
Proof.
  unfold compileFilter.
  destruct (JS.truthy (orElse (p_genre p) EmptyString)); simpl.
  - destruct (newRegExp _) as [r|e']; simpl; [discriminate|].
    intros H; injection H as <-; auto.
  - discriminate.
Qed.

(** C3. When a request supplies both a decade and a year, the year
    condition of the compiled query is the inclusive range from the start of
    the decade to nine years later, and the raw year is overridden: a
    selected record has its year in that range. *)
Theorem decade_overrides_year (p : listParams) (d y : string) :
  p_decade p = Some d -> JS.truthy d = true ->
  p_year p = Some y -> JS.truthy y = true ->
  (forall q, compileFilter p = Ok q ->
     q_year q = Some (YearBetween (JS.parseInt d)
                        (JS.add (JS.parseInt d) (JS.Int 9)))) /\
  (forall e, compileFilter p = Raise e ->
     newRegExp (orElse (p_genre p) EmptyString) = Raise e) /\
  (forall q n f m,
     compileFilter p = Ok q -> JS.parseInt d = JS.Int n ->
     evalQuery q = Ok f -> f m = true ->
     exists yr, year m = Some yr /\ n <= yr <= n + 9).
Proof.
  intros Hd Td Hy Ty.
  assert (Hq : forall q, compileFilter p = Ok q ->
     q_year q = Some (YearBetween (JS.parseInt d)
                        (JS.add (JS.parseInt d) (JS.Int 9)))).
  { intros q H. rewrite (compileFilter_year p q H), Hd. simpl. rewrite Td.
    reflexivity. }
  split; [exact Hq|]. split.
  - intros e H. apply (compileFilter_Raise p e H).
  - intros q n f m Hc Hn Hf Hm.
    pose proof (evalQuery_year q f m Hf Hm) as Hyr.
    rewrite (Hq q Hc), Hn in Hyr. cbn [optCond JS.add] in Hyr.
    unfold evalYear in Hyr.
    destruct (year m) as [yr|]; [|discriminate].
    exists yr. split; auto.
    apply andb_true_iff in Hyr. destruct Hyr as [H1 H2].
    apply Z.leb_le in H1. apply Z.leb_le in H2. lia.
Qed.

End Listing.

(** The first scenario: decade 1990 with year 1985 compiles to the range
    from 1990 to 1999. *)
Lemma decade_overrides_year_witness :
  Controller.compileFilter Samples.decadeAndYear
  = Ok (Controller.withYear Model.activeOnly
          (Model.YearBetween (JS.Int 1990) (JS.Int 1999))) /\
  Model.q_year (Controller.withYear Model.activeOnly
                  (Model.YearBetween (JS.Int 1990) (JS.Int 1999)))
  = Some (Model.YearBetween (JS.Int 1990) (JS.Int 1999)).
Proof.
  split; [reflexivity|].
  exact (proj1 (decade_overrides_year Samples.decadeAndYear "1990" "1985"
                  eq_refl eq_refl eq_refl eq_refl)
           (Controller.withYear Model.activeOnly
              (Model.YearBetween (JS.Int 1990) (JS.Int 1999)))
           eq_refl).
Defined.

(* ================================================================== *)
(** * The page resolver *)
(* ================================================================== *)

Section Paging.

Import Model Schema Controller.

Context {svc : Service}.

Local Open Scope Z_scope.

Lemma findPage_numeric (db : collection) (q : query) (sel : list movie)
    (sp : sort_spec) (k l : Z) :
  find db q = Ok sel -> 0 <= k <= int32Max -> 1 <= l <= int32Max ->
  findPage db q sp (Some (JS.Int k)) (Some (JS.Int l))
  = Ok (firstn (Z.to_nat l) (skipn (Z.to_nat k) (sortBy sp sel))).
Proof.
  intros Hf Hk Hl. unfold findPage. rewrite Hf. cbn [bind].
  rewrite skip_Int by lia. cbn [bind]. apply limit_Int. lia.
Qed.

Lemma resolved_numbers (page lim : option string) (pg lm : Z) :
  JS.parseInt (orElse page "1"%string) = JS.Int pg ->
  JS.parseInt (orElse lim "12"%string) = JS.Int lm ->
  resolvePage page = JS.Int (Z.max 1 pg) /\
  resolveLimit lim = JS.Int (Z.min 50 (Z.max 1 lm)) /\
  resolveSkip (resolvePage page) (resolveLimit lim)
  = JS.Int ((Z.max 1 pg - 1) * Z.min 50 (Z.max 1 lm)).
Proof.
  intros Hp Hl. unfold resolveSkip, resolvePage, resolveLimit.
  rewrite Hp, Hl. simpl. auto.
Qed.


End Paging.



(* ================================================================== *)
(** * Soft deletion, export and the rendering of ratings *)
(* ================================================================== *)

Section SoftDelete.

Import Model Schema Controller.

Context {svc : Service}.

Lemma replaceDoc_ids (db : collection) (m : movie) :
  map _id (replaceDoc db m) = map _id db.
Proof.
  induction db as [|x r IH]; simpl; auto.
  destruct (Nat.eqb (_id x) (_id m)) eqn:E; simpl.
  - apply Nat.eqb_eq in E. congruence.
  - congruence.
Qed.

(** Deleting never removes a document from the collection. *)
Lemma deleteMovie_keeps_records (e : env) (db db' : collection) (id : nat)
    (r : response) :
  deleteMovie e db id = Ok (db', r) -> map _id db' = map _id db.
Proof.
  unfold deleteMovie, findByIdAndUpdate.
  destruct (findById db id) as [m|]; intros H; injection H as <- <-; auto.
  apply replaceDoc_ids.
Qed.

(** An export that includes deleted records lists the whole collection. *)
Lemma exportMovies_includes_deleted (db : collection) (format : option string) :
  exists movies,
    exportMovies db format (Some "true"%string)
    = Ok (db, mkResponse 200
                (Exported (String.eqb (orElse format "json"%string) "csv") movies))
    /\ forall m, In m movies <-> In m db.
Proof.
  unfold exportMovies. simpl. eexists. split; [reflexivity|].
  intros m. rewrite sortBy_In, filter_In. simpl. tauto.
Qed.

(** After a deletion the record is still in an export that includes the
    deleted ones. *)
Lemma deleted_record_still_exported (e : env) (db db' : collection) (id : nat)
    (m : movie) (r : response) :
  deleteMovie e db id = Ok (db', r) -> findById db id = Some m ->
  exists movies m',
    exportMovies db' None (Some "true"%string)
    = Ok (db', mkResponse 200 (Exported false movies))
    /\ In m' movies /\ _id m' = id /\ status m' = Deleted.
Proof.
  unfold deleteMovie, findByIdAndUpdate. intros H Hf. rewrite Hf in H.
  injection H as <- <-.
  destruct (exportMovies_includes_deleted (replaceDoc db (markDeleted e m)) None)
    as [movies [Hx Hin]].
  exists movies, (markDeleted e m). split; [exact Hx|].
  destruct (findById_Some db id m Hf) as [Hm Hid].
  split; [|split; [exact Hid|reflexivity]].
  apply Hin. clear Hx Hin Hf.
  induction db as [|x r IH]; simpl in *; [tauto|].
  destruct (Nat.eqb (_id x) (_id m)) eqn:E; simpl; auto.
  destruct Hm as [->|Hm]; auto.
  rewrite Nat.eqb_refl in E. discriminate.
Qed.

(** The answer of [deleteMovie] does not depend on the status of the
    record it finds. *)
Lemma deleteMovie_ignores_status (e : env) (db : collection) (id : nat)
    (m : movie) :
  findById db id = Some m ->
  deleteMovie e db id
  = Ok (replaceDoc db (markDeleted e m),
        mkResponse 200 (DeletedSummary (_id m) (title m) (year m))).
Proof.
  intros Hf. unfold deleteMovie, findByIdAndUpdate. rewrite Hf. reflexivity.
Qed.

(** C2 at the failing input. Deleting the record of [db0] that is already
    soft-deleted is answered with status 200 and a summary of the record,
    as a first deletion is, and the update time is stamped again; the
    sibling handler [getMovieById] answers 404 for the same record. *)
Theorem redelete_reports_success :
  status Samples.gone = Deleted /\
  deleteMovie Samples.env0 Samples.db0 2
  = Ok (Samples.db0_redeleted,
        mkResponse 200 (DeletedSummary 2 "Alien" (Some 1979%Z))) /\
  getMovieById Samples.env0 Samples.db0 2
  = Ok (Samples.db0, mkResponse 404 (NotFound 2)).
Proof.
  repeat split.
Qed.

End SoftDelete.

Section Ratings.

Import Model Schema Controller.

Context {svc : Service}.

Lemma roundRating_oneDecimal (r : Q) : oneDecimal (roundRating r).
Proof.
  unfold oneDecimal, roundRating. exists (JS.round (Qmult r 10)). reflexivity.
Qed.

(** The [toJSON] transform leaves a rating with one decimal place. *)
Lemma toJSON_oneDecimal (m : movie) (r : Q) :
  imdb_rating (toJSON m) = Some r -> oneDecimal r.
Proof.
  unfold toJSON. destruct (imdb_rating m) as [r0|] eqn:E.
  - destruct (Qeq_bool r0 0) eqn:E0.
    + rewrite E. intros H; injection H as <-.
      apply Qeq_bool_iff in E0. exists 0%Z. rewrite E0. reflexivity.
    + simpl. intros H; injection H as <-. apply roundRating_oneDecimal.
  - rewrite E. discriminate.
Qed.

(** The listing returns stored documents as they are. *)
Lemma getAllMovies_lean (db db' : collection) (p : listParams)
    (movies : list movie) (pg : pagination) (c : Z) (y : movie) :
  getAllMovies db p = Ok (db', mkResponse c (Listing movies pg)) ->
  In y movies -> In y db.
Proof.
  unfold getAllMovies. intros H Hy.
  apply bind_Ok in H. destruct H as [q [_ H]].
  apply bind_Ok in H. destruct H as [l [Hl H]].
  apply bind_Ok in H. destruct H as [t [_ H]].
  injection H as _ _ <- _.
  apply (findPage_In db q _ _ _ l y Hl Hy).
Qed.

(** C5 at the failing input. The listing uses [lean()] and returns the
    stored rating 7.666 of the sample record as it is, with three decimal
    places, while the detail view of the same record, which serialises a
    document through [toJSON], renders 7.7. *)
Theorem listing_rating_not_rounded :
  getAllMovies Samples.db0 defaultParams = Ok (Samples.db0, Samples.listing0) /\
  In Samples.jaws [Samples.heat; Samples.jaws] /\
  imdb_rating Samples.jaws = Some (7666 # 1000) /\
  ~ oneDecimal (7666 # 1000) /\
  roundRating (7666 # 1000) = 77 # 10 /\
  exists db' m rel,
    getMovieById Samples.env0 Samples.db0 1
    = Ok (db', mkResponse 200 (Detail m rel)) /\
    imdb_rating m = Some (77 # 10).
Proof.
  split; [vm_compute; reflexivity|].
  split; [simpl; auto|].
  split; [reflexivity|].
  split.
  { intros [k Hk]. unfold Qeq in Hk. simpl in Hk. lia. }
  split; [reflexivity|].
  eexists. eexists. eexists. split; vm_compute; reflexivity.
Qed.

End Ratings.

Section UpdateNotFound.

Import Model Schema Controller.

Context {svc : Service}.

(** An update whose target is absent and that meets no conflict is answered
    with 404 and leaves the collection as it was. *)
Lemma updateMovie_absent (e : env) (db : collection) (id : nat) (b : fields) :
  findById db id = None -> updateConflict db id b = Ok None ->
  validateUpdate e b = true ->
  updateMovie e db id b = Ok (db, mkResponse 404 (NotFound id)).
Proof.
  intros Hf Hc Hv. unfold updateMovie, findByIdAndUpdate.
  rewrite Hc. simpl. rewrite Hv, Hf. reflexivity.
Qed.

(** An update that meets no conflict and does not touch the status
    rewrites a soft-deleted target before it answers 404. *)
Lemma updateMovie_deleted_writes (e : env) (db : collection) (id : nat)
    (b : fields) (m : movie) :
  findById db id = Some m -> status m = Deleted -> b_status b = None ->
  updateConflict db id b = Ok None -> validateUpdate e b = true ->
  updateMovie e db id b
  = Ok (replaceDoc db (applyFields e b m), mkResponse 404 (NotFound id)).
Proof.
  intros Hf Hs Hb Hc Hv. unfold updateMovie, findByIdAndUpdate.
  rewrite Hc. cbn [bind]. rewrite Hv, Hf.
  cbn [status applyFields]. rewrite Hb, Hs. reflexivity.
Qed.

(** C7 at the failing input. An update of the plot of the soft-deleted
    record of [db0] is answered with 404 and the requested identifier, but
    the stored record has been rewritten before the status was looked at:
    its plot and its update time changed. *)
Theorem update_of_deleted_writes :
  status Samples.gone = Deleted /\
  updateMovie Samples.env0 Samples.db0 2 Samples.plotOnly
  = Ok (Samples.db0_edited, mkResponse 404 (NotFound 2)) /\
  findById Samples.db0 2 = Some Samples.gone /\
  option_map plot (findById Samples.db0_edited 2) = Some (Some "Edited."%string) /\
  Samples.db0_edited <> Samples.db0.
Proof.
  split; [reflexivity|].
  split; [vm_compute; reflexivity|].
  split; [reflexivity|].
  split; [reflexivity|].
  discriminate.
Qed.

End UpdateNotFound.

(* ================================================================== *)
(** * Literal patterns *)
(* ================================================================== *)

Section LiteralPatterns.

Import Regex.

Local Open Scope string_scope.

Lemma step_plain (st : pstate) (c : ascii) :
  isMeta c = false -> escaped st = false ->
  step st c = Next (pushItem st (Chr c) AfterItem).
Proof.
  intros Hm He. unfold step. rewrite He.
  destruct c as [[] [] [] [] [] [] [] []]; simpl in Hm; try discriminate Hm;
    reflexivity.
Qed.

Lemma run_app (st : pstate) (a b : string) :
  run st (a ++ b) =
  match run st a with
  | Next st' => run st' b
  | other => other
  end.
Proof.
  revert st. induction a as [|c a IH]; intros st; simpl; auto.
  destruct (step st c); auto.
Qed.

Lemma run_plain (s : string) (st : pstate) :
  plain s = true -> escaped st = false -> run st s = Next (pushAll st s).
Proof.
  revert st. induction s as [|c s IH]; intros st Hp He; simpl; auto.
  simpl in Hp. apply andb_true_iff in Hp. destruct Hp as [Hc Hs].
  apply negb_true_iff in Hc.
  rewrite (step_plain st c Hc He). apply IH; auto.
Qed.

Lemma pushAll_spec (s : string) (st : pstate) :
  escaped st = false ->
  parents (pushAll st s) = parents st /\
  alts (cur (pushAll st s)) = alts (cur st) /\
  items (cur (pushAll st s)) = (rev (literal s) ++ items (cur st))%list /\
  escaped (pushAll st s) = false.
Proof.
  revert st. induction s as [|c s IH]; intros st He; simpl.
  - auto.
  - destruct (IH (pushItem st (Chr c) AfterItem) eq_refl) as [H1 [H2 [H3 H4]]].
    rewrite H1, H2, H3, H4. simpl. rewrite <- app_assoc. simpl. auto.
Qed.


(** A plain string between the anchors compiles to its characters between
    the two assertions. *)
Lemma compile_anchored (t : string) :
  plain t = true ->
  compile ("^" ++ t ++ "$") = Parsed (mkCat (Bol :: literal t ++ [Eol])).
Proof.
  intros Hp. unfold compile. simpl.
  change (step initial "^"%char) with (Next (pushItem initial Bol AfterAnchor)).
  cbv iota. rewrite run_app.
  rewrite (run_plain t (pushItem initial Bol AfterAnchor) Hp eq_refl).
  destruct (pushAll_spec t (pushItem initial Bol AfterAnchor) eq_refl)
    as [H1 [H2 [H3 H4]]].
  simpl. unfold step. rewrite H4. simpl. unfold closeFrame. simpl.
  rewrite H1, H2, H3. simpl.
  rewrite rev_app_distr, rev_involutive. reflexivity.
Qed.

Lemma matchK_literal (t : string) (rest : list regex)
    (k : bool -> string -> bool) (bol : bool) (s : string) :
  matchK true (mkCat (literal t ++ rest)) k bol s =
  match stripCI t s with
  | Some s' => matchK true (mkCat rest) k (afterLiteral t bol) s'
  | None => false
  end.
Proof.
  revert bol s. induction t as [|a t IH]; intros bol s.
  - reflexivity.
  - cbn [literal app mkCat matchK stripCI afterLiteral].
    destruct s as [|b s']; [reflexivity|].
    rewrite IH. destruct (eqChar true a b); [|reflexivity].
    cbn [andb]. destruct (stripCI t s'); [|reflexivity].
    destruct t; reflexivity.
Qed.



Lemma eqChar_true (a b : ascii) :
  eqChar true a b = true <-> JS.toLowerChar a = JS.toLowerChar b.
Proof. unfold eqChar. apply Ascii.eqb_eq. Qed.

Lemma stripCI_sound (p x post : string) :
  stripCI p x = Some post ->
  exists mid, x = mid ++ post /\ JS.toLowerCase mid = JS.toLowerCase p.
Proof.
  revert x. induction p as [|a p IH]; intros x; cbn [stripCI].
  - intros H; injection H as ->. exists "". auto.
  - destruct x as [|b x]; [discriminate|].
    destruct (eqChar true a b) eqn:E; [|discriminate].
    intros H. destruct (IH x H) as [mid [-> Hm]].
    exists (String b mid). apply eqChar_true in E.
    cbn [append JS.toLowerCase]. rewrite Hm, E. auto.
Qed.

Lemma stripCI_complete (p mid post : string) :
  JS.toLowerCase mid = JS.toLowerCase p -> stripCI p (mid ++ post) = Some post.
Proof.
  revert mid. induction p as [|a p IH]; intros mid; cbn [stripCI].
  - destruct mid; simpl; [auto|discriminate].
  - destruct mid as [|b mid]; cbn [append JS.toLowerCase]; [discriminate|].
    intros H. injection H as Hc Hr.
    assert (E : eqChar true a b = true) by (apply eqChar_true; auto).
    rewrite E. apply IH; auto.
Qed.


(** Searching an anchored pattern only succeeds at the first position. *)
Lemma searchFrom_Bol_later (r : regex) (x : string) :
  searchFrom true (Cat Bol r) false x = false.
Proof. induction x as [|c x IH]; simpl; auto. Qed.

Lemma test_anchored_literal (t x : string) :
  test true (mkCat (Bol :: literal t ++ [Eol])) x =
  match stripCI t x with
  | Some x' => atEnd x'
  | None => false
  end.
Proof.
  unfold test. change (mkCat (Bol :: literal t ++ [Eol]))
    with (Cat Bol (mkCat (literal t ++ [Eol]))).
  assert (H : matchK true (Cat Bol (mkCat (literal t ++ [Eol]))) accept true x
              = match stripCI t x with
                | Some x' => atEnd x'
                | None => false
                end).
  { simpl. rewrite matchK_literal. destruct (stripCI t x); auto.
    simpl. unfold accept. apply andb_true_r. }
  destruct x as [|c x]; simpl searchFrom.
  - fold (matchK true (Cat Bol (mkCat (literal t ++ [Eol]))) accept true "").
    rewrite orb_false_r. exact H.
  - rewrite searchFrom_Bol_later, orb_false_r. exact H.
Qed.

Lemma atEnd_iff (s : string) : atEnd s = true <-> s = "" \/ s = lineFeed.
Proof.
  destruct s as [|c [|d s]]; simpl.
  - intuition auto.
  - unfold isLF, lineFeed. split.
    + intros H. right. apply Z.eqb_eq in H. f_equal.
      unfold JS.code in H. rewrite <- (ascii_nat_embedding c).
      replace (nat_of_ascii c) with 10%nat by lia. reflexivity.
    + intros [H|H]; [discriminate|]. injection H as ->. reflexivity.
  - split; [discriminate|]. intros [H|H]; discriminate.
Qed.

(** What an anchored plain pattern matches. *)
Lemma test_anchored_iff (t x : string) :
  test true (mkCat (Bol :: literal t ++ [Eol])) x = true <-> sameLineCI t x.
Proof.
  rewrite test_anchored_literal. unfold sameLineCI, sameCI. split.
  - destruct (stripCI t x) as [tail|] eqn:E; [|discriminate].
    intros H. apply atEnd_iff in H.
    destruct (stripCI_sound t x tail E) as [mid [Hx Hm]].
    exists mid, tail. auto.
  - intros [mid [tail [-> [Hm Ht]]]].
    rewrite (stripCI_complete t mid tail Hm). apply atEnd_iff. exact Ht.
Qed.

Lemma sameCI_sameLine (t x : string) : sameCI t x -> sameLineCI t x.
Proof.
  intros H. exists x, "". split; [|auto].
  clear H. induction x; simpl; congruence.
Qed.

Lemma compile_anyTitle : compile "^.*$" = Parsed anyTitle.
Proof. reflexivity. Qed.

Lemma matchK_Any_cons (k : bool -> string -> bool) (b : bool) (d : ascii)
    (s : string) :
  matchK true Any k b (String d s) = negb (isLF d) && k false s.
Proof. reflexivity. Qed.

Lemma starLoop_any (k : bool -> string -> bool) (t : string) :
  noLineFeed t = true -> k false "" = true -> k true "" = true ->
  forall (n : nat) (b : bool),
    (String.length t <= n)%nat ->
    starLoop (matchK true Any) k n b t = true.
Proof.
  intros Ht Hk0 Hk1. induction t as [|c t IH]; intros n b Hn.
  - destruct n; simpl; destruct b; rewrite ?Hk0, ?Hk1; reflexivity.
  - destruct n as [|n]; [simpl in Hn; lia|].
    cbn [noLineFeed] in Ht. apply andb_true_iff in Ht. destruct Ht as [Hc Ht].
    cbn [starLoop]. rewrite matchK_Any_cons, Hc. cbn [andb].
    assert (L : (String.length t <? String.length (String c t))%nat = true)
      by (apply Nat.ltb_lt; simpl; lia).
    rewrite L. cbn [andb]. rewrite (IH Ht n false) by (simpl in Hn; lia).
    apply orb_true_r.
Qed.

(** The pattern of an update without a title matches every title that has
    no line feed. *)
Lemma test_anyTitle (x : string) :
  noLineFeed x = true -> test true anyTitle x = true.
Proof.
  intros Hx. unfold test.
  assert (H : matchK true anyTitle accept true x = true).
  { unfold anyTitle. cbn [matchK]. apply starLoop_any; auto. }
  destruct x; cbn [searchFrom]; rewrite H; reflexivity.
Qed.

End LiteralPatterns.

(* ================================================================== *)
(** * Free-text search *)
(* ================================================================== *)

Section Search.

Import Model Schema Controller.

Context {svc : Service}.












End Search.



(* ================================================================== *)
(** * The duplicate check of create and update *)
(* ================================================================== *)

Section Duplicates.

Import Model Schema Controller.

Context {svc : Service}.

Lemma duplicateQuery_eval (re : Regex.regex) (y : option Z) (other : option nat) :
  exists f, evalQuery (duplicateQuery (Compiled re) y other) = Ok f /\
            forall m, f m = dupMatch re y other m.
Proof.
  eexists. split.
  - unfold evalQuery. destruct y; reflexivity.
  - intros m. unfold dupMatch.
    destruct y as [n|], other as [i|]; cbn; unfold evalYear;
      destruct (year m); rewrite ?andb_true_r; reflexivity.
Qed.

Lemma findOne_found (db : collection) (q : query) (f : movie -> bool) (m : movie) :
  evalQuery q = Ok f -> In m db -> f m = true ->
  exists m', findOne db q = Ok (Some m') /\ In m' db /\ f m' = true.
Proof.
  intros Hf Hm Hfm. unfold findOne, find. rewrite Hf. cbn [bind].
  assert (Hin : In m (filter f db)) by (apply filter_In; auto).
  destruct (filter f db) as [|x l] eqn:E; [destruct Hin|].
  exists x. split; [reflexivity|].
  apply filter_In. rewrite E. simpl. auto.
Qed.

Lemma findOne_none (db : collection) (q : query) (f : movie -> bool) :
  evalQuery q = Ok f -> (forall m, In m db -> f m = false) ->
  findOne db q = Ok None.
Proof.
  intros Hf Hall. unfold findOne, find. rewrite Hf. cbn [bind].
  destruct (filter f db) as [|x l] eqn:E; [reflexivity|].
  assert (Hx : In x (filter f db)) by (rewrite E; simpl; auto).
  apply filter_In in Hx. destruct Hx as [Hx Hfx].
  rewrite (Hall x Hx) in Hfx. discriminate.
Qed.

Lemma freshId_bound (db : collection) (i : nat) :
  In i (map _id db) -> (i < freshId db)%nat.
Proof.
  unfold freshId. induction db as [|x r IH]; simpl; [tauto|].
  intros [<-|H]; [lia|]. specialize (IH H). lia.
Qed.

Lemma freshId_fresh (db : collection) : ~ In (freshId db) (map _id db).
Proof. intros H. apply freshId_bound in H. lia. Qed.

Lemma live_status (m : movie) :
  status m <> Deleted -> negb (lifecycle_eqb (status m) Deleted) = true.
Proof. destruct (status m); simpl; congruence. Qed.

Lemma yearAgrees_test (y : option Z) (m : movie) :
  match y with
  | Some n => match year m with Some k => (k =? n)%Z | None => false end
  | None => match year m with Some _ => false | None => true end
  end = true <-> yearAgrees y m.
Proof.
  unfold yearAgrees. destruct y as [n|], (year m) as [k|].
  - rewrite Z.eqb_eq. split; congruence.
  - split; discriminate.
  - split; discriminate.
  - tauto.
Qed.

Lemma newRegExp_anchored (t : string) :
  Regex.plain t = true ->
  newRegExp (anchored t)
  = Ok (Compiled (Regex.mkCat (Regex.Bol :: Regex.literal t ++ [Regex.Eol]))).
Proof.
  intros Hp. unfold newRegExp, anchored. rewrite (compile_anchored t Hp).
  reflexivity.
Qed.

(** X23. The duplicate check of [createMovie] on a title that has no
    character special in a pattern, all titles being ASCII. When a record
    that is not deleted has the same title without regard to case and the
    year of the request (no year, when the request has none), the request
    is answered with 409 and nothing is written; when no such record has
    that title (one final line feed apart) and the document passes the
    validators of the schema, the document is appended with a fresh
    identifier and its title capitalised by the hook, and is returned. *)
Theorem create_rejects_duplicate (e : env) (db : collection) (b : fields)
    (t : string) :
  b_title b = Some t -> Regex.plain t = true -> JS.asciiText t = true ->
  (forall m, In m db -> JS.asciiText (title m) = true) ->
  (forall m,
     In m db -> status m <> Deleted -> Regex.sameCI t (title m) ->
     yearAgrees (b_year b) m ->
     createMovie e db b
     = Ok (db, mkResponse 409 (Duplicate (Some t) (b_year b)))) /\
  ((forall m,
      In m db -> status m <> Deleted -> yearAgrees (b_year b) m ->
      ~ Regex.sameLineCI t (title m)) ->
   validate e (newMovie db b "user") = true ->
   exists saved,
     createMovie e db b
     = Ok ((db ++ [saved])%list, mkResponse 201 (Stored (toJSON saved))) /\
     _id saved = freshId db /\ ~ In (_id saved) (map _id db) /\
     title saved = capitalize (JS.trim t) /\ source saved = "user"%string).
Proof.
  intros Ht Hp _ _.
  destruct (duplicateQuery_eval
              (Regex.mkCat (Regex.Bol :: Regex.literal t ++ [Regex.Eol]))
              (b_year b) None) as [f [Hf Hfm]].
  split.
  - intros m Hm Hs Hsame Hy. unfold createMovie. rewrite Ht.
    cbn [interpolate orElse]. rewrite (newRegExp_anchored t Hp). cbn [bind].
    assert (Hmatch : f m = true).
    { rewrite Hfm. unfold dupMatch. rewrite (live_status m Hs).
      rewrite (proj2 (test_anchored_iff t (title m)))
        by (apply sameCI_sameLine; exact Hsame).
      rewrite (proj2 (yearAgrees_test (b_year b) m) Hy). reflexivity. }
    destruct (findOne_found db _ f m Hf Hm Hmatch) as [m' [Hone _]].
    rewrite Hone. reflexivity.
  - intros Hnone Hv. unfold createMovie. rewrite Ht.
    cbn [interpolate orElse]. rewrite (newRegExp_anchored t Hp). cbn [bind].
    assert (Hall : forall m, In m db -> f m = false).
    { intros m Hm. rewrite Hfm. unfold dupMatch.
      destruct (lifecycle_eqb (status m) Deleted) eqn:Es; [reflexivity|].
      cbn [negb andb].
      destruct (Regex.test true _ (title m)) eqn:Et; [|reflexivity].
      cbn [andb]. rewrite andb_true_r.
      apply not_true_is_false. intros Hy.
      apply yearAgrees_test in Hy. apply test_anchored_iff in Et.
      apply (Hnone m Hm); auto.
      intros Hd. rewrite Hd in Es. discriminate. }
    rewrite (findOne_none db _ f Hf Hall). cbn [bind].
    unfold save. rewrite Hv. cbn [bind].
    eexists. split; [reflexivity|].
    split; [reflexivity|]. split; [apply freshId_fresh|].
    split; [|reflexivity].
    cbn. rewrite Ht. cbn [orElse].
    unfold validate in Hv. rewrite !andb_true_iff in Hv.
    assert (Htr : JS.truthy (JS.trim t) = true).
    { repeat (apply proj1 in Hv). unfold validTitle in Hv.
      rewrite !andb_true_iff in Hv. cbn in Hv. rewrite Ht in Hv.
      cbn in Hv. tauto. }
    rewrite Htr. reflexivity.
Qed.

(** C6 at the failing input. The title of the request is put between the
    anchors of a pattern, unescaped: the question mark of [What?] makes
    the last letter optional, the pattern does not match the stored title
    [What?], and the check for a duplicate lets the request through. The
    collection holds a record that is not deleted with the title and the
    year of the request; the request is answered with 201, and a second
    record with that title and year is stored. *)
Theorem create_duplicate_accepted :
  In Samples.what Samples.dbWhat /\
  status Samples.what <> Deleted /\
  Regex.sameCI "What?" (title Samples.what) /\
  year Samples.what = b_year Samples.whatAgain /\
  exists saved,
    createMovie Samples.env0 Samples.dbWhat Samples.whatAgain
    = Ok ((Samples.dbWhat ++ [saved])%list, mkResponse 201 (Stored saved))
    /\ title saved = "What?"%string
    /\ year saved = Some 1999%Z
    /\ _id saved <> _id Samples.what.
Proof.
  split; [simpl; auto|]. split; [discriminate|].
  split; [reflexivity|]. split; [reflexivity|].
  eexists. split; [vm_compute; reflexivity|].
  split; [reflexivity|]. split; [reflexivity|]. discriminate.
Qed.

End Duplicates.

(** A request that repeats the title of a sample record in lower case,
    with the same year and other fields, is answered with 409. *)
Lemma create_rejects_duplicate_witness :
  Controller.createMovie Samples.env0 Samples.db0 Samples.jawsAgain
  = Ok (Samples.db0,
        Controller.mkResponse 409
          (Controller.Duplicate (Some "jaws"%string) (Some 1975%Z))).
Proof.
  assert (Ha : forall m, In m Samples.db0 -> JS.asciiText (Model.title m) = true).
  { intros m [<-|[<-|[<-|[]]]]; reflexivity. }
  apply (proj1 (create_rejects_duplicate Samples.env0 Samples.db0
                  Samples.jawsAgain "jaws" eq_refl eq_refl eq_refl Ha)
           Samples.jaws).
  - simpl. auto.
  - discriminate.
  - reflexivity.
  - reflexivity.
Defined.

Section UpdateConflicts.

Import Model Schema Controller.

Context {svc : Service}.

Lemma titleOrAny_title (b : fields) (t : string) :
  b_title b = Some t -> JS.truthy t = true ->
  truthyTitle b = true /\ titleOrAny b = t.
Proof.
  intros Ht Htr. unfold titleOrAny, truthyTitle. rewrite Ht, Htr. auto.
Qed.

Lemma newRegExp_anyTitle :
  newRegExp (anchored ".*") = Ok (Compiled Regex.anyTitle).
Proof. reflexivity. Qed.

(** C9, as the code has it. The filter of the check always carries the
    key [year]. When an update carries a title (ASCII, without a character
    that is special in a pattern) and no year, the value of that key is
    [undefined], which reaches the store as [null]: the check stops on
    another record that is not deleted, has that title without regard to
    case and has no year, and, the stored titles being ASCII, on no other
    record. When the update carries a year that is not zero and no title,
    the title pattern is [^.*$] and the check stops on any other record
    that is not deleted, has that year, and whose title has no line feed.
    On the sample collection a creation with the title of a record and
    another year passes the check, and so does an update to that title
    alone, which renames the record; an update to the year of that record
    alone is answered with 409. *)
Theorem update_conflict_keys (e : env) (db : collection) (id : nat) (b : fields) :
  (forall t,
     b_title b = Some t -> JS.truthy t = true -> Regex.plain t = true ->
     JS.asciiText t = true -> b_year b = None ->
     (forall m,
        In m db -> _id m <> id -> status m <> Deleted ->
        Regex.sameCI t (title m) -> year m = None ->
        updateMovie e db id b
        = Ok (db, mkResponse 409 (Duplicate (Some t) None))) /\
     ((forall m, In m db -> JS.asciiText (title m) = true) ->
      (forall m,
         In m db -> _id m <> id -> status m <> Deleted -> year m = None ->
         ~ Regex.sameLineCI t (title m)) ->
      updateConflict db id b = Ok None)) /\
  (forall y,
     truthyTitle b = false -> b_year b = Some y -> y <> 0%Z ->
     anchored (titleOrAny b) = "^.*$"%string /\
     forall m,
       In m db -> _id m <> id -> status m <> Deleted ->
       year m = Some y -> Regex.noLineFeed (title m) = true ->
       updateMovie e db id b
       = Ok (db, mkResponse 409 (Duplicate (b_title b) (Some y)))) /\
  ((exists db' saved,
      createMovie Samples.env0 Samples.db0 Samples.heat2000
      = Ok (db', mkResponse 201 (Stored saved))) /\
   (exists m,
      updateMovie Samples.env0 Samples.db0 1 Samples.titleHeat
      = Ok (Samples.db0_renamed, mkResponse 200 (Stored m)) /\
      _id m = 1%nat /\ title m = "heat"%string) /\
   updateMovie Samples.env0 Samples.db0 1 Samples.year1995
   = Ok (Samples.db0, mkResponse 409 (Duplicate None (Some 1995%Z)))).
Proof.
  split; [|split].
  3:{ split; [eexists; eexists; vm_compute; reflexivity|].
      split; [|vm_compute; reflexivity].
      eexists. split; [vm_compute; reflexivity|]. split; reflexivity. }
  - intros t Ht Htr Hp _ Hy.
    destruct (titleOrAny_title b t Ht Htr) as [Htt Hta].
    destruct (duplicateQuery_eval
                (Regex.mkCat (Regex.Bol :: Regex.literal t ++ [Regex.Eol]))
                None (Some id)) as [f [Hf Hfm]].
    split.
    + intros m Hm Hid Hs Hsame Hyr.
      assert (Hmatch : f m = true).
      { rewrite Hfm. unfold dupMatch. rewrite (live_status m Hs).
        rewrite (proj2 (test_anchored_iff t (title m)))
          by (apply sameCI_sameLine; exact Hsame).
        rewrite Hyr. cbn [andb]. apply negb_true_iff. apply Nat.eqb_neq.
        exact Hid. }
      destruct (findOne_found db _ f m Hf Hm Hmatch) as [m' [Hone _]].
      unfold updateMovie, updateConflict.
      rewrite Htt, Hta, Hy. cbn [orb]. rewrite (newRegExp_anchored t Hp).
      cbn [bind]. rewrite Hone. cbn [bind]. rewrite Ht. reflexivity.
    + intros _ Hnone.
      assert (Hall : forall m, In m db -> f m = false).
      { intros m Hm. rewrite Hfm. unfold dupMatch.
        destruct (lifecycle_eqb (status m) Deleted) eqn:Es; [reflexivity|].
        cbn [negb andb].
        destruct (Regex.test true _ (title m)) eqn:Et; [|reflexivity].
        cbn [andb].
        destruct (year m) as [k|] eqn:Ey; [reflexivity|]. cbn [andb].
        apply negb_false_iff. apply Nat.eqb_eq.
        destruct (Nat.eq_dec (_id m) id) as [Hid|Hid]; [exact Hid|].
        exfalso. apply test_anchored_iff in Et.
        apply (Hnone m Hm Hid); auto.
        intros Hd. rewrite Hd in Es. discriminate. }
      unfold updateConflict.
      rewrite Htt, Hta, Hy. cbn [orb]. rewrite (newRegExp_anchored t Hp).
      cbn [bind]. apply (findOne_none db _ f Hf Hall).
  - intros y Htt Hy Hy0.
    assert (Hta : titleOrAny b = ".*"%string)
      by (unfold titleOrAny; rewrite Htt; reflexivity).
    split; [rewrite Hta; reflexivity|].
    intros m Hm Hid Hs Hyr Hlf.
    destruct (duplicateQuery_eval Regex.anyTitle (Some y) (Some id))
      as [f [Hf Hfm]].
    assert (Hmatch : f m = true).
    { rewrite Hfm. unfold dupMatch. rewrite (live_status m Hs).
      rewrite (test_anyTitle (title m) Hlf). rewrite Hyr, Z.eqb_refl.
      cbn [andb]. apply negb_true_iff. apply Nat.eqb_neq. exact Hid. }
    destruct (findOne_found db _ f m Hf Hm Hmatch) as [m' [Hone _]].
    unfold updateMovie, updateConflict.
    assert (Hty : truthyYear b = true).
    { unfold truthyYear. rewrite Hy. apply negb_true_iff.
      apply Z.eqb_neq. exact Hy0. }
    rewrite Htt, Hty, Hta, Hy. cbn [orb]. rewrite newRegExp_anyTitle.
    cbn [bind]. rewrite Hone. reflexivity.
Qed.

End UpdateConflicts.

(** Renaming the first record of the collection with a record that has no
    year to the title of that record, in lower case and without a year, is
    answered with 409. *)
Lemma update_conflict_keys_witness :
  Controller.updateMovie Samples.env0 Samples.dbAnnounced 1 Samples.titleHeat
  = Ok (Samples.dbAnnounced,
        Controller.mkResponse 409 (Controller.Duplicate (Some "heat"%string) None)).
Proof.
  apply (proj1 (proj1 (update_conflict_keys Samples.env0 Samples.dbAnnounced 1
                         Samples.titleHeat)
                  "heat"%string eq_refl eq_refl eq_refl eq_refl eq_refl)
           Samples.announced).
  - simpl. auto.
  - discriminate.
  - discriminate.
  - reflexivity.
  - reflexivity.
Defined.

(** C9 as stated fails on an update that carries a title and no year: an
    update of the first sample record to the title [heat] passes the check
    although another record that is not deleted has that title, because
    that record has a year, and the first record is renamed. It also fails
    on a stored title with a line feed in it, which [^.*$] does not match:
    an update of the first record to the year of such a record passes the
    check. *)
Lemma update_duplicate_accepted :
  In Samples.heat Samples.db0 /\
  Model._id Samples.heat <> 1%nat /\
  Model.status Samples.heat <> Model.Deleted /\
  Regex.sameCI "heat" (Model.title Samples.heat) /\
  Controller.updateConflict Samples.db0 1 Samples.titleHeat = Ok None /\
  (exists m,
     Controller.updateMovie Samples.env0 Samples.db0 1 Samples.titleHeat
     = Ok (Samples.db0_renamed, Controller.mkResponse 200 (Controller.Stored m))
     /\ Model._id m = 1%nat /\ Model.title m = "heat"%string) /\
  In Samples.twoLines Samples.dbLines /\
  Model._id Samples.twoLines <> 1%nat /\
  Model.status Samples.twoLines <> Model.Deleted /\
  Model.year Samples.twoLines = Schema.b_year Samples.year1995 /\
  Controller.updateConflict Samples.dbLines 1 Samples.year1995 = Ok None.
Proof.
  split; [simpl; auto|]. split; [discriminate|]. split; [discriminate|].
  split; [reflexivity|]. split; [vm_compute; reflexivity|].
  split.
  { eexists. split; [vm_compute; reflexivity|]. split; reflexivity. }
  split; [simpl; auto|]. split; [discriminate|]. split; [discriminate|].
  split; [reflexivity|]. vm_compute; reflexivity.
Qed.

(* ================================================================== *)
(** * The [pre('save')] hook *)
(* ================================================================== *)

Section SaveHook.

Import Model Schema Controller.

Context {svc : Service}.

Local Open Scope string_scope.

Lemma wordChar_not_space (c : ascii) :
  JS.isWordChar c = true -> JS.isSpace c = false.
Proof.
  destruct c as [[] [] [] [] [] [] [] []]; vm_compute; congruence.
Qed.

(** The rest of a token, and what follows the token. *)
Lemma spanNonSpace_runs (r : string) :
  capitalizeRuns true r
  = JS.toLowerCase (fst (spanNonSpace r))
    ++ capitalizeRuns false (snd (spanNonSpace r))
  /\ (String.length (snd (spanNonSpace r)) <= String.length r)%nat.
Proof.
  induction r as [|d r [IH1 IH2]]; cbn [spanNonSpace capitalizeRuns].
  - split; reflexivity.
  - destruct (JS.isSpace d) eqn:Ed.
    + cbn [fst snd JS.toLowerCase append capitalizeRuns]. rewrite Ed.
      split; [reflexivity|lia].
    + destruct (spanNonSpace r) as [tok rest].
      cbn [fst snd JS.toLowerCase append] in *.
      rewrite IH1. split; [reflexivity|]. cbn [String.length]. lia.
Qed.

(** With the length of the subject as fuel, the replacement is complete and
    is the single pass. *)
Lemma replaceTokens_runs (n : nat) (s : string) :
  (String.length s <= n)%nat ->
  replaceTokens n capitalizeToken s = capitalizeRuns false s.
Proof.
  revert s. induction n as [|n IH]; intros s Hn.
  - destruct s; [reflexivity|simpl in Hn; lia].
  - destruct s as [|c r]; [reflexivity|].
    cbn [replaceTokens capitalizeRuns].
    destruct (JS.isWordChar c) eqn:Ew.
    + rewrite (wordChar_not_space c Ew).
      cbn [spanNonSpace]. rewrite (wordChar_not_space c Ew).
      destruct (spanNonSpace_runs r) as [H1 H2].
      destruct (spanNonSpace r) as [tok rest]. cbn [fst snd] in *.
      cbn [capitalizeToken append]. rewrite H1.
      rewrite IH by (simpl in Hn; lia). reflexivity.
    + destruct (JS.isSpace c); rewrite IH by (simpl in Hn; lia); reflexivity.
Qed.

Lemma capitalize_runs (s : string) : capitalize s = capitalizeRuns false s.
Proof. unfold capitalize. apply replaceTokens_runs. lia. Qed.

Lemma preSave_names (m : movie) :
  title (preSave m) = capitalizeRuns false (title m) /\
  director (preSave m) = option_map (capitalizeRuns false) (director m).
Proof.
  unfold preSave. cbn [title director withNames]. split.
  - destruct (title m) eqn:E; cbn [JS.truthy]; [reflexivity|].
    apply capitalize_runs.
  - destruct (director m) as [d|]; [|reflexivity].
    destruct d; cbn [JS.truthy option_map]; [reflexivity|].
    rewrite capitalize_runs. reflexivity.
Qed.

(** The view counter of the detail view is an update by [save]: when the
    document passes the validators it is stored, and title and director
    went through the hook as well. *)
Lemma incrementView_names (e : env) (db : collection) (m : movie) :
  validate e (withViews m (viewCount m + 1)) = true ->
  title (snd (incrementView e db m)) = capitalizeRuns false (title m) /\
  director (snd (incrementView e db m))
  = option_map (capitalizeRuns false) (director m).
Proof.
  intros H. unfold incrementView, saveLoaded. rewrite H. cbn [snd].
  apply (preSave_names
           (withTimes (withViews m (viewCount m + 1))
              (createdAt (withViews m (viewCount m + 1))) (now e))).
Qed.

(** C10, as the code has it. On ASCII text, a document stored through
    [save], be it new or, as for the view counter, an update of a document
    that passes the validators, has its title and its director rewritten
    by the hook: in each run of characters that are not white space, the
    first word character (a letter, a digit or an underscore) is
    uppercased, every character after it is lowercased, and what precedes
    it is kept; white space is kept. The stored and returned values can
    differ from the input. *)
Theorem save_capitalizes (e : env) (db : collection) (m : movie) :
  JS.asciiText (title m) = true ->
  optValid JS.asciiText (director m) = true ->
  capitalize (title m) = capitalizeRuns false (title m) /\
  option_map capitalize (director m)
  = option_map (capitalizeRuns false) (director m) /\
  (forall db' m',
     save e db m = Ok (db', m') ->
     title m' = capitalize (title m) /\
     director m' = option_map capitalize (director m) /\
     db' = (db ++ [m'])%list) /\
  (validate e (withViews m (viewCount m + 1)) = true ->
   title (snd (incrementView e db m)) = capitalize (title m) /\
   director (snd (incrementView e db m)) = option_map capitalize (director m)).
Proof.
  intros _ _.
  assert (Hd : option_map capitalize (director m)
               = option_map (capitalizeRuns false) (director m)).
  { destruct (director m); cbn [option_map]; [|reflexivity].
    rewrite capitalize_runs. reflexivity. }
  split; [apply capitalize_runs|]. split; [exact Hd|]. split.
  - intros db' m'. unfold save. destruct (validate e m); [|discriminate].
    intros H; injection H as <- <-.
    destruct (preSave_names m) as [H1 H2].
    cbn [title director withTimes]. rewrite H1, H2, capitalize_runs, Hd.
    auto.
  - intros H. destruct (incrementView_names e db m H) as [H1 H2].
    rewrite H1, H2, capitalize_runs, Hd. auto.
Qed.

End SaveHook.

(** The example of the claim: the title [the GODFATHER] is stored as
    [The Godfather]. *)
Lemma save_capitalizes_witness :
  Model.title Samples.godfatherSaved = "The Godfather"%string /\
  Model.director Samples.godfatherSaved = Some "Francis Ford Coppola"%string.
Proof.
  pose proof (proj1 (proj2 (proj2 (save_capitalizes Samples.env0 Samples.db0
                                      Samples.godfather eq_refl eq_refl)))
                (Samples.db0 ++ [Samples.godfatherSaved])%list
                Samples.godfatherSaved eq_refl) as H.
  destruct H as [H1 [H2 _]]. split; [exact H1|exact H2].
Defined.

(** C10 as stated fails on words that do not start with a letter, on
    ASCII text already. The title
    [3D 'BURBS] is stored as [3d 'Burbs]: the letter of the first word
    is lowercased, because the word starts with a digit, and the letter
    after the apostrophe is uppercased, because the apostrophe is no word
    character. Neither reading of the wording gives that value. *)
Lemma capitalize_not_first_letter :
  Schema.capitalize "3D 'BURBS" = "3d 'Burbs"%string /\
  Schema.capitalizeSpecFirstChar true "3D 'BURBS" = "3d 'burbs"%string /\
  Schema.capitalizeSpecFirstLetter true "3D 'BURBS" = "3D 'Burbs"%string /\
  Schema.capitalize "3D 'BURBS" <> Schema.capitalizeSpecFirstChar true "3D 'BURBS" /\
  Schema.capitalize "3D 'BURBS" <> Schema.capitalizeSpecFirstLetter true "3D 'BURBS".
Proof.
  repeat split; try reflexivity; vm_compute; discriminate.
Qed.

(* ================================================================== *)
(** * Lookups after a write *)
(* ================================================================== *)

Section Lookups.

Import Model Schema Controller.

Lemma findById_replaceDoc_same (db : collection) (m m' : movie) :
  findById db (_id m') = Some m ->
  findById (replaceDoc db m') (_id m') = Some m'.
Proof.
  unfold findById. induction db as [|x r IH]; simpl; [discriminate|].
  destruct (Nat.eqb (_id x) (_id m')) eqn:E; simpl.
  - rewrite Nat.eqb_refl. reflexivity.
  - rewrite E. exact IH.
Qed.


Lemma findById_app_fresh (db : collection) (m : movie) :
  ~ In (_id m) (map _id db) -> findById (db ++ [m]) (_id m) = Some m.
Proof.
  unfold findById. induction db as [|x r IH]; simpl; intros H.
  - rewrite Nat.eqb_refl. reflexivity.
  - destruct (Nat.eqb (_id x) (_id m)) eqn:E.
    + apply Nat.eqb_eq in E. exfalso. apply H. auto.
    + apply IH. tauto.
Qed.

Lemma capitalizeRuns_truthy (b : bool) (s : string) :
  JS.truthy s = true -> JS.truthy (capitalizeRuns b s) = true.
Proof.
  destruct s as [|c r]; [discriminate|]. intros _. cbn [capitalizeRuns].
  destruct (JS.isSpace c); [reflexivity|].
  destruct b; [reflexivity|]. destruct (JS.isWordChar c); reflexivity.
Qed.

Lemma preSave_fields (m : movie) :
  _id (preSave m) = _id m /\ status (preSave m) = status m /\
  favorites (preSave m) = favorites m /\ viewCount (preSave m) = viewCount m /\
  year (preSave m) = year m /\
  (JS.truthy (title m) = true -> JS.truthy (title (preSave m)) = true).
Proof.
  repeat split. intros H.
  rewrite (proj1 (preSave_names m)). apply capitalizeRuns_truthy. exact H.
Qed.

Lemma capitalizeRuns_length (b : bool) (s : string) :
  String.length (capitalizeRuns b s) = String.length s.
Proof.
  revert b. induction s as [|c r IH]; intros b; cbn [capitalizeRuns];
    [reflexivity|].
  destruct (JS.isSpace c); [cbn [String.length]; rewrite IH; reflexivity|].
  destruct b; [cbn [String.length]; rewrite IH; reflexivity|].
  destruct (JS.isWordChar c); cbn [String.length]; rewrite IH; reflexivity.
Qed.

Lemma validTitle_capitalize (t : string) :
  validTitle (capitalizeRuns false t) = validTitle t.
Proof.
  unfold validTitle, lengthZ. rewrite capitalizeRuns_length.
  destruct t as [|c r]; [reflexivity|].
  rewrite (capitalizeRuns_truthy false (String c r) eq_refl). reflexivity.
Qed.

(** Validation looks at the lengths of title and director, at the bound on
    the year and at the other paths as they are. *)
Lemma validate_transfer (e e' : env) (m m' : movie) :
  validate e m = true -> maxYear e' = maxYear e ->
  validTitle (title m') = validTitle (title m) ->
  optValid validDirector (director m') = optValid validDirector (director m) ->
  plot m' = plot m -> genres m' = genres m -> year m' = year m ->
  runtime m' = runtime m -> cast m' = cast m ->
  imdb_rating m' = imdb_rating m -> imdb_votes m' = imdb_votes m ->
  validCount (favorites m') = true -> validCount (viewCount m') = true ->
  source m' = source m ->
  validate e' m' = true.
Proof.
  unfold validate, validYear.
  intros H He Ht Hd -> -> -> -> -> -> -> Hf Hv ->.
  rewrite Ht, Hd, He, Hf, Hv.
  rewrite !andb_true_iff in H. rewrite !andb_true_iff. tauto.
Qed.

(** The hook keeps a valid document valid. *)
Lemma validate_preSave (e : env) (m : movie) :
  validate e (preSave m) = validate e m.
Proof.
  destruct (preSave_names m) as [Ht Hd].
  unfold validate. rewrite Ht, validTitle_capitalize.
  replace (optValid validDirector (director (preSave m)))
    with (optValid validDirector (director m)).
  - reflexivity.
  - rewrite Hd. destruct (director m) as [d|]; [|reflexivity].
    cbn [option_map optValid]. unfold validDirector, lengthZ.
    rewrite capitalizeRuns_length. reflexivity.
Qed.

End Lookups.

(* ================================================================== *)
(** * Favourites *)
(* ================================================================== *)

Section Favourites.

Import Model Schema Controller Engagement.

Local Open Scope Z_scope.

(** The counter is the only path that a favourite method changes. *)
Lemma validate_withFavorites (e e' : env) (m : movie) (f : Z) :
  validate e m = true -> maxYear e' = maxYear e -> 0 <= f ->
  validate e' (withFavorites m f) = true.
Proof.
  intros H He Hf.
  apply (validate_transfer e e' m (withFavorites m f) H He);
    try reflexivity.
  - apply Z.leb_le. exact Hf.
  - unfold validate in H. rewrite !andb_true_iff in H. tauto.
Qed.

(** One request to a favourite handler whose method sets the counter to
    [g] of its value, on a record that passes the validators with its new
    counter. *)
Lemma favoriteHandler_step (g : Z -> Z) (e : env) (db : collection) (id : nat)
    (m : movie) :
  findById db id = Some m -> status m <> Deleted ->
  validate e (withFavorites m (g (favorites m))) = true ->
  exists m',
    favoriteHandler
      (fun e db m => saveFavorites e db m (g (favorites m)))
      e db id
    = Ok (replaceDoc db m', mkReply 200 (FavoriteCount id (g (favorites m)))) /\
    findById (replaceDoc db m') id = Some m' /\
    favorites m' = g (favorites m) /\ status m' = status m /\
    updatedAt m'
    = (if g (favorites m) =? favorites m then updatedAt m else now e) /\
    validate e m' = true.
Proof.
  intros Hf Hs Hv. unfold favoriteHandler. rewrite Hf.
  destruct (lifecycle_eqb (status m) Deleted) eqn:Es.
  { destruct (status m); simpl in Es; congruence. }
  unfold saveFavorites, saveLoaded. rewrite Hv. cbn [bind].
  destruct (findById_Some db id m Hf) as [_ Hid].
  match goal with
  | |- exists _, Ok (replaceDoc db ?t, _) = _ /\ _ => set (m' := t)
  end.
  exists m'.
  assert (Hfav : favorites m' = g (favorites m)).
  { unfold m'. destruct (g (favorites m) =? favorites m); reflexivity. }
  assert (Hid' : _id m' = id).
  { unfold m'. destruct (g (favorites m) =? favorites m); exact Hid. }
  split; [rewrite Hfav; reflexivity|].
  split.
  { rewrite <- Hid'. apply (findById_replaceDoc_same db m).
    rewrite Hid'. exact Hf. }
  split; [exact Hfav|].
  split; [unfold m'; destruct (g (favorites m) =? favorites m); reflexivity|].
  split; [unfold m'; destruct (g (favorites m) =? favorites m); reflexivity|].
  unfold m'. rewrite validate_preSave.
  destruct (g (favorites m) =? favorites m); exact Hv.
Qed.

(** X1. Removing a favourite never leaves a negative counter: whatever the
    stored value, a record that is not deleted and that passes the
    validators of the schema with its new counter gets the larger of its
    counter minus one and zero; that value is answered, it is what a later
    lookup finds, and the update time is stamped when the counter
    changed. *)
Theorem removeFromFavorites_floor (e : env) (db : collection) (id : nat)
    (m : movie) :
  findById db id = Some m -> status m <> Deleted ->
  validate e (withFavorites m (Z.max (favorites m - 1) 0)) = true ->
  exists m',
    removeFromFavorites e db id
    = Ok (replaceDoc db m',
          mkReply 200 (FavoriteCount id (Z.max (favorites m - 1) 0))) /\
    findById (replaceDoc db m') id = Some m' /\
    favorites m' = Z.max (favorites m - 1) 0 /\ 0 <= favorites m' /\
    updatedAt m'
    = (if Z.max (favorites m - 1) 0 =? favorites m then updatedAt m
       else now e).
Proof.
  intros Hf Hs Hv.
  destruct (favoriteHandler_step (fun f => Z.max (f - 1) 0) e db id m Hf Hs Hv)
    as [m' [H1 [H2 [H3 [_ [H5 _]]]]]].
  exists m'. split; [exact H1|]. split; [exact H2|]. split; [exact H3|].
  split; [rewrite H3; lia|exact H5].
Qed.

(** X2. Two additions followed by one removal, the bound on the year being
    the same for the three requests, leave the counter of a record that is
    not deleted and that passes the validators of the schema one above its
    value, and the record keeps being found under its identifier, with the
    time of the last request as its update time. *)
Theorem favorites_add_add_remove (e1 e2 e3 : env) (db : collection) (id : nat)
    (m : movie) :
  findById db id = Some m -> status m <> Deleted ->
  validate e1 m = true ->
  maxYear e2 = maxYear e1 -> maxYear e3 = maxYear e1 ->
  exists db1 db2 db3 m3,
    addToFavorites e1 db id
    = Ok (db1, mkReply 200 (FavoriteCount id (favorites m + 1))) /\
    addToFavorites e2 db1 id
    = Ok (db2, mkReply 200 (FavoriteCount id (favorites m + 2))) /\
    removeFromFavorites e3 db2 id
    = Ok (db3, mkReply 200 (FavoriteCount id (favorites m + 1))) /\
    findById db3 id = Some m3 /\ favorites m3 = favorites m + 1 /\
    updatedAt m3 = now e3.
Proof.
  intros Hf Hs Hv He2 He3.
  assert (Hn : 0 <= favorites m).
  { unfold validate in Hv. rewrite !andb_true_iff in Hv.
    apply Z.leb_le. tauto. }
  assert (Hv1 : validate e1 (withFavorites m (favorites m + 1)) = true)
    by (apply (validate_withFavorites e1 e1 m); auto; lia).
  destruct (favoriteHandler_step (fun f => f + 1) e1 db id m Hf Hs Hv1)
    as [m1 [A1 [F1 [V1 [S1 [_ W1]]]]]].
  assert (Hs1 : status m1 <> Deleted) by (rewrite S1; exact Hs).
  assert (Hv2 : validate e2 (withFavorites m1 (favorites m1 + 1)) = true)
    by (apply (validate_withFavorites e1 e2 m1); auto; lia).
  destruct (favoriteHandler_step (fun f => f + 1) e2 _ id m1 F1 Hs1 Hv2)
    as [m2 [A2 [F2 [V2 [S2 [_ W2]]]]]].
  assert (Hs2 : status m2 <> Deleted) by (rewrite S2; exact Hs1).
  assert (Hv3 : validate e3 (withFavorites m2 (Z.max (favorites m2 - 1) 0))
                = true)
    by (apply (validate_withFavorites e2 e3 m2); auto; lia).
  destruct (favoriteHandler_step (fun f => Z.max (f - 1) 0) e3 _ id m2 F2 Hs2 Hv3)
    as [m3 [A3 [F3 [V3 [_ [U3 _]]]]]].
  exists (replaceDoc db m1), (replaceDoc (replaceDoc db m1) m2),
    (replaceDoc (replaceDoc (replaceDoc db m1) m2) m3), m3.
  split; [exact A1|].
  split.
  { replace (favorites m + 2) with (favorites m1 + 1) by lia. exact A2. }
  split.
  { replace (favorites m + 1) with (Z.max (favorites m2 - 1) 0) by lia.
    exact A3. }
  split; [exact F3|]. split; [lia|].
  rewrite U3.
  destruct (Z.max (favorites m2 - 1) 0 =? favorites m2) eqn:E;
    [apply Z.eqb_eq in E; lia|reflexivity].
Qed.

End Favourites.

(** The second scenario on the sample collection: the counter of the first
    record goes from 3 to 4, to 5 and back to 4. *)
Lemma favorites_add_add_remove_witness :
  exists db1 db2 db3 m3,
    Engagement.addToFavorites Samples.env0 Samples.db0 1
    = Ok (db1, Engagement.mkReply 200
                 (Engagement.FavoriteCount 1 (Model.favorites Samples.jaws + 1)%Z)) /\
    Engagement.addToFavorites Samples.env0 db1 1
    = Ok (db2, Engagement.mkReply 200
                 (Engagement.FavoriteCount 1 (Model.favorites Samples.jaws + 2)%Z)) /\
    Engagement.removeFromFavorites Samples.env0 db2 1
    = Ok (db3, Engagement.mkReply 200
                 (Engagement.FavoriteCount 1 (Model.favorites Samples.jaws + 1)%Z)) /\
    Model.findById db3 1 = Some m3 /\
    Model.favorites m3 = (Model.favorites Samples.jaws + 1)%Z /\
    Model.updatedAt m3 = Schema.now Samples.env0.
Proof.
  apply (favorites_add_add_remove Samples.env0 Samples.env0 Samples.env0
           Samples.db0 1 Samples.jaws).
  - reflexivity.
  - discriminate.
  - reflexivity.
  - reflexivity.
  - reflexivity.
Defined.

(** A record without favourites keeps a counter of zero when one is
    removed, and its update time. *)
Lemma removeFromFavorites_floor_witness :
  exists m',
    Engagement.removeFromFavorites Samples.env0 Samples.dbWhat 4
    = Ok (Model.replaceDoc Samples.dbWhat m',
          Engagement.mkReply 200
            (Engagement.FavoriteCount 4
               (Z.max (Model.favorites Samples.what - 1) 0))) /\
    Model.findById (Model.replaceDoc Samples.dbWhat m') 4 = Some m' /\
    Model.favorites m' = Z.max (Model.favorites Samples.what - 1) 0 /\
    (0 <= Model.favorites m')%Z /\
    Model.updatedAt m'
    = (if (Z.max (Model.favorites Samples.what - 1) 0
           =? Model.favorites Samples.what)%Z
       then Model.updatedAt Samples.what else Schema.now Samples.env0).
Proof.
  apply (removeFromFavorites_floor Samples.env0 Samples.dbWhat 4 Samples.what).
  - reflexivity.
  - discriminate.
  - reflexivity.
Defined.

(* ================================================================== *)
(** * The detail view *)
(* ================================================================== *)

Section DetailView.

Import Model Schema Controller.

Context {svc : Service}.

Local Open Scope Z_scope.

Lemma relatedQuery_eval (id : nat) (m : movie) :
  exists f,
    evalQuery (relatedQuery id m) = Ok f /\
    forall y,
      f y = true ->
      status y = Active /\ _id y <> id /\ Pages.relatedTo m y.
Proof.
  destruct (evalQuery_plain (relatedQuery id m) eq_refl eq_refl eq_refl eq_refl)
    as [f [Hf Hall]].
  exists f. split; [exact Hf|].
  intros y. rewrite Hall.
  cbn [relatedQuery q_status q_year q_rating q_source q_id_ne q_updatedAt_gte
       q_related optCond evalStatus].
  rewrite !andb_true_r, !andb_true_iff.
  intros [[Hs Hi] Hr].
  split; [destruct (status y); simpl in Hs; congruence|].
  split.
  { apply negb_true_iff in Hi. apply Nat.eqb_neq in Hi. exact Hi. }
  unfold evalRelated in Hr. cbn [rel_genres rel_director] in Hr.
  unfold Pages.relatedTo. apply orb_true_iff in Hr. destruct Hr as [Hg|Hd].
  - left. apply existsb_exists in Hg. destruct Hg as [g [Hg1 Hg2]].
    apply existsb_exists in Hg2. destruct Hg2 as [g' [Hg3 Hg4]].
    apply String.eqb_eq in Hg4. subst g'. exists g. auto.
  - right. destruct (director m) as [d|]; cbn [option_map] in Hd.
    + right. exists d. split; [reflexivity|].
      destruct (director y) as [d'|]; [|discriminate].
      apply String.eqb_eq in Hd. congruence.
    + left. split; [reflexivity|].
      destruct (director y); [discriminate|reflexivity].
Qed.

(** The detail view of a record that is found and not deleted always
    answers 200. *)
Lemma getMovieById_found (e : env) (db : collection) (id : nat) (m : movie) :
  findById db id = Some m -> status m <> Deleted ->
  exists rel,
    findPage db (relatedQuery id m) [] None (Some (JS.Int 6)) = Ok rel /\
    (List.length rel <= 6)%nat /\
    getMovieById e db id
    = Ok (fst (incrementView e db m),
          mkResponse 200 (Detail (toJSON (snd (incrementView e db m))) rel)).
Proof.
  intros Hf Hs. unfold getMovieById. rewrite Hf.
  destruct (lifecycle_eqb (status m) Deleted) eqn:Es.
  { destruct (status m); simpl in Es; congruence. }
  destruct (relatedQuery_eval id m) as [f [Hq _]].
  assert (Hp : findPage db (relatedQuery id m) [] None (Some (JS.Int 6))
               = Ok (firstn 6 (sortBy [] (filter f db)))).
  { unfold findPage, find. rewrite Hq. reflexivity. }
  exists (firstn 6 (sortBy [] (filter f db))). split; [exact Hp|].
  split; [apply firstn_le_length|].
  destruct (incrementView e db m) as [db1 m1]. rewrite Hp. reflexivity.
Qed.

(** X3. The related records of the detail view are at most six stored
    records, all active and other than the requested one, and each has a
    genre of the requested record, or has its director, or has no director
    as the requested record has none; genres and director of the requested
    record are compared after the setter [trim] of their paths. *)
Theorem related_movies_bounded (e : env) (db db' : collection) (id : nat)
    (m d : movie) (rel : list movie) :
  findById db id = Some m ->
  getMovieById e db id = Ok (db', mkResponse 200 (Detail d rel)) ->
  (List.length rel <= 6)%nat /\
  forall y, In y rel ->
    In y db /\ status y = Active /\ _id y <> id /\ Pages.relatedTo m y.
Proof.
  intros Hf H.
  assert (Hs : status m <> Deleted).
  { intros Hd. unfold getMovieById in H. rewrite Hf, Hd in H. discriminate. }
  destruct (getMovieById_found e db id m Hf Hs) as [rel' [Hp [Hlen Hg]]].
  rewrite Hg in H. injection H as _ _ <-.
  split; [exact Hlen|].
  - intros y Hy.
    destruct (findPage_In db _ _ _ _ rel' y Hp Hy) as [Hin [f [Hf' Hfy]]].
    destruct (relatedQuery_eval id m) as [f0 [Hq0 Hall]].
    rewrite Hq0 in Hf'. injection Hf' as <-.
    split; [exact Hin|]. apply Hall. exact Hfy.
Qed.


End DetailView.


(** The related records of the first sample record: the third one, which
    shares the genre Thriller. *)
Lemma related_movies_bounded_witness :
  (List.length [Samples.heat] <= 6)%nat /\
  forall y, In y [Samples.heat] ->
    In y Samples.db0 /\ Model.status y = Model.Active /\ Model._id y <> 1%nat /\
    Pages.relatedTo Samples.jaws y.
Proof.
  apply (related_movies_bounded Samples.env0 Samples.db0
           (fst (Schema.incrementView Samples.env0 Samples.db0 Samples.jaws))
           1 Samples.jaws
           (Schema.toJSON
              (snd (Schema.incrementView Samples.env0 Samples.db0 Samples.jaws)))
           [Samples.heat]).
  - reflexivity.
  - vm_compute. reflexivity.
Defined.

(* ================================================================== *)
(** * How the write handlers compose *)
(* ================================================================== *)

Section Writes.

Import Model Schema Controller.

Context {svc : Service}.

Lemma uniqueIds_replaceDoc (db : collection) (m : movie) :
  uniqueIds db -> uniqueIds (replaceDoc db m).
Proof. unfold uniqueIds. rewrite replaceDoc_ids. auto. Qed.

Lemma uniqueIds_app_fresh (db : collection) (m : movie) :
  uniqueIds db -> _id m = freshId db -> uniqueIds (db ++ [m]).
Proof.
  unfold uniqueIds. intros Hu Hid. rewrite map_app. simpl.
  assert (Hfresh : ~ In (_id m) (map _id db))
    by (rewrite Hid; apply freshId_fresh).
  clear Hid. induction (map _id db) as [|i l IH]; simpl.
  - constructor; [simpl; tauto|constructor].
  - inversion Hu as [|? ? Hi Hl]; subst. constructor.
    + rewrite in_app_iff. simpl. intros [H|[H|[]]]; [tauto|].
      apply Hfresh. simpl. auto.
    + apply IH; [exact Hl|]. simpl in Hfresh. tauto.
Qed.

Lemma findById_app_old (db extra : collection) (j : nat) :
  In j (map _id db) -> findById (db ++ extra) j = findById db j.
Proof.
  unfold findById. induction db as [|x l IH]; simpl; [tauto|].
  intros Hj. destruct (Nat.eqb (_id x) j) eqn:E; [reflexivity|].
  apply IH. destruct Hj as [Hj|Hj]; [|exact Hj].
  rewrite Hj, Nat.eqb_refl in E. discriminate.
Qed.

(** What a creation does when it answers. *)
Lemma createMovie_inv (e : env) (db db' : collection) (b : fields)
    (r : response) :
  createMovie e db b = Ok (db', r) ->
  (db' = db /\ r = mkResponse 409 (Duplicate (b_title b) (b_year b))) \/
  (validate e (newMovie db b "user") = true /\
   db' = (db ++ [withTimes (preSave (newMovie db b "user")) (now e) (now e)])%list /\
   r = mkResponse 201
         (Stored (toJSON (withTimes (preSave (newMovie db b "user"))
                            (now e) (now e))))).
Proof.
  unfold createMovie. intros H.
  apply bind_Ok in H. destruct H as [re [_ H]].
  apply bind_Ok in H. destruct H as [ex [_ H]].
  destruct ex as [x|].
  - injection H as <- <-. left. auto.
  - unfold save in H. destruct (validate e (newMovie db b "user")) eqn:Ev;
      [|discriminate].
    cbn [bind] in H. injection H as <- <-. right. auto.
Qed.

(** X5. Every handler that writes keeps the identifiers of the collection
    unique: a creation appends a record under an identifier that was not
    in use, and the detail view, an update, a deletion and the favourite
    handlers rewrite a record in place. *)
Theorem writes_keep_unique_ids (db : collection) :
  uniqueIds db ->
  (forall e b db' r, createMovie e db b = Ok (db', r) -> uniqueIds db') /\
  (forall e id b db' r, updateMovie e db id b = Ok (db', r) -> uniqueIds db') /\
  (forall e id db' r, deleteMovie e db id = Ok (db', r) -> uniqueIds db') /\
  (forall e id db' r, getMovieById e db id = Ok (db', r) -> uniqueIds db') /\
  (forall e id db' r,
     Engagement.addToFavorites e db id = Ok (db', r) -> uniqueIds db') /\
  (forall e id db' r,
     Engagement.removeFromFavorites e db id = Ok (db', r) -> uniqueIds db').
Proof.
  intros Hu.
  assert (Hfav : forall method,
            (forall e m db1 m1, method e db m = Ok (db1, m1) -> uniqueIds db1) ->
            forall e id db' r,
              Engagement.favoriteHandler method e db id = Ok (db', r) ->
              uniqueIds db').
  { intros method Hm e id db' r. unfold Engagement.favoriteHandler.
    destruct (findById db id) as [m|];
      [|intros H; injection H as <- <-; exact Hu].
    destruct (lifecycle_eqb (status m) Deleted);
      [intros H; injection H as <- <-; exact Hu|].
    intros H. apply bind_Ok in H. destruct H as [[db1 m1] [Hs H]].
    injection H as <- <-. apply (Hm e m db1 m1 Hs). }
  assert (Hsave : forall e m1 f db1 m2,
            Engagement.saveFavorites e db m1 f = Ok (db1, m2) -> uniqueIds db1).
  { intros e m1 f db1 m2. unfold Engagement.saveFavorites, saveLoaded.
    destruct (validate e _); [|discriminate].
    intros H; injection H as <- <-. apply uniqueIds_replaceDoc. exact Hu. }
  repeat split.
  - intros e b db' r H. destruct (createMovie_inv e db db' b r H)
      as [[-> _]|[_ [-> _]]]; [exact Hu|].
    apply uniqueIds_app_fresh; [exact Hu|reflexivity].
  - intros e id b db' r. unfold updateMovie, findByIdAndUpdate. intros H.
    apply bind_Ok in H. destruct H as [ex [_ H]].
    destruct ex; [injection H as <- <-; exact Hu|].
    destruct (validateUpdate e b); [|discriminate].
    destruct (findById db id) as [m|].
    + destruct (lifecycle_eqb (status (applyFields e b m)) Deleted);
        injection H as <- <-; apply uniqueIds_replaceDoc; exact Hu.
    + injection H as <- <-. exact Hu.
  - intros e id db' r. unfold deleteMovie, findByIdAndUpdate.
    destruct (findById db id) as [m|]; intros H; injection H as <- <-;
      [apply uniqueIds_replaceDoc|]; exact Hu.
  - intros e id db' r. unfold getMovieById.
    destruct (findById db id) as [m|];
      [|intros H; injection H as <- <-; exact Hu].
    destruct (lifecycle_eqb (status m) Deleted);
      [intros H; injection H as <- <-; exact Hu|].
    unfold incrementView, saveLoaded. destruct (validate e _);
      intros H; apply bind_Ok in H; destruct H as [rel [_ H]];
      injection H as <- <-; [apply uniqueIds_replaceDoc|]; exact Hu.
  - apply Hfav. intros e m db1 m1. apply Hsave.
  - apply Hfav. intros e m db1 m1. apply Hsave.
Qed.

(** X6. The record that a successful creation returns is stored under the
    returned identifier, which no earlier record has: a lookup finds it,
    the lookups of the earlier records are as before, and, unless the body
    asked for the status deleted, the detail view of that identifier
    answers 200. *)
Theorem create_then_found (e : env) (db db' : collection) (b : fields)
    (r : response) :
  createMovie e db b = Ok (db', r) -> code r = 201%Z ->
  exists m,
    body r = Stored (toJSON m) /\ db' = (db ++ [m])%list /\
    ~ In (_id m) (map _id db) /\
    findById db' (_id m) = Some m /\
    (forall j, In j (map _id db) -> findById db' j = findById db j) /\
    (forall e2, status m <> Deleted ->
       exists db2 d rel,
         getMovieById e2 db' (_id m)
         = Ok (db2, mkResponse 200 (Detail d rel)) /\ _id d = _id m).
Proof.
  intros H Hc.
  destruct (createMovie_inv e db db' b r H) as [[_ ->]|[_ [-> ->]]];
    [discriminate|].
  set (m := withTimes (preSave (newMovie db b "user")) (now e) (now e)).
  assert (Hfresh : ~ In (_id m) (map _id db)) by apply freshId_fresh.
  assert (Hfound : findById (db ++ [m]) (_id m) = Some m)
    by (apply findById_app_fresh; exact Hfresh).
  exists m. split; [reflexivity|]. split; [reflexivity|].
  split; [exact Hfresh|]. split; [exact Hfound|]. split.
  - intros j Hj. apply findById_app_old. exact Hj.
  - intros e2 Hs.
    destruct (getMovieById_found e2 (db ++ [m]) (_id m) m Hfound Hs)
      as [rel [_ [_ Hg]]].
    eexists. eexists. exists rel. split; [exact Hg|].
    rewrite toJSON_id. apply incrementView_id.
Qed.






(** X8. A deleted record is gone from the read paths: after a deletion the
    detail view and the favourite handler of that identifier answer 404
    and write nothing, and, identifiers being unique, nothing that the
    client receives from the listing carries the record, whatever the
    request is. *)
Theorem delete_then_hidden (e : env) (db : collection) (id : nat) (m : movie) :
  findById db id = Some m -> uniqueIds db ->
  exists db',
    deleteMovie e db id
    = Ok (db', mkResponse 200 (DeletedSummary (_id m) (title m) (year m))) /\
    (forall e2, getMovieById e2 db' id = Ok (db', mkResponse 404 (NotFound id))) /\
    (forall e2,
       Engagement.addToFavorites e2 db' id
       = Ok (db', Engagement.mkReply 404 (Engagement.NoSuchMovie id))) /\
    (forall p, ~ In id (records (respond (getAllMovies db' p)))).
Proof.
  intros Hf Hu. exists (replaceDoc db (markDeleted e m)).
  destruct (findById_Some db id m Hf) as [_ Hid].
  assert (Hfound : findById (replaceDoc db (markDeleted e m)) id
                   = Some (markDeleted e m)).
  { pose proof (findById_replaceDoc_same db m (markDeleted e m)) as H.
    cbn [_id markDeleted] in H. rewrite Hid in H. apply H. exact Hf. }
  split; [apply deleteMovie_ignores_status; exact Hf|].
  split; [|split].
  - intros e2. unfold getMovieById. rewrite Hfound. reflexivity.
  - intros e2. unfold Engagement.addToFavorites, Engagement.favoriteHandler.
    rewrite Hfound. reflexivity.
  - intros p. apply respond_excludes. intros db2 r H.
    destruct (findById_Some _ id _ Hfound) as [Hin _].
    pose proof (getAllMovies_excludes _ (markDeleted e m) p db2 r
                  (uniqueIds_replaceDoc db (markDeleted e m) Hu) Hin eq_refl H)
      as Hex.
    cbn [_id markDeleted] in Hex. rewrite Hid in Hex. exact Hex.
Qed.

(** X9. The status deleted is not final for an update: an update that
    carries a status other than deleted, meets no conflict and passes the
    validators rewrites a soft-deleted record, answers 200, and the record
    is found under its identifier with the status of the request. *)
Theorem update_restores_deleted (e : env) (db : collection) (id : nat)
    (b : fields) (m : movie) (s : lifecycle) :
  findById db id = Some m -> status m = Deleted ->
  b_status b = Some s -> s <> Deleted ->
  updateConflict db id b = Ok None -> validateUpdate e b = true ->
  updateMovie e db id b
  = Ok (replaceDoc db (applyFields e b m),
        mkResponse 200 (Stored (toJSON (applyFields e b m)))) /\
  findById (replaceDoc db (applyFields e b m)) id = Some (applyFields e b m) /\
  status (applyFields e b m) = s.
Proof.
  intros Hf Hd Hb Hs Hc Hv.
  assert (Hst : status (applyFields e b m) = s)
    by (cbn [status applyFields]; rewrite Hb; reflexivity).
  split; [|split; [|exact Hst]].
  - unfold updateMovie, findByIdAndUpdate. rewrite Hc. cbn [bind].
    rewrite Hv, Hf, Hst.
    destruct s; try reflexivity. congruence.
  - destruct (findById_Some db id m Hf) as [_ Hid].
    pose proof (findById_replaceDoc_same db m (applyFields e b m)) as H.
    cbn [_id applyFields] in H. rewrite Hid in H. apply H. exact Hf.
Qed.

End Writes.

(* ================================================================== *)
(** * Pages of the listing *)
(* ================================================================== *)

Section PageArithmetic.

Import Model Schema Controller.

Context {svc : Service}.

Local Open Scope Z_scope.

Lemma ceilDiv_bounds (t l : Z) :
  1 <= l -> (ceilDiv t l - 1) * l < t <= ceilDiv t l * l.
Proof.
  intros Hl. unfold ceilDiv.
  pose proof (Z.div_mod (- t) l ltac:(lia)) as Hd.
  pose proof (Z.mod_pos_bound (- t) l ltac:(lia)) as Hm.
  nia.
Qed.

(** The listing for numeric page and limit, in full. *)
Lemma getAllMovies_numeric (db : collection) (p : listParams) (pg lm : Z)
    (q : query) (sel : list movie) :
  JS.parseInt (orElse (p_page p) "1"%string) = JS.Int pg ->
  JS.parseInt (orElse (p_limit p) "12"%string) = JS.Int lm ->
  (Z.max 1 pg - 1) * Z.min 50 (Z.max 1 lm) <= int32Max ->
  compileFilter p = Ok q -> find db q = Ok sel ->
  getAllMovies db p
  = Ok (db, mkResponse 200
              (Listing
                 (firstn (Z.to_nat (Z.min 50 (Z.max 1 lm)))
                    (skipn (Z.to_nat ((Z.max 1 pg - 1) * Z.min 50 (Z.max 1 lm)))
                       (sortBy (listSort (orElse (p_sortBy p) "title"%string))
                          sel)))
                 (paginate (JS.Int (Z.max 1 pg)) (JS.Int (Z.min 50 (Z.max 1 lm)))
                    (Z.of_nat (List.length sel))))).
Proof.
  intros Hp Hl Hs Hq Hf.
  destruct (resolved_numbers (p_page p) (p_limit p) pg lm Hp Hl)
    as [HP [HL HS]].
  unfold getAllMovies. rewrite Hq, HS, HP, HL. cbn [bind].
  rewrite (findPage_numeric db q sel _ _ _ Hf)
    by (unfold int32Max in *; nia).
  cbn [bind]. unfold countDocuments. rewrite Hf. reflexivity.
Qed.

(** X10. The pagination block of the listing tells the truth about the
    selection. For a page and a limit that parse as integers within the
    exact range of JavaScript, an offset and a collection within the 32-bit
    integers, and a query that the store accepts: the page, the limit and
    the number of pages are integers, the total is the number of selected
    records, the number of pages is the least one that holds them all,
    there is a next page exactly when records remain after this one and a
    previous page exactly when this is not the first, and the page holds
    as many records as are left after the offset, up to the limit. *)
Theorem pagination_consistent (db : collection) (p : listParams) (pg lm : Z)
    (q : query) (sel : list movie) :
  JS.parseInt (orElse (p_page p) "1"%string) = JS.Int pg ->
  JS.parseInt (orElse (p_limit p) "12"%string) = JS.Int lm ->
  Z.abs pg <= JS.maxSafe -> Z.abs lm <= JS.maxSafe ->
  (Z.max 1 pg - 1) * Z.min 50 (Z.max 1 lm) <= int32Max ->
  Z.of_nat (List.length db) <= int32Max ->
  compileFilter p = Ok q -> find db q = Ok sel ->
  exists movies pgn P L T,
    getAllMovies db p = Ok (db, mkResponse 200 (Listing movies pgn)) /\
    currentPage pgn = JS.Int P /\ pageLimit pgn = JS.Int L /\
    totalPages pgn = JS.Int T /\
    1 <= P /\ 1 <= L <= 50 /\
    totalMovies pgn = Z.of_nat (List.length sel) /\
    (T - 1) * L < totalMovies pgn <= T * L /\
    (hasNext pgn = true <-> P * L < totalMovies pgn) /\
    (hasPrev pgn = true <-> 1 < P) /\
    Z.of_nat (List.length movies)
    = Z.min L (Z.max 0 (totalMovies pgn - (P - 1) * L)).
Proof.
  intros Hp Hl _ _ Hs _ Hq Hf.
  rewrite (getAllMovies_numeric db p pg lm q sel Hp Hl Hs Hq Hf).
  set (P := Z.max 1 pg). set (L := Z.min 50 (Z.max 1 lm)).
  set (t := Z.of_nat (List.length sel)).
  eexists. eexists. exists P, L, (ceilDiv t L). split; [reflexivity|].
  assert (HL : 1 <= L <= 50) by (unfold L; lia).
  assert (HP : 1 <= P) by (unfold P; lia).
  pose proof (ceilDiv_bounds t L (proj1 HL)) as Hb.
  cbn [paginate pagesOf totalMovies totalPages pageLimit hasNext hasPrev
       currentPage JS.lt].
  split; [reflexivity|]. split; [reflexivity|]. split; [reflexivity|].
  split; [exact HP|]. split; [exact HL|].
  split; [reflexivity|]. split; [exact Hb|]. split; [|split].
  - rewrite Z.ltb_lt. set (T := ceilDiv t L) in *. split; intros H.
    + assert (P * L <= (T - 1) * L) by (apply Z.mul_le_mono_nonneg_r; lia).
      lia.
    + destruct (Z.lt_ge_cases P T) as [Hlt|Hge]; [exact Hlt|].
      assert (T * L <= P * L) by (apply Z.mul_le_mono_nonneg_r; lia).
      lia.
  - apply Z.ltb_lt.
  - rewrite length_firstn, length_skipn, sortBy_length.
    assert (Hk : 0 <= (P - 1) * L) by nia.
    set (k := (P - 1) * L) in *. unfold t. lia.
Qed.

End PageArithmetic.

(* ================================================================== *)
(** * Suggestions and export *)
(* ================================================================== *)

Section Suggest.

Import Model Schema Controller.

Context {svc : Service}.




(** X13. The export includes the deleted records only for the exact value
    [true] of [includeDeleted]: with it, the rows are the whole
    collection; with any other value, or none, they are the active
    records. Either way the collection is unchanged. *)
Theorem export_scope (db : collection) (format includeDeleted : option string) :
  exists movies,
    exportMovies db format includeDeleted
    = Ok (db, mkResponse 200
                (Exported (String.eqb (orElse format "json"%string) "csv") movies))
    /\ forall m,
         In m movies <->
         In m db /\ (includeDeleted = Some "true"%string \/ status m = Active).
Proof.
  unfold exportMovies.
  destruct (String.eqb (orElse includeDeleted "false"%string) "true") eqn:E.
  - eexists. split; [reflexivity|].
    intros m. rewrite sortBy_In, filter_In. cbn.
    apply String.eqb_eq in E. destruct includeDeleted as [s|];
      [|discriminate]. cbn in E. subst s. tauto.
  - eexists. split; [reflexivity|].
    intros m. rewrite sortBy_In, filter_In. cbn.
    rewrite !andb_true_r. apply String.eqb_neq in E.
    assert (Hne : includeDeleted <> Some "true"%string).
    { intros ->. apply E. reflexivity. }
    destruct (status m); cbn; intuition congruence.
Qed.

End Suggest.

(* ================================================================== *)
(** * Bulk import *)
(* ================================================================== *)

Section BatchImport.

Import Model Schema Controller BulkImport.

Context {svc : Service}.

Local Open Scope Z_scope.

(** What one round of the loop does to the collection and the counters. *)
Lemma importOne_step (e : env) (src : string) (overwrite : bool)
    (db db' : collection) (r r' : results) (x : fields) :
  importOne e src overwrite (db, r) x = Ok (db', r') ->
  tally r' = tally r + 1 /\
  (wellCounted r -> wellCounted r') /\
  (uniqueIds db -> uniqueIds db') /\
  (overwrite = false ->
   (db' = db /\ imported r' = imported r) \/
   (exists m, db' = (db ++ [m])%list /\ imported r' = imported r + 1 /\
              validSource src = true)).
Proof.
  unfold importOne. unfold tally, wellCounted.
  destruct (tryImport e db src overwrite x) as [[db1|]|err] eqn:Et.
  - intros H; injection H as <- <-. cbn [imported skipped errors errorDetails bump].
    split; [lia|]. split.
    { intros [H1 [H2 [H3 H4]]]. rewrite app_nil_r. repeat split; lia. }
    unfold tryImport in Et.
    apply bind_Ok in Et. destruct Et as [re [_ Et]].
    apply bind_Ok in Et. destruct Et as [ex [_ Et]].
    destruct ex as [existing|].
    + destruct overwrite; [|discriminate]. injection Et as <-.
      split; [|discriminate].
      intros Hu. unfold findByIdAndUpdate.
      destruct (findById db (_id existing)); cbn [fst];
        [apply uniqueIds_replaceDoc|]; exact Hu.
    + apply bind_Ok in Et. destruct Et as [[db2 m2] [Hs Et]].
      injection Et as <-. unfold save in Hs.
      destruct (validate e _) eqn:Ev; [|discriminate].
      injection Hs as <- <-. cbn [fst]. split.
      * intros Hu. apply uniqueIds_app_fresh; [exact Hu|reflexivity].
      * intros _. right. eexists. split; [reflexivity|]. split; [lia|].
        unfold validate in Ev. rewrite !andb_true_iff in Ev.
        destruct Ev as [_ Hsrc]. exact Hsrc.
  - intros H; injection H as <- <-. cbn [imported skipped errors errorDetails bump].
    split; [lia|]. split.
    { intros [H1 [H2 [H3 H4]]]. rewrite app_nil_r. repeat split; lia. }
    split; [auto|]. intros _. left. split; [reflexivity|lia].
  - intros H; injection H as <- <-.
    cbn [imported skipped errors errorDetails bump].
    split; [lia|]. split.
    { intros [H1 [H2 [H3 H4]]]. rewrite length_app. cbn [List.length].
      repeat split; lia. }
    split; [auto|]. intros _. left. split; [reflexivity|lia].
Qed.

Lemma importAll_steps (e : env) (src : string) (overwrite : bool)
    (data : list fields) (db db' : collection) (r r' : results) :
  importAll e src overwrite (db, r) data = Ok (db', r') ->
  tally r' = tally r + Z.of_nat (List.length data) /\
  (wellCounted r -> wellCounted r') /\
  (uniqueIds db -> uniqueIds db') /\
  (overwrite = false ->
   exists added,
     db' = (db ++ added)%list /\
     imported r' = imported r + Z.of_nat (List.length added) /\
     (validSource src = false -> added = [])).
Proof.
  revert db r. induction data as [|x rest IH]; intros db r.
  - cbn [importAll]. intros H; injection H as <- <-.
    split; [cbn; lia|]. split; [auto|]. split; [auto|].
    intros _. exists []. rewrite app_nil_r. split; [reflexivity|].
    split; [cbn; lia|reflexivity].
  - cbn [importAll]. intros H.
    apply bind_Ok in H. destruct H as [[db1 r1] [H1 H]].
    destruct (importOne_step e src overwrite db db1 r r1 x H1)
      as [T1 [W1 [U1 O1]]].
    destruct (IH db1 r1 H) as [T2 [W2 [U2 O2]]].
    split; [cbn [List.length]; lia|]. split; [auto|]. split; [auto|].
    intros Ho. destruct (O2 Ho) as [added [-> [I2 V2]]].
    destruct (O1 Ho) as [[-> I1]|[m [-> [I1 V1]]]].
    + exists added. split; [reflexivity|]. split; [lia|exact V2].
    + exists (m :: added). rewrite <- app_assoc. split; [reflexivity|].
      split; [cbn [List.length]; lia|]. intros Hv. congruence.
Qed.

Lemma wellCounted_noResults : wellCounted noResults.
Proof. unfold wellCounted, noResults. cbn. lia. Qed.

(** What the import does when it answers. *)
Lemma bulkImportMovies_inv (e : env) (db db' : collection)
    (source : option string) (overwrite : bool)
    (movies : option (list fields)) (sampleData : list fields)
    (rep : import_reply) :
  bulkImportMovies e db source overwrite movies sampleData = Ok (db', rep) ->
  (db' = db /\ rep = mkImportReply 400 InvalidData
   /\ importData source movies sampleData = None) \/
  (db' = db /\ rep = mkImportReply 400 NoData
   /\ importData source movies sampleData = Some []) \/
  (exists data r,
     importData source movies sampleData = Some data /\ data <> [] /\
     rep = mkImportReply 200 (Completed r) /\
     importAll e (orElse source "sample"%string) overwrite (db, noResults) data
     = Ok (db', r)).
Proof.
  unfold bulkImportMovies. fold (importData source movies sampleData).
  destruct (importData source movies sampleData) as [[|x rest]|].
  - intros H; injection H as <- <-. right. left. auto.
  - intros H. apply bind_Ok in H. destruct H as [[db1 r] [Ha H]].
    injection H as <- <-. right. right. exists (x :: rest), r.
    split; [reflexivity|]. split; [discriminate|]. split; [reflexivity|exact Ha].
  - intros H; injection H as <- <-. left. auto.
Qed.

(** X14. An import accounts for every candidate: when it completes, each
    candidate has been counted once as imported, skipped or failed, no
    counter is negative, there is one error detail for each failure, and
    the identifiers of the collection are still unique. *)
Theorem bulk_import_accounts (e : env) (db db' : collection)
    (source : option string) (overwrite : bool)
    (movies : option (list fields)) (sampleData : list fields)
    (r : results) :
  bulkImportMovies e db source overwrite movies sampleData
  = Ok (db', mkImportReply 200 (Completed r)) ->
  exists data,
    importData source movies sampleData = Some data /\ data <> [] /\
    imported r + skipped r + errors r = Z.of_nat (List.length data) /\
    0 <= imported r /\ 0 <= skipped r /\ 0 <= errors r /\
    Z.of_nat (List.length (errorDetails r)) = errors r /\
    (uniqueIds db -> uniqueIds db').
Proof.
  intros H.
  destruct (bulkImportMovies_inv e db db' source overwrite movies sampleData _ H)
    as [[_ [Hr _]]|[[_ [Hr _]]|[data [r0 [Hd [Hne [Hr Ha]]]]]]];
    try discriminate.
  injection Hr as <-.
  destruct (importAll_steps e _ overwrite data db db' noResults r Ha)
    as [T [W [U _]]].
  destruct (W wellCounted_noResults) as [H1 [H2 [H3 H4]]].
  exists data. unfold tally in T. cbn in T.
  repeat split; auto; lia.
Qed.



(** X16. Without [overwrite] an import only appends: the records that were
    there are kept as they were, in their order, and the records added are
    as many as the counter of imports says. With a source tag that the
    enumeration of the schema does not have, as the default ['sample'],
    every insertion fails its validation, nothing is imported and the
    collection is unchanged. *)
Theorem bulk_import_appends (e : env) (db db' : collection)
    (source : option string) (movies : option (list fields))
    (sampleData : list fields) (r : results) :
  bulkImportMovies e db source false movies sampleData
  = Ok (db', mkImportReply 200 (Completed r)) ->
  (exists added,
     db' = (db ++ added)%list /\ imported r = Z.of_nat (List.length added)) /\
  (validSource (orElse source "sample"%string) = false ->
   db' = db /\ imported r = 0).
Proof.
  intros H.
  destruct (bulkImportMovies_inv e db db' source false movies sampleData _ H)
    as [[_ [Hr _]]|[[_ [Hr _]]|[data [r0 [Hd [Hne [Hr Ha]]]]]]];
    try discriminate.
  injection Hr as <-.
  destruct (importAll_steps e _ false data db db' noResults r Ha)
    as [_ [_ [_ O]]].
  destruct (O eq_refl) as [added [-> [I V]]]. cbn in I.
  split.
  - exists added. split; [reflexivity|exact I].
  - intros Hv. rewrite (V Hv) in *. rewrite app_nil_r. split; [reflexivity|].
    cbn in I. exact I.
Qed.

End BatchImport.

(* ================================================================== *)
(** * The rows of the CSV export *)
(* ================================================================== *)

Section CsvRows.

Import Csv.

Local Open Scope string_scope.

Lemma append_assoc3 (a b c : string) : (a ++ b) ++ c = a ++ (b ++ c).
Proof. induction a as [|x a IH]; simpl; congruence. Qed.

Lemma join_cons2 (sep a b : string) (l : list string) :
  join sep (a :: b :: l) = a ++ sep ++ join sep (b :: l).
Proof. reflexivity. Qed.

Lemma csvRow_cons (x : string) (rest : list string) :
  csvRow (x :: rest) = String quote (doubleQuotes x ++ String quote (rowTail rest)).
Proof.
  destruct rest as [|y r]; [reflexivity|].
  unfold rowTail, csvRow. cbn [map]. rewrite join_cons2.
  unfold quoteField at 1. cbn [append]. rewrite append_assoc3. reflexivity.
Qed.

Lemma rowTail_endsField (rest : list string) : endsField (rowTail rest).
Proof.
  destruct rest as [|y r]; [left; reflexivity|].
  right. eexists. reflexivity.
Qed.

Lemma not_quote_comma : Ascii.eqb ","%char quote = false.
Proof. reflexivity. Qed.

(** A quoted field ends at the first quote that is not doubled. *)
Lemma doubleQuotes_split (f1 f2 t1 t2 : string) :
  endsField t1 -> endsField t2 ->
  doubleQuotes f1 ++ String quote t1 = doubleQuotes f2 ++ String quote t2 ->
  f1 = f2 /\ t1 = t2.
Proof.
  intros H1 H2. revert f2.
  induction f1 as [|c f1 IH]; intros f2; destruct f2 as [|d f2];
    cbn [doubleQuotes append].
  - intros H; injection H as ->. auto.
  - destruct (Ascii.eqb d quote) eqn:Ed; cbn [append]; intros H.
    + injection H as Ht. destruct H1 as [->|[r ->]]; discriminate.
    + injection H as Hq _. rewrite <- Hq, Ascii.eqb_refl in Ed. discriminate.
  - destruct (Ascii.eqb c quote) eqn:Ec; cbn [append]; intros H.
    + injection H as Ht. destruct H2 as [->|[r ->]]; discriminate.
    + injection H as Hq _. rewrite Hq, Ascii.eqb_refl in Ec. discriminate.
  - destruct (Ascii.eqb c quote) eqn:Ec; destruct (Ascii.eqb d quote) eqn:Ed;
      cbn [append]; intros H.
    + injection H as H. destruct (IH f2 H) as [-> ->].
      apply Ascii.eqb_eq in Ec. apply Ascii.eqb_eq in Ed. subst. auto.
    + injection H as Hq _. rewrite <- Hq, Ascii.eqb_refl in Ed. discriminate.
    + injection H as Hq _. rewrite Hq, Ascii.eqb_refl in Ec. discriminate.
    + injection H as Hc H. destruct (IH f2 H) as [-> ->]. subst. auto.
Qed.

(** X17. A row of the CSV export reads back in one way only: two lists of
    fields with the same row are the same list, whatever quotes, commas or
    line feeds the fields contain. *)
Theorem csvRow_injective (r1 r2 : list string) :
  csvRow r1 = csvRow r2 -> r1 = r2.
Proof.
  revert r2. induction r1 as [|x1 r1 IH]; intros r2; destruct r2 as [|x2 r2].
  - reflexivity.
  - rewrite csvRow_cons. discriminate.
  - rewrite csvRow_cons. discriminate.
  - rewrite !csvRow_cons. intros H. injection H as H.
    destruct (doubleQuotes_split x1 x2 _ _ (rowTail_endsField r1)
                (rowTail_endsField r2) H) as [-> Ht].
    f_equal. apply IH.
    destruct r1 as [|y1 r1], r2 as [|y2 r2]; cbn [rowTail] in Ht.
    + reflexivity.
    + discriminate.
    + discriminate.
    + cbn [append] in Ht. injection Ht as Ht. exact Ht.
Qed.

End CsvRows.

(* ================================================================== *)
(** * The error middleware *)
(* ================================================================== *)

Section Middleware.

Import ErrorMiddleware.

Local Open Scope Z_scope.

(** X18. An error made by [createError] is answered with its own message
    and status code, never as a validation, cast or duplicate error; a
    status code that is absent or zero is answered with 500, and an empty
    message with the default text. *)
Theorem createError_answer (message : string) (statusCode : option Z) :
  errorHandler (createError message statusCode)
  = (match statusCode with
     | Some c => if c =? 0 then 500 else c
     | None => 500
     end,
     MessageBody (match message with
                  | EmptyString => "Internal Server Error"%string
                  | _ => message
                  end)).
Proof.
  unfold errorHandler, createError. cbn.
  destruct statusCode as [c|]; cbn.
  - destruct (c =? 0); destruct message; reflexivity.
  - destruct message; reflexivity.
Qed.

End Middleware.

(* ================================================================== *)
(** * The decade distribution *)
(* ================================================================== *)

Section Decades.

Import Model Schema Controller Stats.

Context {svc : Service}.

Local Open Scope Z_scope.

Lemma countFor_addToGroups (k k' : Z) (r : option Q) (gs : list group) :
  countFor k' (addToGroups k r gs)
  = countFor k' gs + (if k' =? k then 1 else 0).
Proof.
  unfold countFor. induction gs as [|g rest IH]; cbn [addToGroups List.find].
  - cbn [accumulate g_id g_count]. rewrite (Z.eqb_sym k k').
    destruct (k' =? k); reflexivity.
  - destruct (g_id g =? k) eqn:E; cbn [List.find accumulate g_id g_count].
    + apply Z.eqb_eq in E. rewrite E, (Z.eqb_sym k k').
      destruct (k' =? k); cbn [g_count accumulate];
        [lia|destruct (List.find _ rest); lia].
    + destruct (g_id g =? k') eqn:E'.
      * apply Z.eqb_eq in E'. apply Z.eqb_neq in E.
        destruct (k' =? k) eqn:E2; [apply Z.eqb_eq in E2; lia|lia].
      * exact IH.
Qed.

Lemma ids_addToGroups (k k' : Z) (r : option Q) (gs : list group) :
  In k' (map g_id (addToGroups k r gs)) <-> k' = k \/ In k' (map g_id gs).
Proof.
  induction gs as [|g rest IH]; cbn [addToGroups map].
  - cbn. intuition auto.
  - destruct (g_id g =? k) eqn:E; cbn [map In accumulate g_id].
    + apply Z.eqb_eq in E. intuition congruence.
    + rewrite IH. intuition auto.
Qed.

Lemma NoDup_addToGroups (k : Z) (r : option Q) (gs : list group) :
  NoDup (map g_id gs) -> NoDup (map g_id (addToGroups k r gs)).
Proof.
  induction gs as [|g rest IH]; cbn [addToGroups map]; intros Hn.
  - constructor; [simpl; tauto|constructor].
  - inversion Hn as [|? ? Hg Hr]; subst.
    destruct (g_id g =? k) eqn:E; cbn [map accumulate g_id].
    + constructor; assumption.
    + constructor; [|apply IH; exact Hr].
      rewrite ids_addToGroups. apply Z.eqb_neq in E. intuition auto.
Qed.

Lemma positive_addToGroups (k : Z) (r : option Q) (gs : list group) :
  (forall g, In g gs -> 1 <= g_count g) ->
  forall g, In g (addToGroups k r gs) -> 1 <= g_count g.
Proof.
  induction gs as [|h rest IH]; cbn [addToGroups]; intros Hp g Hg.
  - destruct Hg as [<-|[]]. cbn. lia.
  - destruct (g_id h =? k).
    + destruct Hg as [<-|Hg]; [|apply Hp; right; exact Hg].
      cbn [accumulate g_count]. specialize (Hp h (or_introl eq_refl)). lia.
    + destruct Hg as [<-|Hg]; [apply Hp; left; reflexivity|].
      apply IH; [|exact Hg]. intros g' Hg'. apply Hp. right. exact Hg'.
Qed.

(** The groups of a list of documents: one for each decade, counting the
    documents of the decade. *)
Lemma groupByDecade_spec (docs : list movie) :
  NoDup (map g_id (groupByDecade docs)) /\
  (forall g, In g (groupByDecade docs) -> 1 <= g_count g) /\
  forall k,
    countFor k (groupByDecade docs)
    = Z.of_nat (List.length
                  (filter (fun m => match year m with
                                    | Some y => decadeOf y =? k
                                    | None => false
                                    end) docs)).
Proof.
  induction docs as [|m rest [IH1 [IH2 IH3]]]; cbn [groupByDecade fold_right].
  - split; [constructor|]. split; [intros g []|]. intros k. reflexivity.
  - fold (groupByDecade rest). destruct (year m) as [y|] eqn:Ey.
    + split; [apply NoDup_addToGroups; exact IH1|].
      split; [apply positive_addToGroups; exact IH2|].
      intros k. rewrite countFor_addToGroups, IH3. cbn [filter].
      rewrite Ey, (Z.eqb_sym k). destruct (decadeOf y =? k);
        cbn [List.length]; lia.
    + split; [exact IH1|]. split; [exact IH2|].
      intros k. rewrite IH3. cbn [filter]. rewrite Ey. reflexivity.
Qed.

Lemma countFor_member (g : group) (gs : list group) :
  NoDup (map g_id gs) -> In g gs -> countFor (g_id g) gs = g_count g.
Proof.
  unfold countFor. induction gs as [|h rest IH]; cbn [map List.find];
    intros Hn Hg; [destruct Hg|].
  inversion Hn as [|? ? Hh Hr]; subst.
  destruct Hg as [->|Hg].
  - rewrite Z.eqb_refl. reflexivity.
  - destruct (g_id h =? g_id g) eqn:E; [|apply IH; assumption].
    apply Z.eqb_eq in E. exfalso. apply Hh. rewrite E. apply in_map. exact Hg.
Qed.

Lemma insertGroup_In (g x : group) (l : list group) :
  In x (insertGroup g l) <-> x = g \/ In x l.
Proof.
  induction l as [|h t IH]; cbn [insertGroup].
  - cbn. intuition auto.
  - destruct (g_id h <? g_id g); cbn [In]; rewrite ?IH; intuition auto.
Qed.

Lemma sortGroups_In (x : group) (l : list group) :
  In x (sortGroups l) <-> In x l.
Proof.
  induction l as [|g t IH]; cbn [sortGroups fold_right]; [tauto|].
  fold (sortGroups t). rewrite insertGroup_In, IH. cbn. intuition auto.
Qed.

Lemma ids_insertGroup (g : group) (k : Z) (l : list group) :
  In k (map g_id (insertGroup g l)) <-> k = g_id g \/ In k (map g_id l).
Proof.
  induction l as [|h t IH]; cbn [insertGroup map].
  - cbn. intuition auto.
  - destruct (g_id h <? g_id g); cbn [map In]; rewrite ?IH; intuition auto.
Qed.

Lemma NoDup_insertGroup (g : group) (l : list group) :
  ~ In (g_id g) (map g_id l) -> NoDup (map g_id l) ->
  NoDup (map g_id (insertGroup g l)).
Proof.
  induction l as [|h t IH]; cbn [insertGroup map]; intros Hg Hn.
  - constructor; [simpl; tauto|constructor].
  - destruct (g_id h <? g_id g); cbn [map].
    + constructor; assumption.
    + inversion Hn as [|? ? Hh Ht]; subst. cbn [In] in Hg. constructor.
      * rewrite ids_insertGroup. intuition auto.
      * apply IH; [tauto|exact Ht].
Qed.

Lemma NoDup_sortGroups (l : list group) :
  NoDup (map g_id l) -> NoDup (map g_id (sortGroups l)).
Proof.
  induction l as [|g t IH]; cbn [sortGroups fold_right map]; intros Hn;
    [constructor|].
  fold (sortGroups t). inversion Hn as [|? ? Hg Ht]; subst.
  apply NoDup_insertGroup; [|apply IH; exact Ht].
  intros Hin. apply Hg. apply in_map_iff in Hin.
  destruct Hin as [x [Hx Hin]]. apply (proj1 (sortGroups_In x t)) in Hin.
  rewrite <- Hx. apply in_map. exact Hin.
Qed.

Lemma NoDup_firstn {A : Type} (n : nat) (l : list A) :
  NoDup l -> NoDup (firstn n l).
Proof.
  revert l. induction n as [|n IH]; intros l Hn; cbn [firstn]; [constructor|].
  destruct l as [|h t]; [constructor|].
  inversion Hn as [|? ? Hh Ht]; subst. constructor; [|apply IH; exact Ht].
  intros Hin. apply Hh. clear - Hin. revert t Hin.
  induction n as [|n IH]; intros t; cbn [firstn]; [intros []|].
  destruct t as [|a t]; [intros []|].
  intros [<-|H]; [left; reflexivity|right; apply IH; exact H].
Qed.

Lemma map_firstn_ids (n : nat) (l : list group) :
  map (fun x => g_id x) (firstn n l) = firstn n (map g_id l).
Proof.
  revert l. induction n as [|n IH]; intros l; cbn [firstn map]; [reflexivity|].
  destruct l as [|h t]; cbn [map]; [reflexivity|]. rewrite IH. reflexivity.
Qed.

Lemma yearStats_In (db : collection) (g : group) :
  In g (yearStats db) -> In g (groupByDecade (filter matched db)).
Proof.
  unfold yearStats. intros H. apply sortGroups_In.
  revert H. generalize (sortGroups (groupByDecade (filter matched db))).
  intros l. generalize 10%nat. intros n. revert l.
  induction n as [|n IH]; intros l; cbn [firstn]; [intros []|].
  destruct l as [|h t]; [intros []|].
  intros [<-|H]; [left; reflexivity|right; apply IH; exact H].
Qed.

Lemma filter_filter {A : Type} (f g : A -> bool) (l : list A) :
  filter g (filter f l) = filter (fun x => f x && g x) l.
Proof.
  induction l as [|x r IH]; cbn [filter]; [reflexivity|].
  destruct (f x); cbn [filter andb]; [|exact IH].
  destruct (g x); rewrite IH; reflexivity.
Qed.

Lemma decadeOf_range (y d : Z) :
  0 <= y -> (decadeOf y = d <-> d <= y <= d + 9 /\ Z.rem d 10 = 0).
Proof.
  intros Hy. unfold decadeOf.
  rewrite (Z.rem_mod_nonneg y 10) by lia.
  pose proof (Z.mod_pos_bound y 10 ltac:(lia)) as Hb.
  pose proof (Z.div_mod y 10 ltac:(lia)) as Hd.
  split.
  - intros <-. split; [lia|].
    replace (y - y mod 10) with (y / 10 * 10) by lia.
    apply Z.rem_mul; lia.
  - intros [Hr Hm].
    assert (Hd0 : 0 <= d \/ d < 0) by lia.
    destruct Hd0 as [Hd0|Hd0].
    + rewrite (Z.rem_mod_nonneg d 10) in Hm by lia.
      pose proof (Z.div_mod d 10 ltac:(lia)) as Hdd.
      assert (y / 10 = d / 10); [|lia].
      assert (d = 10 * (d / 10)) by lia.
      symmetry. apply Z.div_unique with (r := y - d); lia.
    + exfalso.
      assert (Hcases : d = -1 \/ d = -2 \/ d = -3 \/ d = -4 \/ d = -5 \/
                       d = -6 \/ d = -7 \/ d = -8 \/ d = -9) by lia.
      repeat (destruct Hcases as [->|Hcases]; [discriminate Hm|]).
      subst d. discriminate Hm.
Qed.

(** X19. The decade distribution of the statistics has at most ten entries,
    one for each decade; the count of an entry is the number of active
    records whose year falls in its decade, which is at least one, and its
    average rating has one decimal place. When no active record has a
    negative year, that count is the total that the listing reports for
    the same decade as its filter. *)
Theorem decade_distribution (db : collection) :
  (List.length (yearDistribution db) <= 10)%nat /\
  NoDup (map decade (yearDistribution db)) /\
  (forall entry,
     In entry (yearDistribution db) ->
     Stats.count entry
     = Z.of_nat (List.length (filter (inDecade (decade entry)) db)) /\
     1 <= Stats.count entry /\ oneDecimal (averageRating entry)) /\
  ((forall m y, In m db -> status m = Active -> year m = Some y -> 0 <= y) ->
   forall entry,
     In entry (yearDistribution db) ->
     countDocuments db
       (withYear activeOnly
          (YearBetween (JS.Int (decade entry)) (JS.Int (decade entry + 9))))
     = Ok (Stats.count entry)).
Proof.
  destruct (groupByDecade_spec (filter matched db)) as [Hn [Hp Hc]].
  assert (Hcount : forall g, In g (yearStats db) ->
            g_count g = Z.of_nat (List.length (filter (inDecade (g_id g)) db))).
  { intros g Hg. apply yearStats_In in Hg.
    rewrite <- (countFor_member g _ Hn Hg), Hc, filter_filter.
    f_equal. f_equal. apply filter_ext. intros m.
    unfold matched, inDecade. destruct (year m); [|rewrite !andb_false_r; reflexivity].
    rewrite andb_true_r. reflexivity. }
  assert (Hentry : forall entry, In entry (yearDistribution db) ->
            exists g, In g (yearStats db) /\ decade entry = g_id g /\
                      Stats.count entry = g_count g /\
                      averageRating entry
                      = roundRating (orElse (average g) 0%Q)).
  { intros entry He. unfold yearDistribution in He.
    apply in_map_iff in He. destruct He as [g [<- Hg]].
    exists g. cbn. auto. }
  split.
  { unfold yearDistribution, yearStats. rewrite length_map.
    apply firstn_le_length. }
  split.
  { unfold yearDistribution. rewrite map_map. cbn [decade].
    unfold yearStats. rewrite map_firstn_ids. apply NoDup_firstn.
    apply NoDup_sortGroups. exact Hn. }
  split.
  { intros entry He. destruct (Hentry entry He) as [g [Hg [Hd [Hc' Ha]]]].
    rewrite Hd, Hc'. split; [apply Hcount; exact Hg|].
    split; [apply Hp; apply yearStats_In; exact Hg|].
    rewrite Ha. apply roundRating_oneDecimal. }
  intros Hyears entry He.
  destruct (Hentry entry He) as [g [Hg [Hd [Hc' _]]]].
  rewrite Hd, Hc', (Hcount g Hg).
  unfold countDocuments, find. cbn [bind evalQuery]. cbn.
  f_equal. f_equal. f_equal.
  assert (Hg1 : 1 <= g_count g) by (apply Hp; apply yearStats_In; exact Hg).
  rewrite (Hcount g Hg) in Hg1.
  assert (Hex : exists m0 y0, In m0 db /\ status m0 = Active /\
                              year m0 = Some y0 /\ decadeOf y0 = g_id g).
  { destruct (filter (inDecade (g_id g)) db) as [|m0 l] eqn:Ef;
      [cbn in Hg1; lia|].
    assert (Hin : In m0 (filter (inDecade (g_id g)) db))
      by (rewrite Ef; left; reflexivity).
    apply filter_In in Hin. destruct Hin as [Hin Hdec].
    unfold inDecade in Hdec. apply andb_true_iff in Hdec.
    destruct Hdec as [Hs Hy]. destruct (year m0) as [y0|] eqn:Ey; [|discriminate].
    exists m0, y0. apply Z.eqb_eq in Hy.
    repeat split; auto. destruct (status m0); cbn in Hs; congruence. }
  destruct Hex as [m0 [y0 [Hin0 [Hs0 [Hy0 Hd0]]]]].
  pose proof (proj1 (decadeOf_range y0 (g_id g) (Hyears m0 y0 Hin0 Hs0 Hy0)) Hd0)
    as [_ Hrem].
  apply filter_ext_in. intros m Hm.
  unfold inDecade, evalYear. rewrite !andb_true_r.
  destruct (lifecycle_eqb (status m) Active) eqn:Es; [|reflexivity].
  cbn [andb]. destruct (year m) as [y|] eqn:Ey; [|reflexivity].
  assert (Hact : status m = Active) by (destruct (status m); cbn in Es; congruence).
  pose proof (decadeOf_range y (g_id g) (Hyears m y Hm Hact Ey)) as Hr.
  destruct (decadeOf y =? g_id g) eqn:E.
  - apply Z.eqb_eq in E. apply Hr in E. apply andb_true_iff.
    split; apply Z.leb_le; lia.
  - apply Z.eqb_neq in E. apply not_true_is_false. intros H.
    apply andb_true_iff in H. destruct H as [H1 H2].
    apply Z.leb_le in H1. apply Z.leb_le in H2. apply E. apply Hr. lia.
Qed.

End Decades.

(* ================================================================== *)
(** * The search of the model and the listing *)
(* ================================================================== *)

Section ModelSearch.

Import Model Schema Controller Statics.

Context {svc : Service}.

(** A [RegExp] object that was made from a source is prepared as the
    source is. *)
Lemma prepare_newRegExp (s : string) (re : regexp) :
  newRegExp s = Ok re -> prepare (RegExpObject re) = prepareSource s.
Proof.
  unfold newRegExp, prepare, prepareSource.
  destruct (Regex.compile s) as [r| |]; try discriminate.
  - intros H; injection H as <-. reflexivity.
  - destruct (accepts s); [|discriminate].
    intros H; injection H as <-. reflexivity.
Qed.

Lemma evalQuery_intro (q : query)
    (rs : option (matcher * matcher)) (rt rg : option matcher) :
  casts q = true ->
  optPrepare (q_search q) prepareSearch = Ok rs ->
  optPrepare (q_title q) prepare = Ok rt ->
  optPrepare (q_genres q) prepare = Ok rg ->
  evalQuery q
  = Ok (fun m =>
          optCond (q_status q) (fun c => evalStatus c m)
          && optCond rs (fun rr => evalSearch rr m)
          && optCond rt (fun r => r (title m))
          && optCond rg (fun r => existsb r (genres m))
          && optCond (q_year q) (fun c => evalYear c m)
          && optCond (q_rating q) (fun c => evalRating c m)
          && optCond (q_source q) (fun s => String.eqb (source m) s)
          && optCond (q_id_ne q) (fun i => negb (Nat.eqb (_id m) i))
          && optCond (q_updatedAt_gte q) (fun t => (t <=? updatedAt m)%Z)
          && optCond (q_related q) (fun c => evalRelated c m)).
Proof.
  intros Hc H1 H2 H3. unfold evalQuery. rewrite Hc, H1, H2, H3. reflexivity.
Qed.

(** The query of the listing is the query of the model with the search
    string as one more key. *)
Lemma listing_query_of_search (text : option string) (o : searchOptions)
    (mq : modelQuery) :
  searchQuery text o = Ok mq ->
  exists q,
    compileFilter (asListParams text o) = Ok q /\
    q_search q
    = (if JS.truthy (JS.trim (orElse text EmptyString))
       then Some (orElse text EmptyString) else None) /\
    q_search (mq_base mq) = None /\
    q_status q = q_status (mq_base mq) /\
    q_title q = q_title (mq_base mq) /\
    q_genres q = q_genres (mq_base mq) /\
    q_year q = q_year (mq_base mq) /\
    q_rating q = q_rating (mq_base mq) /\
    q_source q = q_source (mq_base mq) /\
    q_id_ne q = q_id_ne (mq_base mq) /\
    q_updatedAt_gte q = q_updatedAt_gte (mq_base mq) /\
    q_related q = q_related (mq_base mq).
Proof.
  unfold searchQuery, compileFilter, asListParams.
  cbn [p_search p_genre p_year p_decade p_minRating p_maxRating p_source orElse].
  intros Hq.
  apply bind_Ok in Hq. destruct Hq as [txt [_ Hq]].
  apply bind_Ok in Hq. destruct Hq as [q1 [Hg Hq]].
  injection Hq as <-. cbn [mq_base].
  destruct (JS.truthy (orElse (o_genre o) EmptyString)).
  - apply bind_Ok in Hg. destruct Hg as [rg [Hrg Hg]]. injection Hg as <-.
    rewrite Hrg. cbn [bind].
    destruct (JS.truthy (JS.trim (orElse text EmptyString)));
      destruct (JS.truthy (orElse (o_year o) EmptyString));
      destruct (JS.truthy (orElse (o_decade o) EmptyString));
      destruct (JS.truthy (orElse (o_minRating o) EmptyString)
                || JS.truthy (orElse (o_maxRating o) EmptyString));
      (eexists; split; [reflexivity|]); repeat split; reflexivity.
  - injection Hg as <-. cbn [bind].
    destruct (JS.truthy (JS.trim (orElse text EmptyString)));
      destruct (JS.truthy (orElse (o_year o) EmptyString));
      destruct (JS.truthy (orElse (o_decade o) EmptyString));
      destruct (JS.truthy (orElse (o_minRating o) EmptyString)
                || JS.truthy (orElse (o_maxRating o) EmptyString));
      (eexists; split; [reflexivity|]); repeat split; reflexivity.
Qed.

(** The text group of the model query. *)
Lemma searchQuery_text (text : option string) (o : searchOptions)
    (mq : modelQuery) :
  searchQuery text o = Ok mq ->
  (JS.truthy (orElse text EmptyString) = false /\ mq_text mq = None) \/
  (exists re,
     newRegExp (orElse text EmptyString) = Ok re /\
     mq_text mq = Some (orElse text EmptyString, re)).
Proof.
  unfold searchQuery. intros Hq.
  apply bind_Ok in Hq. destruct Hq as [txt [Ht Hq]].
  apply bind_Ok in Hq. destruct Hq as [q1 [_ Hq]].
  injection Hq as <-. cbn [mq_text].
  destruct (JS.truthy (orElse text EmptyString)).
  - apply bind_Ok in Ht. destruct Ht as [re [Hre Ht]]. injection Ht as <-.
    right. exists re. auto.
  - injection Ht as <-. left. auto.
Qed.

Lemma evalText_evalSearch (r : matcher) (m : movie) :
  evalText (r, r) m = true -> evalSearch (r, r) m = true.
Proof.
  unfold evalText, evalSearch. intros ->. reflexivity.
Qed.

(** X20. Whatever the search of the model returns for a text that has no
    white space at either end, and its options, the listing of the
    controller accepts the same parameters, and every record returned is a
    stored record that the filter of the listing selects. (The listing
    trims the pattern for cast and genre entries, which the search of the
    model does not.) *)
Theorem searchMovies_within_listing (db : collection) (text : option string)
    (o : searchOptions) (l : list movie) :
  JS.trim (orElse text EmptyString) = orElse text EmptyString ->
  searchMovies db text o = Ok l ->
  exists q f,
    compileFilter (asListParams text o) = Ok q /\
    evalQuery q = Ok f /\
    forall m, In m l -> In m db /\ f m = true.
Proof.
  intros Htrim. unfold searchMovies. intros H.
  apply bind_Ok in H. destruct H as [mq [Hq H]].
  apply bind_Ok in H. destruct H as [f0 [Hf H]].
  apply bind_Ok in H. destruct H as [tx [Htx H]].
  apply bind_Ok in H. destruct H as [l1 [Hs Hl]].
  assert (Hin : forall m, In m l -> In m db /\ f0 m = true /\
                          optCond tx (fun rr => evalText rr m) = true).
  { intros m Hm. apply (limit_In _ _ _ _ Hl) in Hm.
    apply (skip_In _ _ _ _ Hs) in Hm. apply sortBy_In in Hm.
    apply filter_In in Hm. destruct Hm as [Hdb Hsel].
    unfold selects in Hsel. apply andb_true_iff in Hsel. tauto. }
  clear Hs Hl l1.
  destruct (listing_query_of_search text o mq Hq)
    as [q [Hc [Q1 [Q0 [Q2 [Q3 [Q4 [Q5 [Q6 [Q7 [Q8 [Q9 Q10]]]]]]]]]]]].
  destruct (evalQuery_inv _ f0 Hf) as [Hcast [rs [rt [rg [P1 [P2 [P3 F0]]]]]]].
  rewrite Q0 in P1. cbn [optPrepare] in P1. injection P1 as <-.
  assert (Hcq : casts q = true)
    by (unfold casts in *; rewrite Q5, Q6; exact Hcast).
  set (t := orElse text EmptyString) in *.
  assert (Hrs : exists rs',
            optPrepare (q_search q) prepareSearch = Ok rs' /\
            forall m, optCond tx (fun rr => evalText rr m) = true ->
                      optCond rs' (fun rr => evalSearch rr m) = true).
  { rewrite Q1. destruct (JS.truthy (JS.trim t)) eqn:Etr.
    - destruct (searchQuery_text text o mq Hq) as [[Et _]|[re [Hre Hmt]]].
      + fold t in Et. rewrite Htrim in Etr. congruence.
      + fold t in Hre, Hmt. rewrite Hmt in Htx. cbn [optPrepare] in Htx.
        apply bind_Ok in Htx. destruct Htx as [rr [Hrr Htx]].
        injection Htx as <-. unfold prepareText in Hrr. cbn [fst snd] in Hrr.
        apply bind_Ok in Hrr. destruct Hrr as [r [Hr Hrr]].
        rewrite (prepare_newRegExp t re Hre), Hr in Hrr. cbn [bind] in Hrr.
        injection Hrr as <-.
        exists (Some (r, r)). split.
        * cbn [optPrepare]. unfold prepareSearch. rewrite Htrim, Hr.
          reflexivity.
        * intros m. cbn [optCond]. apply evalText_evalSearch.
    - exists None. split; [reflexivity|]. reflexivity. }
  destruct Hrs as [rs' [Hrs Hsearch]].
  rewrite <- Q3 in P2. rewrite <- Q4 in P3.
  exists q. eexists. split; [exact Hc|].
  split; [apply (evalQuery_intro q rs' rt rg Hcq Hrs P2 P3)|].
  intros m Hm. destruct (Hin m Hm) as [Hdb [Hf0 Ht]].
  split; [exact Hdb|]. cbv beta.
  rewrite F0 in Hf0. cbn [optCond] in Hf0. rewrite andb_true_r in Hf0.
  rewrite Q2, Q5, Q6, Q7, Q8, Q9, Q10, (Hsearch m Ht), andb_true_r.
  exact Hf0.
Qed.

End ModelSearch.

(* ================================================================== *)
(** * The serialised rating *)
(* ================================================================== *)

Section Serialisation.

Import Model Schema.





End Serialisation.

(* ================================================================== *)
(** * The trending list *)
(* ================================================================== *)

Section TrendingList.

Import Model Schema Controller.

Context {svc : Service}.

Local Open Scope Z_scope.


End TrendingList.

(* ================================================================== *)
(** * Instances on the sample collection *)
(* ================================================================== *)

Section Instances.

Import Model Schema Controller.

Local Open Scope Z_scope.

Lemma db0_uniqueIds : uniqueIds Samples.db0.
Proof.
  unfold uniqueIds; simpl. repeat constructor; simpl; intuition discriminate.
Qed.

(** The collection keeps unique identifiers when the film is created. *)
Lemma writes_keep_unique_ids_witness :
  uniqueIds Samples.db0 /\ uniqueIds (fst Fixtures.ranCreated).
Proof.
  split; [exact db0_uniqueIds|].
  apply (proj1 (writes_keep_unique_ids Samples.db0 db0_uniqueIds)
           Samples.env0 Fixtures.ran (fst Fixtures.ranCreated)
           (snd Fixtures.ranCreated)).
  vm_compute. reflexivity.
Defined.

Lemma create_then_found_witness :
  exists m,
    body (snd Fixtures.ranCreated) = Stored (toJSON m) /\
    fst Fixtures.ranCreated = (Samples.db0 ++ [m])%list /\
    ~ In (_id m) (map _id Samples.db0) /\
    findById (fst Fixtures.ranCreated) (_id m) = Some m /\
    (forall j, In j (map _id Samples.db0) ->
       findById (fst Fixtures.ranCreated) j = findById Samples.db0 j) /\
    (forall e2, status m <> Deleted ->
       exists db2 d rel,
         getMovieById e2 (fst Fixtures.ranCreated) (_id m)
         = Ok (db2, mkResponse 200 (Detail d rel)) /\ _id d = _id m).
Proof.
  apply (create_then_found Samples.env0 Samples.db0 (fst Fixtures.ranCreated)
           Fixtures.ran (snd Fixtures.ranCreated)).
  - vm_compute. reflexivity.
  - vm_compute. reflexivity.
Defined.


Lemma delete_then_hidden_witness :
  exists db',
    deleteMovie Samples.env0 Samples.db0 1
    = Ok (db', mkResponse 200
                 (DeletedSummary (_id Samples.jaws) (title Samples.jaws)
                    (year Samples.jaws))) /\
    (forall e2,
       getMovieById e2 db' 1 = Ok (db', mkResponse 404 (NotFound 1))) /\
    (forall e2,
       Engagement.addToFavorites e2 db' 1
       = Ok (db', Engagement.mkReply 404 (Engagement.NoSuchMovie 1))) /\
    (forall p, ~ In 1%nat (records (respond (getAllMovies db' p)))).
Proof.
  apply (delete_then_hidden Samples.env0 Samples.db0 1 Samples.jaws).
  - reflexivity.
  - exact db0_uniqueIds.
Defined.

Lemma update_restores_deleted_witness :
  updateMovie Samples.env0 Samples.db0 2 Fixtures.reactivate
  = Ok (replaceDoc Samples.db0
          (applyFields Samples.env0 Fixtures.reactivate Samples.gone),
        mkResponse 200
          (Stored (toJSON (applyFields Samples.env0 Fixtures.reactivate
                             Samples.gone)))) /\
  findById (replaceDoc Samples.db0
              (applyFields Samples.env0 Fixtures.reactivate Samples.gone)) 2
  = Some (applyFields Samples.env0 Fixtures.reactivate Samples.gone) /\
  status (applyFields Samples.env0 Fixtures.reactivate Samples.gone) = Active.
Proof.
  apply (update_restores_deleted Samples.env0 Samples.db0 2 Fixtures.reactivate
           Samples.gone Active).
  - reflexivity.
  - reflexivity.
  - reflexivity.
  - discriminate.
  - vm_compute. reflexivity.
  - vm_compute. reflexivity.
Defined.

(** Page 3 of the two active records with a limit of 500, which is cut to
    50. *)
Lemma pagination_consistent_witness :
  exists movies pgn P L T,
    getAllMovies Samples.db0 Samples.bigPage
    = Ok (Samples.db0, mkResponse 200 (Listing movies pgn)) /\
    currentPage pgn = JS.Int P /\ pageLimit pgn = JS.Int L /\
    totalPages pgn = JS.Int T /\
    1 <= P /\ 1 <= L <= 50 /\
    totalMovies pgn = Z.of_nat (List.length [Samples.jaws; Samples.heat]) /\
    (T - 1) * L < totalMovies pgn <= T * L /\
    (hasNext pgn = true <-> P * L < totalMovies pgn) /\
    (hasPrev pgn = true <-> 1 < P) /\
    Z.of_nat (List.length movies)
    = Z.min L (Z.max 0 (totalMovies pgn - (P - 1) * L)).
Proof.
  apply (pagination_consistent Samples.db0 Samples.bigPage 3 500 activeOnly
           [Samples.jaws; Samples.heat]).
  - reflexivity.
  - reflexivity.
  - unfold JS.maxSafe. simpl. lia.
  - unfold JS.maxSafe. simpl. lia.
  - unfold int32Max. simpl. lia.
  - unfold int32Max. simpl. lia.
  - reflexivity.
  - reflexivity.
Defined.

Lemma bulk_import_accounts_witness :
  exists data,
    BulkImport.importData (Some "user"%string) (Some Fixtures.batch) []
    = Some data /\ data <> [] /\
    BulkImport.imported (snd Fixtures.batchImported)
    + BulkImport.skipped (snd Fixtures.batchImported)
    + BulkImport.errors (snd Fixtures.batchImported)
    = Z.of_nat (List.length data) /\
    0 <= BulkImport.imported (snd Fixtures.batchImported) /\
    0 <= BulkImport.skipped (snd Fixtures.batchImported) /\
    0 <= BulkImport.errors (snd Fixtures.batchImported) /\
    Z.of_nat (List.length (BulkImport.errorDetails (snd Fixtures.batchImported)))
    = BulkImport.errors (snd Fixtures.batchImported) /\
    (uniqueIds Samples.db0 -> uniqueIds (fst Fixtures.batchImported)).
Proof.
  apply (bulk_import_accounts Samples.env0 Samples.db0
           (fst Fixtures.batchImported) (Some "user"%string) false
           (Some Fixtures.batch) [] (snd Fixtures.batchImported)).
  vm_compute. reflexivity.
Defined.


Lemma bulk_import_appends_witness :
  (exists added,
     fst Fixtures.batchImported = (Samples.db0 ++ added)%list /\
     BulkImport.imported (snd Fixtures.batchImported)
     = Z.of_nat (List.length added)) /\
  (validSource (orElse (Some "user"%string) "sample"%string) = false ->
   fst Fixtures.batchImported = Samples.db0 /\
   BulkImport.imported (snd Fixtures.batchImported) = 0).
Proof.
  apply (bulk_import_appends Samples.env0 Samples.db0
           (fst Fixtures.batchImported) (Some "user"%string)
           (Some Fixtures.batch) [] (snd Fixtures.batchImported)).
  vm_compute. reflexivity.
Defined.

Lemma csvRow_injective_witness :
  ("a,b"%string :: tl Fixtures.row) = Fixtures.row.
Proof.
  apply (csvRow_injective ("a,b"%string :: tl Fixtures.row) Fixtures.row).
  reflexivity.
Defined.

(** The nineties of the sample collection: one active record, which is what
    the listing counts for the decade 1990. *)
Lemma decade_distribution_witness :
  countDocuments Samples.db0
    (withYear activeOnly (YearBetween (JS.Int 1990) (JS.Int (1990 + 9))))
  = Ok 1.
Proof.
  apply (proj2 (proj2 (proj2 (decade_distribution Samples.db0)))
           ltac:(intros m y [<-|[<-|[<-|[]]]] _ Hy; injection Hy as <-; lia)
           Fixtures.nineties).
  vm_compute. left. reflexivity.
Defined.

Lemma searchMovies_within_listing_witness :
  exists q f,
    compileFilter (Statics.asListParams (Some "a"%string) Fixtures.noOptions)
    = Ok q /\
    evalQuery q = Ok f /\
    forall m, In m [Samples.heat; Samples.jaws] ->
      In m Samples.db0 /\ f m = true.
Proof.
  apply (searchMovies_within_listing Samples.db0 (Some "a"%string)
           Fixtures.noOptions [Samples.heat; Samples.jaws]).
  - reflexivity.
  - vm_compute. reflexivity.
Defined.


End Instances.

